(** * howfuckedistheinternet.com: history windows, detectors and the status ladder

    A shallow embedding of [main.py]: the four fetch functions from the
    decoded reply on, the seven detectors, and the loop of [main] with its
    scoring.  A detector is a function from its input mapping and its
    history to either an exception or the pair the Python function returns;
    the requests themselves, the clock and the file output are left out.

    Number model.  Python [int] is [Z].  Python [float] values only arise
    from true division and from the fractional weights; a finite float is
    embedded as the rational it holds ([Q]).  Where the operands are lengths
    of lists, [a / b] is taken as the exact quotient (module [Py]); the two
    RPKI detectors divide counts read from the reply, which are not bounded,
    and their arithmetic is rounded as binary64 does it (module [Double]):
    53 significant bits, ties to even, [OverflowError] or an infinity from
    [2^1024] on.  A zero divisor raises [ZeroDivisionError] as in Python.
    The binary64 evaluation of the weighting scenario is replayed separately
    with primitive floats in module [Binary64]. *)

From Stdlib Require Import ZArith QArith Qround Qabs Qpower Lqa List String Ascii Bool Lia Floats.
Import ListNotations.

Local Open Scope Z_scope.

(** ** Module-level configuration of [main.py] *)

Definition max_history : Z := 24.
Definition update_frequency : Z := 1800.
Definition dfz_threshold : Z := 1.
Definition bgp_prefix_threshold : Z := 85.
Definition dns_root_fail_threshold : Z := 20.
Definition atlas_probe_threshold : Z := 10.
Definition total_roa_threshold : Z := 90.

(** ** Python results: a value or a raised exception *)

Inductive exn : Type :=
| ZeroDivisionError
| IndexError
| OverflowError.

Inductive result (A : Type) : Type :=
| Ok (a : A)
| Raise (e : exn).

Arguments Ok {A} a.
Arguments Raise {A} e.

Definition bind {A B : Type} (r : result A) (k : A -> result B) : result B :=
  match r with
  | Ok a => k a
  | Raise e => Raise e
  end.

Notation "x <- r ;; k" := (bind r (fun x => k))
  (at level 61, r at next level, right associativity).

(** [try: body except ZeroDivisionError: handler] *)
Definition try_zero_division {A : Type} (body : result A) (handler : A) : result A :=
  match body with
  | Raise ZeroDivisionError => Ok handler
  | other => other
  end.

(** ** Python built-ins used by the detectors *)

Module Py.

Definition len {A : Type} (l : list A) : Z := Z.of_nat (List.length l).

Definition sum (l : list Z) : Z := fold_right Z.add 0 l.

(** [l[0]] *)
Definition item0 {A : Type} (l : list A) : result A :=
  match l with
  | [] => Raise IndexError
  | x :: _ => Ok x
  end.

(** [l.insert(0, v)] *)
Definition insert0 {A : Type} (v : A) (l : list A) : list A := v :: l.

(** [l.pop()] on a list that holds at least one element drops the last one. *)
Definition pop {A : Type} (l : list A) : list A := removelast l.

(** [a / b] on two ints. *)
Definition truediv (a b : Z) : result Q :=
  if b =? 0 then Raise ZeroDivisionError
  else Ok (inject_Z a / inject_Z b)%Q.

(** [a / x] with a float divisor. *)
Definition truediv_float (a : Z) (x : Q) : result Q :=
  if Qeq_bool x 0 then Raise ZeroDivisionError
  else Ok (inject_Z a / x)%Q.

Definition ltb (x y : Q) : bool := negb (Qle_bool y x).
Definition gtb (x y : Q) : bool := ltb y x.

(** [int(x)]: truncation towards zero. *)
Definition int (x : Q) : Z := Z.quot (Qnum x) (Zpos (Qden x)).

(** [math.floor] and [math.ceil]. *)
Definition floor (x : Q) : Z := Qfloor x.
Definition ceil (x : Q) : Z := Qceiling x.

(** The integer nearest to [x], ties to the even one. *)
Definition round_half_even (x : Q) : Z :=
  let n := 2 * Qnum x + Zpos (Qden x) in
  let d := 2 * Zpos (Qden x) in
  let fl := n / d in
  if (n mod d =? 0) && Z.odd fl then fl - 1 else fl.

(** [round(x, 0)]: a float holding the nearest integer. *)
Definition round0 (x : Q) : Q := inject_Z (round_half_even x).

(** [round(x, 1)]: the nearest multiple of one tenth, ties to even. *)
Definition round1 (x : Q) : Q := (inject_Z (round_half_even (x * 10)) / 10)%Q.

(** [s.find(sub)]: lowest index of [sub] in [s], or -1. *)
Definition find (s sub : string) : Z :=
  match String.index 0 sub s with
  | Some n => Z.of_nat n
  | None => -1
  end.

End Py.

(** ** Python floats as binary64 rounds them

    A finite float is the rational it holds; the sign of a zero is not
    kept (it shows in the formatted text only). *)

Module Double.

Definition pow2 (e : Z) : Q := (2 ^ e)%Q.

(** [floor (log2 q)] of a positive [q]. *)
Definition exponent (q : Q) : Z :=
  let k := Z.log2 (Qnum q) - Z.log2 (Zpos (Qden q)) in
  if Qle_bool (pow2 k) q then k else k - 1.

(** The float nearest to a positive [q], ties to even: 53 bits above the
    last place, which is never below [2^-1074]. *)
Definition round_positive (q : Q) : Q :=
  let e := Z.max (exponent q - 52) (-1074) in
  (inject_Z (Py.round_half_even (q / pow2 e)) * pow2 e)%Q.

(** Rounding is symmetric in the sign; the result is in lowest terms. *)
Definition round (q : Q) : Q :=
  let q := Qred q in
  match Qnum q with
  | 0 => 0%Q
  | Zpos _ => Qred (round_positive q)
  | Zneg _ => Qred (- round_positive (- q))
  end.

(** A rounded magnitude from [2^1024] on is out of range. *)
Definition overflows (r : Q) : bool := Qle_bool (pow2 1024) (Qabs r).

Definition negative (q : Q) : bool := Qnum q <? 0.

Inductive t : Type :=
| Finite (q : Q)
| Infinity (negative : bool)
| NaN.

(** The float an exact result is delivered as. *)
Definition of_exact (q : Q) : t :=
  let r := round q in
  if overflows r then Infinity (negative r) else Finite r.

(** [x * y] on two floats. *)
Definition mul (x y : t) : t :=
  match x, y with
  | Finite a, Finite b => of_exact (a * b)
  | Finite a, Infinity s | Infinity s, Finite a =>
      if Qeq_bool a 0 then NaN else Infinity (xorb s (negative a))
  | Infinity s, Infinity s' => Infinity (xorb s s')
  | _, _ => NaN
  end.

(** [x - y] on two floats. *)
Definition sub (x y : t) : t :=
  match x, y with
  | Finite a, Finite b => of_exact (a - b)
  | Finite _, Infinity s => Infinity (negb s)
  | Infinity s, Finite _ => Infinity s
  | Infinity s, Infinity s' => if Bool.eqb s s' then NaN else Infinity s
  | _, _ => NaN
  end.

(** [x > n] for a float and an int: Python compares the two exactly. *)
Definition gt_int (x : t) (n : Z) : bool :=
  match x with
  | Finite a => Py.gtb a (inject_Z n)
  | Infinity s => negb s
  | NaN => false
  end.

(** [a / b] on two ints: the correctly rounded quotient. *)
Definition truediv (a b : Z) : result Q :=
  if b =? 0 then Raise ZeroDivisionError
  else
    let r := round (inject_Z a / inject_Z b) in
    if overflows r then Raise OverflowError else Ok r.

End Double.

(** ** Python dicts: insertion-ordered association lists *)

Class Hashable (K : Type) : Type := {
  key_eqb : K -> K -> bool;
  key_eqb_spec : forall a b : K, reflect (a = b) (key_eqb a b)
}.

#[export] Instance Hashable_string : Hashable string :=
  {| key_eqb := String.eqb; key_eqb_spec := String.eqb_spec |}.

#[export] Instance Hashable_Z : Hashable Z :=
  {| key_eqb := Z.eqb; key_eqb_spec := Z.eqb_spec |}.

Section Dict.
Context {K V : Type} `{Hashable K}.

Definition dict : Type := list (K * V).

Definition keys (d : dict) : list K := map fst d.

(** [d.get(k)] *)
Fixpoint get (k : K) (d : dict) : option V :=
  match d with
  | [] => None
  | (k', v) :: rest => if key_eqb k k' then Some v else get k rest
  end.

(** [k in d] *)
Definition contains (k : K) (d : dict) : bool :=
  match get k d with
  | Some _ => true
  | None => false
  end.

(** [d[k] = v]: an existing key keeps its position, a new key goes last. *)
Fixpoint set (k : K) (v : V) (d : dict) : dict :=
  match d with
  | [] => [(k, v)]
  | (k', v') :: rest =>
      if key_eqb k k' then (k', v) :: rest else (k', v') :: set k v rest
  end.

End Dict.

Arguments dict K V : clear implicits.

(** ** Histories and reasons *)

(** One line of the BGP table, after JSON decoding. *)
Record row : Type := { ASN : Z; CIDR : string }.

(** A history maps a key to its window of samples, newest first. *)
Definition history (K : Type) : Type := dict K (list Z).

(** [num_dfz_routes_history]: the dict with the two fixed keys ['v6'] and ['v4']. *)
Record dfz_history : Type := { v6 : list Z; v4 : list Z }.

(** A reason is the f-string of the detector that emits it; each constructor
    stands for one message template and carries the interpolated values. *)
Inductive reason : Type :=
| OriginsAbove (pfx : string) (latest floor_avg : Z)
| OriginsBelow (pfx : string) (latest floor_avg : Z)
| PrefixesFewer (asn : Z) (latest percentage ceil_avg : Z)
| RoaDecreased (repo : string) (percentage : Double.t) (avg latest : Z)
| RoaInvalid (latest : Z) (repo : string) (floor_avg : Z)
| DfzV6Increased (v6_pc : Q) (int_avg latest : Z)
| DfzV6Decreased (v6_pc : Q) (int_avg latest : Z)
| DfzV4Increased (v4_pc_minus_100 : Q) (int_avg latest : Z)
| DfzV4Decreased (v4_pc : Q) (int_avg latest : Z)
| DnsRootFailed (percent_failed : Q) (dns_root : string) (over_v6 : bool)
| AtlasDisconnected (avg : Q).

(** [for k, v in d.items(): ...] where the body appends to [fucked_reasons];
    the first exception raised by a body ends the loop. *)
Fixpoint for_items {K V : Type} (body : K -> V -> result (list reason))
    (d : dict K V) : result (list reason) :=
  match d with
  | [] => Ok []
  | (k, v) :: rest =>
      here <- body k v ;;
      later <- for_items body rest ;;
      Ok (here ++ later)
  end.

(** ** [fetch_bgp_table]: grouping of the decoded rows by ASN and by prefix *)

Definition group_append {K : Type} `{Hashable K} (k : K) (x : row)
    (table : dict K (list row)) : dict K (list row) :=
  match get k table with
  | Some rows => set k (rows ++ [x]) table
  | None => set k [x] table
  end.

Definition fetch_bgp_table (table_list : list row)
    : dict Z (list row) * dict string (list row) :=
  fold_left
    (fun tables x =>
       (group_append (ASN x) x (fst tables), group_append (CIDR x) x (snd tables)))
    table_list ([], []).

(** ** Recording a sample *)

(** The update written out in [check_bgp_origins] and [check_bgp_prefixes]:
    the guard looks at the length of the key's own window. *)
Definition record_sample {K : Type} `{Hashable K} (k : K) (sample : Z)
    (h : history K) : history K :=
  match get k h with
  | Some window =>
      let window := Py.insert0 sample window in
      if Py.len window >? max_history
      then set k (Py.pop window) h
      else set k window h
  | None => set k [sample] h
  end.

(** The update written out in [check_rpki_totals] and [check_rpki_invalids]:
    the guard is [len(history) > max_history], the number of keys of the dict. *)
Definition record_rpki_sample {K : Type} `{Hashable K} (k : K) (sample : Z)
    (h : history K) : history K :=
  match get k h with
  | Some window =>
      let window := Py.insert0 sample window in
      if Py.len h >? max_history
      then set k (Py.pop window) h
      else set k window h
  | None => set k [sample] h
  end.

(** What a recording stores for the key: the sample, ahead of older ones. *)
Definition stored (guard : bool) (sample : Z) (old : option (list Z)) : list Z :=
  match old with
  | Some window =>
      if guard then Py.pop (Py.insert0 sample window) else Py.insert0 sample window
  | None => [sample]
  end.

(** The first loop of a detector: every entry of the input mapping is
    recorded, in the order of the mapping. *)
Definition recording {K V : Type} (update : K -> Z -> history K -> history K)
    (value : V -> Z) (input : dict K V) (h : history K) : history K :=
  fold_left (fun h entry => update (fst entry) (value (snd entry)) h) input h.

(** ** [check_bgp_origins] *)

Definition origins_reasons (pfx : string) (origins : list Z) : result (list reason) :=
  avg <- Py.truediv (Py.sum origins) (Py.len origins) ;;
  latest <- Py.item0 origins ;;
  Ok ((if Py.gtb (inject_Z latest) avg && Py.ltb avg 2
       then [OriginsAbove pfx latest (Py.floor avg)] else [])
      ++
      (if (latest <? 2) && Py.gtb avg 5
       then [OriginsBelow pfx latest (Py.floor avg)] else [])).

Definition check_bgp_origins (table_pfx_key : dict string (list row))
    (num_origins_history : history string)
    : result (history string * list reason) :=
  let num_origins_history :=
    recording record_sample Py.len table_pfx_key num_origins_history in
  fucked_reasons <- for_items origins_reasons num_origins_history ;;
  Ok (num_origins_history, fucked_reasons).

(** ** [check_bgp_prefixes] *)

Definition prefixes_reasons (asn : Z) (prefixes : list Z) : result (list reason) :=
  avg <- Py.truediv (Py.sum prefixes) (Py.len prefixes) ;;
  latest <- Py.item0 prefixes ;;
  ratio <- Py.truediv_float latest avg ;;
  let percentage := 100 - Py.int (Py.round0 (ratio * 100)) in
  Ok (if percentage >? bgp_prefix_threshold
      then [PrefixesFewer asn latest percentage (Py.ceil avg)] else []).

Definition check_bgp_prefixes (table_asn_key : dict Z (list row))
    (num_prefixes_history : history Z)
    : result (history Z * list reason) :=
  let num_prefixes_history :=
    recording record_sample Py.len table_asn_key num_prefixes_history in
  fucked_reasons <- for_items prefixes_reasons num_prefixes_history ;;
  Ok (num_prefixes_history, fucked_reasons).

(** ** [check_rpki_totals] *)

Definition totals_reasons (repo : string) (totals : list Z) : result (list reason) :=
  mean <- Double.truediv (Py.sum totals) (Py.len totals) ;;
  let avg := Py.int mean in
  latest <- Py.item0 totals ;;
  percentage <-
    try_zero_division
      (ratio <- Double.truediv latest avg ;;
       Ok (Double.mul (Double.Finite ratio) (Double.Finite 100)))
      (Double.Finite 100) ;;
  Ok (if Double.gt_int (Double.sub (Double.Finite 100) percentage) total_roa_threshold
      then [RoaDecreased repo percentage avg latest] else []).

Definition check_rpki_totals (total_roa : dict string Z)
    (rpki_total_roa_history : history string)
    : result (history string * list reason) :=
  let rpki_total_roa_history :=
    recording record_rpki_sample (fun count => count) total_roa rpki_total_roa_history in
  fucked_reasons <- for_items totals_reasons rpki_total_roa_history ;;
  Ok (rpki_total_roa_history, fucked_reasons).

(** ** [check_rpki_invalids] *)

Definition invalids_reasons (repo : string) (invalids : list Z) : result (list reason) :=
  avg <- Double.truediv (Py.sum invalids) (Py.len invalids) ;;
  latest <- Py.item0 invalids ;;
  Ok (if Py.gtb (inject_Z latest) avg
      then [RoaInvalid latest repo (Py.floor avg)] else []).

Definition check_rpki_invalids (invalid_roa : dict string Z)
    (rpki_invalids_history : history string)
    : result (history string * list reason) :=
  let rpki_invalids_history :=
    recording record_rpki_sample (fun count => count) invalid_roa rpki_invalids_history in
  fucked_reasons <- for_items invalids_reasons rpki_invalids_history ;;
  Ok (rpki_invalids_history, fucked_reasons).

(** ** [check_dfz] *)

(** The test of the counting loop: [pfx.find('::/') > 0]. *)
Definition counted_as_v6 (pfx : string) : bool := Py.find pfx "::/" >? 0.

(** The loop over the prefixes: the pair [(v6_dfz_count, v4_dfz_count)]. *)
Definition dfz_count (table_pfx_key : dict string (list row)) : Z * Z :=
  fold_left
    (fun counts entry =>
       if counted_as_v6 (fst entry)
       then (fst counts + 1, snd counts)
       else (fst counts, snd counts + 1))
    table_pfx_key (0, 0).

Definition dfz_record (count : Z) (window : list Z) : list Z :=
  let window := Py.insert0 count window in
  if Py.len window >? max_history then Py.pop window else window.

Definition check_dfz (table_pfx_key : dict string (list row))
    (num_dfz_routes_history : dfz_history)
    : result (dfz_history * list reason) :=
  let counts := dfz_count table_pfx_key in
  let h6 := dfz_record (fst counts) (v6 num_dfz_routes_history) in
  let h4 := dfz_record (snd counts) (v4 num_dfz_routes_history) in
  avg_v6 <- Py.truediv (Py.sum h6) (Py.len h6) ;;
  latest_v6 <- Py.item0 h6 ;;
  ratio_v6 <- Py.truediv_float latest_v6 avg_v6 ;;
  let v6_pc := Py.round1 (ratio_v6 * 100) in
  let reasons_v6 :=
    if Py.gtb (v6_pc - 100) (inject_Z dfz_threshold)
    then [DfzV6Increased v6_pc (Py.int avg_v6) latest_v6]
    else if Py.gtb (100 - v6_pc) (inject_Z dfz_threshold)
    then [DfzV6Decreased v6_pc (Py.int avg_v6) latest_v6]
    else [] in
  avg_v4 <- Py.truediv (Py.sum h4) (Py.len h4) ;;
  latest_v4 <- Py.item0 h4 ;;
  ratio_v4 <- Py.truediv_float latest_v4 avg_v4 ;;
  let v4_pc := Py.round1 (ratio_v4 * 100) in
  let reasons_v4 :=
    if Py.gtb (v4_pc - 100) (inject_Z dfz_threshold)
    then [DfzV4Increased (v4_pc - 100) (Py.int avg_v4) latest_v4]
    else if Py.gtb (100 - v4_pc) (inject_Z dfz_threshold)
    then [DfzV4Decreased v4_pc (Py.int avg_v4) latest_v4]
    else [] in
  Ok ({| v6 := h6; v4 := h4 |}, reasons_v6 ++ reasons_v4).

(** ** [check_ripe_atlas_status] *)

Record probes : Type := { connected : list Z; disconnected : list Z }.

Definition check_ripe_atlas_status (probe_status : probes) : result (list reason) :=
  let total := Py.len (connected probe_status ++ disconnected probe_status) in
  let disconnected := Py.len (disconnected probe_status) in
  avg <-
    try_zero_division (ratio <- Py.truediv disconnected total ;; Ok (ratio * 100)%Q) 0%Q ;;
  Ok (if Py.gtb avg (inject_Z atlas_probe_threshold)
      then [AtlasDisconnected avg] else []).

(** ** The scoring part of [main] *)

Module Metric.
Inductive t : Type :=
| origins | prefixes | dns_root | atlas_connected | invalid_roa | total_roa | dfz.
End Metric.

(** The keys of the [fucked_reasons] dict, in the order of its literal. *)
Definition metrics : list Metric.t :=
  [ Metric.origins; Metric.prefixes; Metric.dns_root; Metric.atlas_connected;
    Metric.invalid_roa; Metric.total_roa; Metric.dfz ].

Definition weighting (metric : Metric.t) : Q :=
  match metric with
  | Metric.origins => 0.1
  | Metric.prefixes => 0.2
  | Metric.dns_root => 10
  | Metric.atlas_connected => 1
  | Metric.invalid_roa => 1
  | Metric.total_roa => 5
  | Metric.dfz => 1
  end%Q.

Definition weighted_reasons (fucked_reasons : Metric.t -> list reason) : Q :=
  fold_left
    (fun weighted metric =>
       weighted + inject_Z (Py.len (fucked_reasons metric)) * weighting metric)%Q
    metrics 0%Q.

Definition unweighted_reasons (fucked_reasons : Metric.t -> list reason) : Z :=
  Py.sum (map (fun metric => Py.len (fucked_reasons metric)) metrics).

(** The if/elif ladder; [above t] is the test [weighted_reasons > t]. *)
Definition status_ladder (above : Z -> bool) : string :=
  if above 200 then "The Internet is totally, utterly, and completely fucked"
  else if above 100 then "The Internet is completely fucked"
  else if above 60 then "The Internet is utterly fucked"
  else if above 50 then "The Internet is totally fucked"
  else if above 40 then "The Internet is really fucked"
  else if above 30 then "The Internet is rather fucked"
  else if above 20 then "The Internet is quite fucked"
  else if above 15 then "The Internet is pretty fucked"
  else if above 10 then "The Internet is somewhat fucked"
  else if above 5 then "The Internet is partially fucked"
  else if above 0 then "The Internet is just a bit fucked"
  else "The Internet is fucked no more than usual".

Definition status (weighted : Q) : string :=
  status_ladder (fun t => Py.gtb weighted (inject_Z t)).

(** The twelve labels from the baseline up, and the position of a label. *)
Definition ladder : list string :=
  [ "The Internet is fucked no more than usual";
    "The Internet is just a bit fucked";
    "The Internet is partially fucked";
    "The Internet is somewhat fucked";
    "The Internet is pretty fucked";
    "The Internet is quite fucked";
    "The Internet is rather fucked";
    "The Internet is really fucked";
    "The Internet is totally fucked";
    "The Internet is utterly fucked";
    "The Internet is completely fucked";
    "The Internet is totally, utterly, and completely fucked" ]%string.

Fixpoint position (label : string) (labels : list string) : nat :=
  match labels with
  | [] => O
  | l :: rest => if String.eqb label l then O else S (position label rest)
  end.

Definition tier (label : string) : nat := position label ladder.

(** ** The weighting loop in binary64 arithmetic *)

Module Binary64.

(** The weights as the doubles Python reads from the literals
    ([0x1.999999999999ap-4] is [0.1], [0x1.999999999999ap-3] is [0.2]). *)
Definition weighting (metric : Metric.t) : float :=
  match metric with
  | Metric.origins => 0x1.999999999999ap-4
  | Metric.prefixes => 0x1.999999999999ap-3
  | Metric.dns_root => 10
  | Metric.atlas_connected => 1
  | Metric.invalid_roa => 1
  | Metric.total_roa => 5
  | Metric.dfz => 1
  end%float.

(** An int as a float; exact for the lengths and thresholds used here
    (non-negative and below 2^53). *)
Definition of_int (z : Z) : float := PrimFloat.of_uint63 (Uint63.of_Z z).

Definition weighted_reasons (fucked_reasons : Metric.t -> list reason) : float :=
  fold_left
    (fun weighted metric =>
       weighted + of_int (Py.len (fucked_reasons metric)) * weighting metric)%float
    metrics 0%float.

Definition status (weighted : float) : string :=
  status_ladder (fun t => PrimFloat.ltb (of_int t) weighted).

End Binary64.

(** ** The loop of [main], for one detector *)

(** [main] calls a detector once per cycle and hands the history it returns
    to the next cycle; an exception leaves the loop. *)
Fixpoint cycles {I H : Type} (check : I -> H -> result (H * list reason))
    (inputs : list I) (h : H) : result H :=
  match inputs with
  | [] => Ok h
  | input :: later =>
      out <- check input h ;;
      cycles check later (fst out)
  end.

(** ** Vocabulary of the statements *)

(** The arithmetic mean of a window. *)
Definition mean (window : list Z) : Q :=
  (inject_Z (Py.sum window) / inject_Z (Py.len window))%Q.

(** Every tracked key has a window of at least one sample. *)
Definition windows_nonempty {K : Type} (h : history K) : Prop :=
  Forall (fun entry => snd entry <> []) h.

(** Every tracked key has a non-empty window of samples that are at least 1. *)
Definition windows_positive {K : Type} (h : history K) : Prop :=
  Forall (fun entry => snd entry <> [] /\ Forall (fun x => 1 <= x) (snd entry)) h.

(** The mean of a window as the float that [sum(window) / len(window)] is. *)
Definition rounded_mean (window : list Z) : Q :=
  Double.round (inject_Z (Py.sum window) / inject_Z (Py.len window)).

(** The truncated average and the percentage of [check_rpki_totals]. *)
Definition totals_avg (totals : list Z) : Z := Py.int (rounded_mean totals).

Definition totals_percentage (totals : list Z) : Double.t :=
  if totals_avg totals =? 0 then Double.Finite 100
  else Double.mul
         (Double.Finite
            (Double.round (inject_Z (hd 0%Z totals) / inject_Z (totals_avg totals))))
         (Double.Finite 100).

(** The test of [check_rpki_totals]: [(100 - percentage) > total_roa_threshold]. *)
Definition totals_dropped (totals : list Z) : bool :=
  Double.gt_int (Double.sub (Double.Finite 100) (totals_percentage totals))
    total_roa_threshold.

(** A magnitude up to which the quotients of the RPKI detectors stay in the
    range of a float. *)
Definition huge : Z := 2 ^ 1023.

(** No sample, or count, is beyond [bound] in magnitude. *)
Definition samples_within {K : Type} (bound : Z) (h : history K) : Prop :=
  Forall (fun entry => Forall (fun x => Z.abs x <= bound) (snd entry)) h.

Definition counts_within {K : Type} (bound : Z) (input : dict K Z) : Prop :=
  Forall (fun entry => Z.abs (snd entry) <= bound) input.

(** A window of non-negative samples of moderate size: its sum is at most
    [2^40] and it holds at most [2^12] samples. *)
Definition moderate (window : list Z) : Prop :=
  Forall (fun x => 0 <= x) window /\ Py.sum window <= 2 ^ 40 /\ Py.len window <= 2 ^ 12.

(** [y] is a float: a significand of at most 53 bits at a last place of
    [2^-1074] or above. *)
Definition representable (y : Q) : Prop :=
  exists m e : Z,
    Z.abs m <= 2 ^ 53 /\ -1074 <= e /\ (y == inject_Z m * Double.pow2 e)%Q.

(** The exponent of the last place of the float nearest to [q]. *)
Definition last_place (q : Q) : Z := Z.max (Double.exponent q - 52) (-1074).

(** Every count of the input mapping is at least 1. *)
Definition counts_positive (table_asn_key : dict Z (list row)) : Prop :=
  Forall (fun entry => 1 <= Py.len (snd entry)) table_asn_key.

(** ** Scenario data *)

Definition single_origin : list row :=
  [ {| ASN := 64500; CIDR := "192.0.2.0/24" |} ].

Definition three_origins : list row :=
  [ {| ASN := 64500; CIDR := "192.0.2.0/24" |};
    {| ASN := 64501; CIDR := "192.0.2.0/24" |};
    {| ASN := 64502; CIDR := "192.0.2.0/24" |} ].

(** The origin history after two cycles with one origin and one with three. *)
Definition stale_origins : history string := [ ("192.0.2.0/24"%string, [3; 1; 1]) ].

Definition steady_prefixes : history Z := [ (64500, [2; 2]) ].

Definition roa_outage_input : dict string Z := [ ("ripe"%string, 50) ].

Definition roa_outage_history : history string :=
  [ ("ripe"%string, [1000; 1000; 1000]) ].

(** Three reasons under [origins], one under [dns_root]. *)
Definition scenario_reasons (metric : Metric.t) : list reason :=
  match metric with
  | Metric.origins =>
      [ OriginsAbove "192.0.2.0/24" 3 1;
        OriginsAbove "198.51.100.0/24" 2 1;
        OriginsAbove "203.0.113.0/24" 2 1 ]
  | Metric.dns_root => [ DnsRootFailed 25 "a.root-servers.net" true ]
  | _ => []
  end.

Definition no_reasons (metric : Metric.t) : list reason := [].

Definition one_dns_reason (metric : Metric.t) : list reason :=
  match metric with
  | Metric.dns_root => [ DnsRootFailed 25 "a.root-servers.net" true ]
  | _ => []
  end.

(** Twenty-five cycles, the repository publishing [1], [2], ... [25] ROAs. *)
Definition rpki_cycles : list (dict string Z) :=
  map (fun n => [ ("ripe"%string, Z.of_nat n) ]) (seq 1 25).

(** ** [fetch_ripe_atlas_status], after the request *)

(** One entry of the reply to measurement 7000; [probe.get('event')] is
    [None] for an entry without the key. *)
Record probe_event : Type := { prb_id : Z; event : option string }.

Definition event_is (name : string) (probe : probe_event) : bool :=
  match event probe with
  | Some e => String.eqb e name
  | None => false
  end.

(** [response] is [None] when the request or its decoding raised. *)
Definition fetch_ripe_atlas_status (response : option (list probe_event)) : probes :=
  match response with
  | None => {| connected := []; disconnected := [] |}
  | Some results =>
      fold_left
        (fun probe_status probe =>
           let probe_status :=
             if event_is "disconnect" probe
             then {| connected := connected probe_status;
                     disconnected := disconnected probe_status ++ [prb_id probe] |}
             else probe_status in
           if event_is "connect" probe
           then {| connected := connected probe_status ++ [prb_id probe];
                   disconnected := disconnected probe_status |}
           else probe_status)
        results {| connected := []; disconnected := [] |}
  end.

(** ** [fetch_root_dns], after the requests *)

(** One entry of the reply to a root-server measurement; [dns_error] is
    [probe.get('error')]. *)
Record dns_reply : Type := { dns_prb_id : Z; dns_error : option string }.

(** The value stored per root server: [{'total': ..., 'failed': [...]}]. *)
Record root_status : Type := { total : Z; failed : list Z }.

(** The measurement ids of the DNS-over-UDP checks, as the script lists them. *)
Definition v4_roots : list (Z * string) :=
  [ (10009, "a.root-servers.net"); (10010, "b.root-servers.net");
    (10011, "c.root-servers.net"); (10012, "d.root-servers.net");
    (10013, "e.root-servers.net"); (10004, "f.root-servers.net");
    (10014, "g.root-servers.net"); (10015, "h.root-servers.net");
    (10005, "i.root-servers.net"); (10016, "j.root-servers.net");
    (10001, "k.root-servers.net"); (10008, "l.root-servers.net");
    (10009, "m.root-servers.net") ]%string.

Definition v6_roots : list (Z * string) :=
  [ (10509, "a.root-servers.net"); (10510, "b.root-servers.net");
    (10511, "c.root-servers.net"); (10512, "d.root-servers.net");
    (10513, "e.root-servers.net"); (10504, "f.root-servers.net");
    (10514, "g.root-servers.net"); (10515, "h.root-servers.net");
    (10505, "i.root-servers.net"); (10516, "j.root-servers.net");
    (10501, "k.root-servers.net"); (10508, "l.root-servers.net");
    (10506, "m.root-servers.net") ]%string.

Definition is_failed (probe : dns_reply) : bool :=
  match dns_error probe with
  | Some _ => true
  | None => false
  end.

(** One loop of [fetch_root_dns]; [latest id] is the decoded reply to the
    request for measurement [id], or [None] when the request raised, in
    which case the server gets no entry. *)
Definition roots_failed (roots : list (Z * string))
    (latest : Z -> option (list dns_reply)) : dict string root_status :=
  fold_left
    (fun failures measurement =>
       match latest (fst measurement) with
       | Some results =>
           set (snd measurement)
             {| total := Py.len results;
                failed := map dns_prb_id (filter is_failed results) |}
             failures
       | None => failures
       end)
    roots [].

Definition fetch_root_dns (latest : Z -> option (list dns_reply))
    : dict string root_status * dict string root_status :=
  (roots_failed v6_roots latest, roots_failed v4_roots latest).

(** ** [fetch_rpki_roa], after the request *)

(** The two counters the script reads of a repository of the status reply. *)
Record repository : Type := { validROAs : Z; invalidROAs : Z }.

Definition fetch_rpki_roa (repositories : dict string repository)
    : dict string Z * dict string Z :=
  fold_left
    (fun roas entry =>
       let invalid := invalidROAs (snd entry) in
       let valid_roa := validROAs (snd entry) in
       (set (fst entry) invalid (fst roas),
        set (fst entry) (valid_roa + invalid) (snd roas)))
    repositories ([], []).

(** ** [check_dns_roots] *)

Definition dns_root_reasons (over_v6 : bool) (dns_root : string)
    (status : root_status) : result (list reason) :=
  ratio <- Py.truediv (Py.len (failed status)) (total status) ;;
  let percent_failed := Py.round1 (ratio * 100) in
  Ok (if Py.gtb percent_failed (inject_Z dns_root_fail_threshold)
      then [DnsRootFailed percent_failed dns_root over_v6] else []).

Definition check_dns_roots (v6_roots_failed v4_roots_failed : dict string root_status)
    : result (list reason) :=
  over_v6 <- for_items (dns_root_reasons true) v6_roots_failed ;;
  over_v4 <- for_items (dns_root_reasons false) v4_roots_failed ;;
  Ok (over_v6 ++ over_v4).

(** ** One iteration of the loop of [main] *)

(** What the collaborators hand to one iteration: the decoded BGP table, the
    repositories of the RPKI status, the replies to the root-server
    measurements and the reply to measurement 7000. *)
Record cycle_input : Type := {
  bgp_table : list row;
  rpki_repositories : dict string repository;
  dns_latest : Z -> option (list dns_reply);
  atlas_latest : option (list probe_event)
}.

(** The dict [results]; a key is [None] until it is assigned. *)
Record results_dict : Type := {
  results_bgp : option (history string * history Z);
  results_rpki : option (history string * history string);
  results_atlas : option (dict string root_status * dict string root_status);
  results_status : option string;
  results_metrics : option (Q * Z)
}.

Definition empty_results : results_dict :=
  {| results_bgp := None; results_rpki := None; results_atlas := None;
     results_status := None; results_metrics := None |}.

(** The local variables of [main] that live across iterations; [results] is
    [None] once [del results] has unbound the name. *)
Record locals : Type := {
  num_dfz_routes_history : dfz_history;
  num_origins_history : history string;
  num_prefixes_history : history Z;
  rpki_invalid_roa_history : history string;
  rpki_total_roa_history : history string;
  results : option results_dict
}.

(** The locals before the loop. *)
Definition initial_locals : locals :=
  {| num_dfz_routes_history := {| v6 := []; v4 := [] |};
     num_origins_history := []; num_prefixes_history := [];
     rpki_invalid_roa_history := []; rpki_total_roa_history := [];
     results := Some empty_results |}.

(** What an iteration writes: the status line, the reasons per metric and the
    dumped [results]. *)
Record written : Type := {
  written_status : string;
  written_reasons : Metric.t -> list reason;
  written_results : results_dict
}.

Inductive main_exn : Type :=
| Detector (e : exn)
| UnboundLocalError.

Inductive outcome (A : Type) : Type :=
| Done (a : A)
| Abort (e : main_exn).

Arguments Done {A} a.
Arguments Abort {A} e.

Definition and_then {A B : Type} (o : outcome A) (k : A -> outcome B) : outcome B :=
  match o with
  | Done a => k a
  | Abort e => Abort e
  end.

Definition call {A : Type} (r : result A) : outcome A :=
  match r with
  | Ok a => Done a
  | Raise e => Abort (Detector e)
  end.

(** [results[key] = value]: reading the unbound name raises. *)
Definition setitem (results : option results_dict)
    (assign : results_dict -> results_dict) : outcome (option results_dict) :=
  match results with
  | Some r => Done (Some (assign r))
  | None => Abort UnboundLocalError
  end.

Definition iteration (input : cycle_input) (l : locals) : outcome (locals * written) :=
  let tables := fetch_bgp_table (bgp_table input) in
  and_then (call (check_bgp_origins (snd tables) (num_origins_history l))) (fun o =>
  and_then (call (check_bgp_prefixes (fst tables) (num_prefixes_history l))) (fun p =>
  and_then (call (check_dfz (snd tables) (num_dfz_routes_history l))) (fun d =>
  and_then (setitem (results l)
              (fun r => {| results_bgp := Some (fst o, fst p);
                           results_rpki := results_rpki r;
                           results_atlas := results_atlas r;
                           results_status := results_status r;
                           results_metrics := results_metrics r |})) (fun results =>
  let roas := fetch_rpki_roa (rpki_repositories input) in
  and_then (call (check_rpki_invalids (fst roas) (rpki_invalid_roa_history l))) (fun i =>
  and_then (call (check_rpki_totals (snd roas) (rpki_total_roa_history l))) (fun t =>
  and_then (setitem results
              (fun r => {| results_bgp := results_bgp r;
                           results_rpki := Some (fst i, fst t);
                           results_atlas := results_atlas r;
                           results_status := results_status r;
                           results_metrics := results_metrics r |})) (fun results =>
  let roots := fetch_root_dns (dns_latest input) in
  and_then (call (check_dns_roots (fst roots) (snd roots))) (fun dns =>
  let probe_status := fetch_ripe_atlas_status (atlas_latest input) in
  and_then (call (check_ripe_atlas_status probe_status)) (fun atlas =>
  and_then (setitem results
              (fun r => {| results_bgp := results_bgp r;
                           results_rpki := results_rpki r;
                           results_atlas := Some roots;
                           results_status := results_status r;
                           results_metrics := results_metrics r |})) (fun results =>
  let fucked_reasons :=
    fun metric =>
      match metric with
      | Metric.origins => snd o
      | Metric.prefixes => snd p
      | Metric.dns_root => dns
      | Metric.atlas_connected => atlas
      | Metric.invalid_roa => snd i
      | Metric.total_roa => snd t
      | Metric.dfz => snd d
      end in
  let weighted := weighted_reasons fucked_reasons in
  let unweighted := unweighted_reasons fucked_reasons in
  and_then (setitem results
              (fun r => {| results_bgp := results_bgp r;
                           results_rpki := results_rpki r;
                           results_atlas := results_atlas r;
                           results_status := Some (status weighted);
                           results_metrics := results_metrics r |})) (fun results =>
  and_then (setitem results
              (fun r => {| results_bgp := results_bgp r;
                           results_rpki := results_rpki r;
                           results_atlas := results_atlas r;
                           results_status := results_status r;
                           results_metrics := Some (weighted, unweighted) |})) (fun results =>
  match results with
  | None => Abort UnboundLocalError
  | Some dumped =>
      Done ({| num_dfz_routes_history := fst d; num_origins_history := fst o;
               num_prefixes_history := fst p;
               rpki_invalid_roa_history := fst i; rpki_total_roa_history := fst t;
               results := None |},
            {| written_status := status weighted;
               written_reasons := fucked_reasons;
               written_results := dumped |})
  end)))))))))))).

(** The loop: the locals go from one iteration to the next, and the first
    exception ends the program. *)
Fixpoint iterations (cycle_inputs : list cycle_input) (l : locals)
    : outcome (locals * list written) :=
  match cycle_inputs with
  | [] => Done (l, [])
  | input :: later =>
      and_then (iteration input l) (fun first =>
      and_then (iterations later (fst first)) (fun rest =>
      Done (fst rest, snd first :: snd rest)))
  end.

(** The program from given locals on: what its iterations write, in order,
    and the exception that ends it, if the inputs last that long. *)
Fixpoint run (cycle_inputs : list cycle_input) (l : locals)
    : list written * option main_exn :=
  match cycle_inputs with
  | [] => ([], None)
  | input :: later =>
      match iteration input l with
      | Done (l1, w) => let rest := run later l1 in (w :: fst rest, snd rest)
      | Abort e => ([], Some e)
      end
  end.

(** ** Vocabulary of the further statements *)

(** The grouping loop of [fetch_bgp_table] for one of its two dicts. *)
Definition grouped {K : Type} `{Hashable K} (key : row -> K) (table_list : list row)
    (table : dict K (list row)) : dict K (list row) :=
  fold_left (fun table x => group_append (key x) x table) table_list table.

(** Every window holds between 1 and [max_history] samples. *)
Definition windows_bounded {K : Type} (h : history K) : Prop :=
  Forall (fun entry => 1 <= Py.len (snd entry) <= max_history) h.

(** Every window holds exactly one sample. *)
Definition windows_single {K : Type} (h : history K) : Prop :=
  Forall (fun entry => exists v, snd entry = [v]) h.

(** Twenty-five repositories, named ["A"], ["B"], ..., each with 1 ROA. *)
Definition many_repositories : dict string Z :=
  map (fun n => (String (ascii_of_nat (65 + n)) EmptyString, 1)) (seq 0 25).

(** The reasons of one family, as [check_dfz] builds them from the rounded
    percentage. *)
Definition dfz_v6_reasons (window : list Z) : list reason :=
  let pc := Py.round1 (inject_Z (hd 0 window) / mean window * 100) in
  if Py.gtb (pc - 100) (inject_Z dfz_threshold)
  then [DfzV6Increased pc (Py.int (mean window)) (hd 0 window)]
  else if Py.gtb (100 - pc) (inject_Z dfz_threshold)
  then [DfzV6Decreased pc (Py.int (mean window)) (hd 0 window)]
  else [].

Definition dfz_v4_reasons (window : list Z) : list reason :=
  let pc := Py.round1 (inject_Z (hd 0 window) / mean window * 100) in
  if Py.gtb (pc - 100) (inject_Z dfz_threshold)
  then [DfzV4Increased (pc - 100) (Py.int (mean window)) (hd 0 window)]
  else if Py.gtb (100 - pc) (inject_Z dfz_threshold)
  then [DfzV4Decreased pc (Py.int (mean window)) (hd 0 window)]
  else [].

(** The latest sample of a window is at least, or at most, [tenths / 10]
    percent of the mean of the window (with a positive sum). *)
Definition percent_at_least (tenths : Z) (window : list Z) : Prop :=
  tenths * Py.sum window <= 1000 * hd 0 window * Py.len window.

Definition percent_at_most (tenths : Z) (window : list Z) : Prop :=
  1000 * hd 0 window * Py.len window <= tenths * Py.sum window.

(** One IPv6 and two IPv4 prefixes. *)
Definition small_table : dict string (list row) :=
  [ ("2001:db8::/32"%string, single_origin); ("192.0.2.0/24"%string, single_origin);
    ("198.51.100.0/24"%string, single_origin) ].

(** The rounded percentage of failed probes of one entry. *)
Definition percent_failed_of (st : root_status) : Q :=
  Py.round1 (inject_Z (Py.len (failed st)) / inject_Z (total st) * 100).

(** The entry built from the reply to one measurement. *)
Definition status_of (results : list dns_reply) : root_status :=
  {| total := Py.len results; failed := map dns_prb_id (filter is_failed results) |}.

Definition entries_of (latest : Z -> option (list dns_reply))
    (measurement : Z * string) : dict string root_status :=
  match latest (fst measurement) with
  | Some results => [(snd measurement, status_of results)]
  | None => []
  end.

(** The thresholds of the ladder, from the lowest. *)
Definition thresholds : list Z := [0; 5; 10; 15; 20; 30; 40; 50; 60; 100; 200].

(** The first iteration has a result when both families have a prefix and no
    root-server request returned an empty list. *)
Definition first_iteration_completes (input : cycle_input) : Prop :=
  0 < fst (dfz_count (snd (fetch_bgp_table (bgp_table input)))) /\
  0 < snd (dfz_count (snd (fetch_bgp_table (bgp_table input)))) /\
  forall id name, In (id, name) (v6_roots ++ v4_roots) -> dns_latest input id <> Some [].

(** Every count of a status reply, and every total the script adds up from
    it, is an int of at most [2^53] in magnitude: a float holds it exactly. *)
Definition rpki_counts_exact (repositories : dict string repository) : Prop :=
  Forall (fun entry =>
            Z.abs (invalidROAs (snd entry)) <= 2 ^ 53 /\
            Z.abs (validROAs (snd entry) + invalidROAs (snd entry)) <= 2 ^ 53)
    repositories.

(** A reply for every measurement: ten probes, three of them failed. *)
Definition sample_input : cycle_input :=
  {| bgp_table :=
       [ {| ASN := 64500; CIDR := "2001:db8::/32" |};
         {| ASN := 64500; CIDR := "192.0.2.0/24" |};
         {| ASN := 64501; CIDR := "192.0.2.0/24" |} ];
     rpki_repositories := [ ("ripe"%string, {| validROAs := 40; invalidROAs := 10 |}) ];
     dns_latest :=
       fun _ =>
         Some (repeat {| dns_prb_id := 1; dns_error := Some "timeout"%string |} 3
               ++ repeat {| dns_prb_id := 2; dns_error := None |} 7);
     atlas_latest :=
       Some [ {| prb_id := 1; event := Some "connect"%string |};
              {| prb_id := 2; event := Some "disconnect"%string |} ] |}.

(** The percentage [check_bgp_prefixes] compares with its threshold. *)
Definition prefixes_percentage (window : list Z) : Z :=
  100 - Py.int (Py.round0 (inject_Z (hd 0 window) / mean window * 100)).

(** * Properties *)

(** ** Comparisons and divisions *)

Lemma ltb_spec (x y : Q) : reflect (x < y)%Q (Py.ltb x y).
Proof.
  unfold Py.ltb. destruct (Qle_bool y x) eqn:E; simpl; constructor.
  - apply Qle_bool_iff in E. now apply Qle_not_lt.
  - apply Qnot_le_lt. intros C. apply Qle_bool_iff in C. congruence.
Qed.

Lemma gtb_spec (x y : Q) : reflect (y < x)%Q (Py.gtb x y).
Proof. unfold Py.gtb. apply ltb_spec. Qed.

Lemma len_nonneg {A : Type} (l : list A) : 0 <= Py.len l.
Proof. unfold Py.len. lia. Qed.

Lemma len_cons {A : Type} (x : A) (l : list A) : Py.len (x :: l) = Py.len l + 1.
Proof. unfold Py.len. cbn [List.length]. lia. Qed.

Lemma len_pos {A : Type} (l : list A) : l <> [] -> 0 < Py.len l.
Proof. destruct l; [congruence | rewrite len_cons; pose proof (len_nonneg l); lia]. Qed.

Lemma truediv_window (window : list Z) :
  window <> [] -> Py.truediv (Py.sum window) (Py.len window) = Ok (mean window).
Proof.
  intros Hne. unfold Py.truediv.
  destruct (Z.eqb_spec (Py.len window) 0) as [E | _]; [| reflexivity].
  pose proof (len_pos window Hne). lia.
Qed.

Lemma item0_window {A : Type} (x : A) (l : list A) : Py.item0 (x :: l) = Ok x.
Proof. reflexivity. Qed.

(** ** Dict lemmas *)

Section DictFacts.
Context {K V : Type} `{Hashable K}.

Lemma key_eqb_refl (k : K) : key_eqb k k = true.
Proof. destruct (key_eqb_spec k k); congruence. Qed.

Lemma key_eqb_neq (a b : K) : a <> b -> key_eqb a b = false.
Proof. destruct (key_eqb_spec a b); congruence. Qed.

Lemma get_In (k : K) (v : V) (d : dict K V) : get k d = Some v -> In (k, v) d.
Proof.
  induction d as [| [k' v'] d IH]; simpl; [discriminate |].
  destruct (key_eqb_spec k k') as [-> | _].
  - intros [= ->]. now left.
  - intros E. right. now apply IH.
Qed.

Lemma get_None (k : K) (d : dict K V) : get k d = None -> ~ In k (keys d).
Proof.
  induction d as [| [k' v'] d IH]; simpl; [tauto |].
  destruct (key_eqb_spec k k') as [-> | Hne]; [discriminate |].
  intros E [C | C]; [congruence | now apply IH].
Qed.

Lemma In_get (k : K) (v : V) (d : dict K V) :
  NoDup (keys d) -> In (k, v) d -> get k d = Some v.
Proof.
  induction d as [| [k' v'] d IH]; simpl; [tauto |].
  intros Hnd [E | Hin].
  - injection E as -> ->. now rewrite key_eqb_refl.
  - inversion Hnd as [| ? ? Hnotin Hnd']; subst.
    destruct (key_eqb_spec k k') as [-> | _].
    + exfalso. apply Hnotin. change k' with (fst (k', v)). now apply in_map.
    + now apply IH.
Qed.

Lemma get_set_same (k : K) (v : V) (d : dict K V) : get k (set k v d) = Some v.
Proof.
  induction d as [| [k' v'] d IH]; simpl.
  - now rewrite key_eqb_refl.
  - destruct (key_eqb_spec k k') as [-> | Hne]; simpl.
    + now rewrite key_eqb_refl.
    + now rewrite (key_eqb_neq _ _ Hne).
Qed.

Lemma get_set_other (k k0 : K) (v : V) (d : dict K V) :
  k0 <> k -> get k0 (set k v d) = get k0 d.
Proof.
  intros Hne. induction d as [| [k' v'] d IH]; simpl.
  - now rewrite (key_eqb_neq _ _ Hne).
  - destruct (key_eqb_spec k k') as [-> | Hne']; simpl.
    + now rewrite (key_eqb_neq _ _ Hne).
    + now rewrite IH.
Qed.

Lemma keys_set (k : K) (v : V) (d : dict K V) :
  keys (set k v d) = if contains k d then keys d else keys d ++ [k].
Proof.
  unfold contains. induction d as [| [k' v'] d IH]; simpl; [reflexivity |].
  destruct (key_eqb_spec k k') as [-> | Hne]; simpl; [reflexivity |].
  rewrite IH. now destruct (get k d).
Qed.

Lemma NoDup_keys_set (k : K) (v : V) (d : dict K V) :
  NoDup (keys d) -> NoDup (keys (set k v d)).
Proof.
  intros Hnd. rewrite keys_set. unfold contains.
  destruct (get k d) eqn:E; [assumption |].
  apply get_None in E.
  apply NoDup_app; [assumption | repeat constructor; simpl; tauto |].
  intros x Hx [<- | []]. contradiction.
Qed.

Lemma In_set (k k0 : K) (v v0 : V) (d : dict K V) :
  In (k0, v0) (set k v d) -> (k0 = k /\ v0 = v) \/ In (k0, v0) d.
Proof.
  induction d as [| [k' v'] d IH]; simpl.
  - intros [[= <- <-] | []]. now left.
  - destruct (key_eqb_spec k k') as [-> | Hne]; simpl.
    + intros [[= <- <-] | Hin]; [now left | right; now right].
    + intros [E | Hin]; [right; now left |].
      destruct (IH Hin) as [? | ?]; [now left | right; now right].
Qed.

Lemma len_set_grows (k : K) (v : V) (d : dict K V) : Py.len d <= Py.len (set k v d).
Proof.
  unfold Py.len. apply Nat2Z.inj_le.
  induction d as [| [k' v'] d IH]; simpl; [lia |].
  destruct (key_eqb k k'); simpl; lia.
Qed.

End DictFacts.

(** ** The detection loop *)

Section ForItems.
Context {K V : Type}.
Variable body : K -> V -> result (list reason).

Lemma for_items_Ok (d : dict K V) :
  (forall k v, In (k, v) d -> exists rs, body k v = Ok rs) ->
  exists rs, for_items body d = Ok rs.
Proof.
  induction d as [| [k v] d IH]; intros Hbody; simpl.
  - now exists [].
  - destruct (Hbody k v (or_introl eq_refl)) as [here ->].
    destruct IH as [later ->]; [intros; apply Hbody; now right |].
    simpl. now eexists.
Qed.

Lemma for_items_In (d : dict K V) (rs : list reason) (r : reason) :
  for_items body d = Ok rs ->
  (In r rs <-> exists k v here, In (k, v) d /\ body k v = Ok here /\ In r here).
Proof.
  revert rs. induction d as [| [k v] d IH]; intros rs; simpl.
  - intros [= <-]. split; [intros [] | intros (? & ? & ? & [] & _)].
  - destruct (body k v) as [here |] eqn:Ehere; simpl; [| discriminate].
    destruct (for_items body d) as [later |] eqn:Elater; simpl; [| discriminate].
    intros [= <-]. rewrite in_app_iff, (IH later eq_refl). split.
    + intros [Hin | (k' & v' & h' & Hd & Hb & Hin)].
      * exists k, v, here. auto.
      * exists k', v', h'. auto.
    + intros (k' & v' & h' & [E | Hd] & Hb & Hin).
      * injection E as <- <-. left. congruence.
      * right. exists k', v', h'. auto.
Qed.

End ForItems.

(** ** Recording *)

Lemma pop_insert0 (v x : Z) (w : list Z) :
  Py.pop (Py.insert0 v (x :: w)) = v :: removelast (x :: w).
Proof. reflexivity. Qed.

Lemma max_history_pos : 0 < max_history.
Proof. reflexivity. Qed.

Lemma stored_front (guard : bool) (sample : Z) (old : option (list Z)) :
  (guard = true -> old <> Some []) ->
  exists rest, stored guard sample old = sample :: rest /\
               forall x, In x rest -> exists w, old = Some w /\ In x w.
Proof.
  intros Hguard. unfold stored. destruct old as [[| x w] |].
  - destruct guard; [now destruct Hguard | exists []; simpl; tauto].
  - destruct guard.
    + rewrite pop_insert0. eexists; split; [reflexivity |].
      intros y Hy. exists (x :: w). split; [reflexivity |].
      destruct (exists_last (l := x :: w)) as (l' & a & E); [discriminate |].
      rewrite E in *. rewrite removelast_last in Hy. apply in_or_app. now left.
    + eexists; split; [reflexivity |]. intros y Hy. now exists (x :: w).
  - exists []. simpl. tauto.
Qed.

Section Recording.
Context {K : Type} `{Hashable K}.

Lemma record_sample_set (k : K) (v : Z) (h : history K) :
  record_sample k v h =
  set k (stored (match get k h with
                 | Some w => Py.len (Py.insert0 v w) >? max_history
                 | None => false
                 end) v (get k h)) h.
Proof.
  unfold record_sample, stored. destruct (get k h) as [w |]; [| reflexivity].
  now destruct (Py.len (Py.insert0 v w) >? max_history).
Qed.

Lemma record_rpki_sample_set (k : K) (v : Z) (h : history K) :
  record_rpki_sample k v h = set k (stored (Py.len h >? max_history) v (get k h)) h.
Proof.
  unfold record_rpki_sample, stored. destruct (get k h) as [w |].
  - now destruct (Py.len h >? max_history).
  - now destruct (Py.len h >? max_history).
Qed.

Lemma record_sample_front (k : K) (v : Z) (h : history K) :
  exists rest, get k (record_sample k v h) = Some (v :: rest) /\
               forall x, In x rest -> exists w, get k h = Some w /\ In x w.
Proof.
  rewrite record_sample_set, get_set_same.
  match goal with |- context [stored ?g v (get k h)] =>
    assert (Hguard : g = true -> get k h <> Some []);
    [| destruct (stored_front g v (get k h) Hguard) as (rest & -> & Hrest);
       now exists rest]
  end.
  destruct (get k h) as [[| x w] |]; [| discriminate | discriminate].
  intros C. vm_compute in C. discriminate.
Qed.

Lemma record_rpki_sample_front (k : K) (v : Z) (h : history K) :
  windows_nonempty h ->
  exists rest, get k (record_rpki_sample k v h) = Some (v :: rest) /\
               forall x, In x rest -> exists w, get k h = Some w /\ In x w.
Proof.
  intros Hne. rewrite record_rpki_sample_set, get_set_same.
  match goal with |- context [stored ?g v (get k h)] =>
    assert (Hguard : g = true -> get k h <> Some []);
    [| destruct (stored_front g v (get k h) Hguard) as (rest & -> & Hrest);
       now exists rest]
  end.
  intros _ E. apply get_In in E.
  unfold windows_nonempty in Hne. rewrite Forall_forall in Hne.
  now apply (Hne _ E).
Qed.

Lemma record_sample_other (k k0 : K) (v : Z) (h : history K) :
  k0 <> k -> get k0 (record_sample k v h) = get k0 h.
Proof. intros Hne. rewrite record_sample_set. now apply get_set_other. Qed.

Lemma record_rpki_sample_other (k k0 : K) (v : Z) (h : history K) :
  k0 <> k -> get k0 (record_rpki_sample k v h) = get k0 h.
Proof. intros Hne. rewrite record_rpki_sample_set. now apply get_set_other. Qed.

Lemma record_sample_NoDup (k : K) (v : Z) (h : history K) :
  NoDup (keys h) -> NoDup (keys (record_sample k v h)).
Proof. rewrite record_sample_set. apply NoDup_keys_set. Qed.

Lemma record_rpki_sample_NoDup (k : K) (v : Z) (h : history K) :
  NoDup (keys h) -> NoDup (keys (record_rpki_sample k v h)).
Proof. rewrite record_rpki_sample_set. apply NoDup_keys_set. Qed.

(** An entry of the history after a recording is the recorded key with its
    new window, or an entry that was there before. *)
Lemma record_sample_In (k k0 : K) (v : Z) (w0 : list Z) (h : history K) :
  In (k0, w0) (record_sample k v h) ->
  (k0 = k /\ get k (record_sample k v h) = Some w0) \/ In (k0, w0) h.
Proof.
  rewrite record_sample_set at 1. intros Hin.
  destruct (In_set _ _ _ _ _ Hin) as [[-> ->] | ?]; [left | now right].
  split; [reflexivity |]. now rewrite record_sample_set, get_set_same.
Qed.

Lemma record_rpki_sample_In (k k0 : K) (v : Z) (w0 : list Z) (h : history K) :
  In (k0, w0) (record_rpki_sample k v h) ->
  (k0 = k /\ get k (record_rpki_sample k v h) = Some w0) \/ In (k0, w0) h.
Proof.
  rewrite record_rpki_sample_set at 1. intros Hin.
  destruct (In_set _ _ _ _ _ Hin) as [[-> ->] | ?]; [left | now right].
  split; [reflexivity |]. now rewrite record_rpki_sample_set, get_set_same.
Qed.

Lemma record_sample_nonempty (k : K) (v : Z) (h : history K) :
  windows_nonempty h -> windows_nonempty (record_sample k v h).
Proof.
  unfold windows_nonempty. rewrite !Forall_forall. intros Hne [k0 w0] Hin.
  destruct (record_sample_In _ _ _ _ _ Hin) as [[_ E] | Hold]; [| now apply Hne].
  destruct (record_sample_front k v h) as (rest & E' & _).
  simpl. congruence.
Qed.

Lemma record_rpki_sample_nonempty (k : K) (v : Z) (h : history K) :
  windows_nonempty h -> windows_nonempty (record_rpki_sample k v h).
Proof.
  intros Hne. pose proof Hne as Hne'.
  unfold windows_nonempty in *. rewrite !Forall_forall in *. intros [k0 w0] Hin.
  destruct (record_rpki_sample_In _ _ _ _ _ Hin) as [[_ E] | Hold]; [| now apply Hne].
  destruct (record_rpki_sample_front k v h) as (rest & E' & _).
  - unfold windows_nonempty. now rewrite Forall_forall.
  - simpl. congruence.
Qed.

Lemma record_sample_positive (k : K) (v : Z) (h : history K) :
  1 <= v -> windows_positive h -> windows_positive (record_sample k v h).
Proof.
  unfold windows_positive. rewrite !Forall_forall. intros Hv Hpos [k0 w0] Hin.
  destruct (record_sample_In _ _ _ _ _ Hin) as [[_ E] | Hold]; [| now apply Hpos].
  destruct (record_sample_front k v h) as (rest & E' & Hrest).
  simpl. assert (w0 = v :: rest) as -> by congruence.
  split; [discriminate |]. constructor; [assumption |].
  rewrite Forall_forall. intros x Hx.
  destruct (Hrest x Hx) as (w & Hw & Hxw). apply get_In in Hw.
  destruct (Hpos _ Hw) as [_ Hall]. rewrite Forall_forall in Hall. now apply Hall.
Qed.

End Recording.

(** ** The recording loop of a detector

    The four detectors with a keyed history start with the same loop over
    their input mapping; only the update differs.  The facts about the loop
    are proved once, for any update that stores the sample at the front of
    the key's window and leaves the other keys alone. *)

Section RecordingLoop.
Context {K V : Type} `{Hashable K}.
Variable update : K -> Z -> history K -> history K.
Variable value : V -> Z.
Variable Inv : history K -> Prop.

Hypothesis update_Inv : forall k v h, Inv h -> Inv (update k v h).
Hypothesis update_front :
  forall k v h, Inv h -> exists rest, get k (update k v h) = Some (v :: rest).
Hypothesis update_other :
  forall k k0 v h, k0 <> k -> get k0 (update k v h) = get k0 h.
Hypothesis update_NoDup :
  forall k v h, NoDup (keys h) -> NoDup (keys (update k v h)).

Lemma recording_Inv (input : dict K V) (h : history K) :
  Inv h -> Inv (recording update value input h).
Proof.
  unfold recording. revert h.
  induction input as [| [k x] input IH]; intros h Hh; simpl; auto.
Qed.

Lemma recording_NoDup (input : dict K V) (h : history K) :
  NoDup (keys h) -> NoDup (keys (recording update value input h)).
Proof.
  unfold recording. revert h.
  induction input as [| [k x] input IH]; intros h Hh; simpl; auto.
Qed.

Lemma recording_other (input : dict K V) (h : history K) (k0 : K) :
  ~ In k0 (keys input) -> get k0 (recording update value input h) = get k0 h.
Proof.
  unfold recording. revert h.
  induction input as [| [k x] input IH]; intros h Hnotin; simpl; [reflexivity |].
  simpl in Hnotin. rewrite IH by tauto. apply update_other. intros ->. tauto.
Qed.

(** The newest sample of a key of the input is the value of this cycle. *)
Lemma recording_front (input : dict K V) (h : history K) (k : K) (x : V) :
  Inv h -> NoDup (keys input) -> In (k, x) input ->
  exists rest, get k (recording update value input h) = Some (value x :: rest).
Proof.
  revert h.
  induction input as [| [k' x'] input IH]; intros h Hh Hnd Hin; [destruct Hin |].
  inversion Hnd as [| ? ? Hnotin Hnd']; subst.
  destruct Hin as [E | Hin].
  - injection E as -> ->.
    change (recording update value ((k, x) :: input) h) with (recording update value input (update k (value x) h)).
    rewrite recording_other by assumption. now apply update_front.
  - change (recording update value ((k', x') :: input) h)
      with (recording update value input (update k' (value x') h)).
    apply IH; auto.
Qed.

End RecordingLoop.

(** ** The origin detector *)

Lemma origins_reasons_window (pfx : string) (latest : Z) (rest : list Z) :
  origins_reasons pfx (latest :: rest) =
  Ok ((if Py.gtb (inject_Z latest) (mean (latest :: rest)) && Py.ltb (mean (latest :: rest)) 2
       then [OriginsAbove pfx latest (Py.floor (mean (latest :: rest)))] else [])
      ++
      (if (latest <? 2) && Py.gtb (mean (latest :: rest)) 5
       then [OriginsBelow pfx latest (Py.floor (mean (latest :: rest)))] else [])).
Proof. unfold origins_reasons. now rewrite truediv_window by discriminate. Qed.



Lemma check_bgp_origins_Ok (table_pfx_key : dict string (list row)) (h : history string) :
  windows_nonempty h ->
  exists rs,
    check_bgp_origins table_pfx_key h =
    Ok (recording record_sample Py.len table_pfx_key h, rs) /\
    for_items origins_reasons (recording record_sample Py.len table_pfx_key h) = Ok rs.
Proof.
  intros Hne. unfold check_bgp_origins.
  assert (Hne' : windows_nonempty (recording record_sample Py.len table_pfx_key h)).
  { apply (recording_Inv record_sample Py.len windows_nonempty); [| assumption].
    intros k v h0. apply record_sample_nonempty. }
  destruct (for_items_Ok origins_reasons
              (recording record_sample Py.len table_pfx_key h)) as [rs Hrs].
  - intros k [| latest w] Hin.
    + unfold windows_nonempty in Hne'. rewrite Forall_forall in Hne'.
      now destruct (Hne' _ Hin).
    + rewrite origins_reasons_window. now eexists.
  - exists rs. rewrite Hrs. now split.
Qed.


(** ** Detection over a well-formed history *)

Lemma detection_reasons {K : Type} `{Hashable K}
    (body : K -> list Z -> result (list reason)) (h : history K) :
  NoDup (keys h) -> windows_nonempty h ->
  (forall k latest rest, exists here, body k (latest :: rest) = Ok here) ->
  exists rs,
    for_items body h = Ok rs /\
    forall r, In r rs <->
      exists k latest rest here,
        get k h = Some (latest :: rest) /\ body k (latest :: rest) = Ok here /\ In r here.
Proof.
  intros Hnd Hne Hbody.
  unfold windows_nonempty in Hne. rewrite Forall_forall in Hne.
  destruct (for_items_Ok body h) as [rs Hrs].
  - intros k [| latest rest] Hin; [now destruct (Hne _ Hin) | apply Hbody].
  - exists rs. split; [assumption |]. intros r.
    rewrite (for_items_In body h rs r Hrs). split.
    + intros (k & w & here & Hin & Hb & Hr).
      destruct w as [| latest rest]; [now destruct (Hne _ Hin) |].
      exists k, latest, rest, here. split; [now apply In_get | now split].
    + intros (k & latest & rest & here & Hget & Hb & Hr).
      exists k, (latest :: rest), here. split; [now apply get_In | now split].
Qed.

(** ** Rounding to an integer *)

Lemma inject_Z_le (a b : Z) : a <= b -> (inject_Z a <= inject_Z b)%Q.
Proof. intros Hle. now rewrite <- Zle_Qle. Qed.

Lemma round_half_even_ge (n : Z) (q : Q) :
  (inject_Z n <= q)%Q -> n <= Py.round_half_even q.
Proof.
  destruct q as [a d]. unfold Qle, Py.round_half_even. cbn [Qnum Qden inject_Z].
  intros Hle. rewrite Z.mul_1_r in Hle.
  assert (Hfl : n <= (2 * a + Z.pos d) / (2 * Z.pos d)).
  { apply Z.div_le_lower_bound; lia. }
  destruct ((2 * a + Z.pos d) mod (2 * Z.pos d) =? 0) eqn:Etie; cbn [andb]; [| exact Hfl].
  destruct (Z.odd ((2 * a + Z.pos d) / (2 * Z.pos d))); [| exact Hfl].
  apply Z.eqb_eq in Etie.
  pose proof (Z.div_mod (2 * a + Z.pos d) (2 * Z.pos d) ltac:(lia)) as Hdiv.
  rewrite Etie in Hdiv. nia.
Qed.

Lemma round_half_even_le (n : Z) (q : Q) :
  (q <= inject_Z n)%Q -> Py.round_half_even q <= n.
Proof.
  destruct q as [a d]. unfold Qle, Py.round_half_even. cbn [Qnum Qden inject_Z].
  intros Hle. rewrite Z.mul_1_r in Hle.
  assert (Hfl : (2 * a + Z.pos d) / (2 * Z.pos d) < n + 1).
  { apply Z.div_lt_upper_bound; lia. }
  destruct (((2 * a + Z.pos d) mod (2 * Z.pos d) =? 0)
            && Z.odd ((2 * a + Z.pos d) / (2 * Z.pos d))); lia.
Qed.

Lemma round_half_even_integer (n : Z) (q : Q) :
  (q == inject_Z n)%Q -> Py.round_half_even q = n.
Proof.
  intros E. apply Z.le_antisymm.
  - apply round_half_even_le. rewrite E. apply Qle_refl.
  - apply round_half_even_ge. rewrite E. apply Qle_refl.
Qed.

Lemma int_inject_Z (z : Z) : Py.int (inject_Z z) = z.
Proof. unfold Py.int, inject_Z. cbn [Qnum Qden]. apply Z.quot_1_r. Qed.

(** ** Rounding to a float *)

Section Rounding.

Local Open Scope Q_scope.

(** Powers of two. *)

Lemma pow2_pos (e : Z) : 0 < Double.pow2 e.
Proof. apply Qpower_0_lt. reflexivity. Qed.

Lemma pow2_add (a b : Z) : Double.pow2 (a + b) == Double.pow2 a * Double.pow2 b.
Proof. apply Qpower_plus. discriminate. Qed.

Lemma pow2_le (a b : Z) : (a <= b)%Z -> Double.pow2 a <= Double.pow2 b.
Proof. intros H. apply Qpower_le_compat_l; [assumption | discriminate]. Qed.

Lemma pow2_lt (a b : Z) : (a < b)%Z -> Double.pow2 a < Double.pow2 b.
Proof. intros H. apply Qpower_lt_compat_l; [assumption | reflexivity]. Qed.

Lemma pow2_inject (e : Z) : (0 <= e)%Z -> Double.pow2 e == inject_Z (2 ^ e).
Proof. intros H. symmetry. now apply (Zpower_Qpower 2 e). Qed.

(** [x / 2^e] is [x * 2^-e]. *)
Lemma div_pow2 (q : Q) (e : Z) : q / Double.pow2 e == q * Double.pow2 (- e).
Proof. unfold Double.pow2, Qdiv. now rewrite Qpower_opp. Qed.

Lemma pow2_scale (q y : Q) (e : Z) : q <= y * Double.pow2 e <-> q / Double.pow2 e <= y.
Proof.
  pose proof (pow2_pos e) as Hp. split; intros H.
  - apply Qle_shift_div_r; assumption.
  - apply (Qmult_le_r _ _ (Double.pow2 e)) in H; [| assumption].
    setoid_replace (q / Double.pow2 e * Double.pow2 e) with q in H; [assumption |].
    field. intros C. rewrite C in Hp. discriminate.
Qed.

Lemma pow2_scale_ge (q y : Q) (e : Z) : y * Double.pow2 e <= q <-> y <= q / Double.pow2 e.
Proof.
  pose proof (pow2_pos e) as Hp. split; intros H.
  - apply Qle_shift_div_l; assumption.
  - apply (Qmult_le_r _ _ (Double.pow2 e)) in H; [| assumption].
    setoid_replace (q / Double.pow2 e * Double.pow2 e) with q in H; [assumption |].
    field. intros C. rewrite C in Hp. discriminate.
Qed.

(** The exponent. *)

Lemma exponent_spec (q : Q) :
  0 < q -> Double.pow2 (Double.exponent q) <= q /\ q < Double.pow2 (Double.exponent q + 1).
Proof.
  intros Hq. destruct q as [n d].
  assert (Hn : (0 < n)%Z) by (unfold Qlt in Hq; cbn in Hq; lia).
  unfold Double.exponent. cbn [Qnum Qden].
  set (ln := Z.log2 n). set (ld := Z.log2 (Z.pos d)).
  destruct (Z.log2_spec n Hn) as [Hn1 Hn2]. fold ln in Hn1, Hn2.
  destruct (Z.log2_spec (Z.pos d) eq_refl) as [Hd1 Hd2]. fold ld in Hd1, Hd2.
  assert (Hln : (0 <= ln)%Z) by apply Z.log2_nonneg.
  assert (Hld : (0 <= ld)%Z) by apply Z.log2_nonneg.
  assert (Hq' : n # d == inject_Z n / inject_Z (Z.pos d)) by apply Qmake_Qdiv.
  assert (Hdpos : 0 < inject_Z (Z.pos d)) by reflexivity.
  assert (Hsplit : forall k, Double.pow2 (ln - ld + k)
                     == inject_Z (2 ^ ln) * Double.pow2 k / inject_Z (2 ^ ld)).
  { intros k. replace (ln - ld + k)%Z with (ln + (k + - ld))%Z by ring.
    rewrite !pow2_add. rewrite <- !pow2_inject by assumption.
    unfold Double.pow2 at 3. rewrite Qpower_opp. fold (Double.pow2 ld).
    field. intros C. pose proof (pow2_pos ld) as Hp. rewrite C in Hp. discriminate. }
  assert (Hld_pos : 0 < inject_Z (2 ^ ld)).
  { rewrite <- pow2_inject by assumption. apply pow2_pos. }
  destruct (Qle_bool (Double.pow2 (ln - ld)) (n # d)) eqn:E.
  - apply Qle_bool_iff in E. split; [exact E |].
    rewrite Hsplit, Hq'. change (Double.pow2 1) with 2.
    apply Qlt_shift_div_l; [assumption |].
    assert (H1 : inject_Z n < inject_Z (2 ^ ln) * 2).
    { change 2 with (inject_Z 2). rewrite <- inject_Z_mult. rewrite <- Zlt_Qlt.
      replace (ln + 1)%Z with (Z.succ ln) in Hn2 by lia.
      rewrite Z.pow_succ_r in Hn2 by assumption. lia. }
    assert (H2 : inject_Z (2 ^ ld) <= inject_Z (Z.pos d)) by now apply inject_Z_le.
    assert (H0 : 0 < inject_Z n) by (change 0 with (inject_Z 0); now rewrite <- Zlt_Qlt).
    setoid_replace (inject_Z n / inject_Z (Z.pos d) * inject_Z (2 ^ ld))
      with (inject_Z n * (inject_Z (2 ^ ld) / inject_Z (Z.pos d)))
      by (field; intros C; rewrite C in Hdpos; discriminate).
    apply Qle_lt_trans with (inject_Z n * 1); [| now rewrite Qmult_1_r].
    apply Qmult_le_l; [assumption |].
    apply Qle_shift_div_r; [assumption |]. now rewrite Qmult_1_l.
  - assert (Hlt : n # d < Double.pow2 (ln - ld)).
    { apply Qnot_le_lt. intros C. apply Qle_bool_iff in C. congruence. }
    replace (ln - ld - 1 + 1)%Z with (ln - ld)%Z by ring. split; [| exact Hlt].
    replace (ln - ld - 1)%Z with (ln - ld + -1)%Z by ring.
    rewrite Hsplit, Hq'. change (Double.pow2 (-1)) with (1 # 2).
    apply Qle_shift_div_r; [assumption |].
    assert (H1 : inject_Z (2 ^ ln) <= inject_Z n) by now apply inject_Z_le.
    assert (H2 : inject_Z (Z.pos d) <= inject_Z (2 ^ ld) * 2).
    { change 2 with (inject_Z 2). rewrite <- inject_Z_mult. apply inject_Z_le.
      replace (ld + 1)%Z with (Z.succ ld) in Hd2 by lia.
      rewrite Z.pow_succ_r in Hd2 by assumption. lia. }
    assert (H0 : 0 < inject_Z (2 ^ ln)).
    { rewrite <- pow2_inject by assumption. apply pow2_pos. }
    setoid_replace (inject_Z n / inject_Z (Z.pos d) * inject_Z (2 ^ ld))
      with (inject_Z n * (inject_Z (2 ^ ld) / inject_Z (Z.pos d)))
      by (field; intros C; rewrite C in Hdpos; discriminate).
    assert (Hhalf : (1 # 2) <= inject_Z (2 ^ ld) / inject_Z (Z.pos d)).
    { apply Qle_shift_div_l; [assumption |]. lra. }
    apply Qle_trans with (inject_Z (2 ^ ln) * (inject_Z (2 ^ ld) / inject_Z (Z.pos d))).
    + apply Qmult_le_l; assumption.
    + apply Qmult_le_compat_r; [assumption |]. lra.
Qed.

Lemma pow2_ne (e : Z) : ~ Double.pow2 e == 0.
Proof. intros C. pose proof (pow2_pos e) as Hp. rewrite C in Hp. discriminate. Qed.

Lemma pow2_shift (m : Z) (a b : Z) :
  (b <= a)%Z ->
  inject_Z m * Double.pow2 a / Double.pow2 b == inject_Z (m * 2 ^ (a - b)).
Proof.
  intros Hle. rewrite inject_Z_mult, <- pow2_inject by lia.
  replace a with ((a - b) + b)%Z at 1 by ring. rewrite pow2_add.
  field. apply pow2_ne.
Qed.

(** The significand is below [2^53], and at least [2^52] for a normal [q]. *)
Lemma significand_bounds (q : Q) :
  0 < q ->
  q / Double.pow2 (last_place q) < inject_Z (2 ^ 53) /\
  ((-1074 < last_place q)%Z -> inject_Z (2 ^ 52) <= q / Double.pow2 (last_place q) /\
                                 last_place q = (Double.exponent q - 52)%Z).
Proof.
  intros Hq. destruct (exponent_spec q Hq) as [Hlo Hhi]. unfold last_place.
  rewrite <- !pow2_inject by lia. split.
  - apply Qlt_shift_div_r; [apply pow2_pos |]. rewrite <- pow2_add.
    eapply Qlt_le_trans; [exact Hhi |]. apply pow2_le. lia.
  - intros Hnormal.
    assert (E : Z.max (Double.exponent q - 52) (-1074) = (Double.exponent q - 52)%Z) by lia.
    split; [| exact E]. rewrite E.
    apply Qle_shift_div_l; [apply pow2_pos |]. rewrite <- pow2_add.
    now replace (52 + (Double.exponent q - 52))%Z with (Double.exponent q) by ring.
Qed.

Lemma round_positive_ge (q : Q) (m e : Z) :
  0 < q -> (m <= 2 ^ 53)%Z -> (-1074 <= e)%Z ->
  inject_Z m * Double.pow2 e <= q ->
  inject_Z m * Double.pow2 e <= Double.round_positive q.
Proof.
  intros Hq Hm He Hle. unfold Double.round_positive. fold (last_place q).
  destruct (significand_bounds q Hq) as [_ Hnormal].
  destruct (Z_le_gt_dec (last_place q) e) as [Hcase | Hcase].
  - apply pow2_scale. rewrite pow2_shift by assumption.
    apply inject_Z_le, round_half_even_ge.
    rewrite <- (pow2_shift m e (last_place q)) by assumption.
    unfold Qdiv. apply Qmult_le_compat_r; [assumption |].
    apply Qinv_le_0_compat, Qlt_le_weak, pow2_pos.
  - destruct Hnormal as [Hsig E]; [lia |].
    apply Qle_trans with (inject_Z (2 ^ 52) * Double.pow2 (last_place q)).
    + apply Qle_trans with (inject_Z (2 ^ 53) * Double.pow2 e).
      * apply Qmult_le_compat_r; [now apply inject_Z_le |]. apply Qlt_le_weak, pow2_pos.
      * rewrite <- !pow2_inject by lia. rewrite <- !pow2_add. apply pow2_le. lia.
    + apply Qmult_le_compat_r; [| apply Qlt_le_weak, pow2_pos].
      apply inject_Z_le, round_half_even_ge. exact Hsig.
Qed.

Lemma round_positive_le (q : Q) (m e : Z) :
  0 < q -> (m <= 2 ^ 53)%Z -> (-1074 <= e)%Z ->
  q <= inject_Z m * Double.pow2 e ->
  Double.round_positive q <= inject_Z m * Double.pow2 e.
Proof.
  intros Hq Hm He Hle. unfold Double.round_positive. fold (last_place q).
  destruct (significand_bounds q Hq) as [_ Hnormal].
  destruct (Z_le_gt_dec (last_place q) e) as [Hcase | Hcase].
  - apply pow2_scale_ge. rewrite pow2_shift by assumption.
    apply inject_Z_le, round_half_even_le.
    rewrite <- (pow2_shift m e (last_place q)) by assumption.
    unfold Qdiv. apply Qmult_le_compat_r; [assumption |].
    apply Qinv_le_0_compat, Qlt_le_weak, pow2_pos.
  - destruct Hnormal as [Hsig E]; [lia |].
    assert (Hy : inject_Z m * Double.pow2 e <= inject_Z (2 ^ 52) * Double.pow2 (last_place q)).
    { apply Qle_trans with (inject_Z (2 ^ 53) * Double.pow2 e).
      - apply Qmult_le_compat_r; [now apply inject_Z_le |]. apply Qlt_le_weak, pow2_pos.
      - rewrite <- !pow2_inject by lia. rewrite <- !pow2_add. apply pow2_le. lia. }
    assert (Hsig' : q / Double.pow2 (last_place q) <= inject_Z (2 ^ 52)).
    { apply pow2_scale. now apply Qle_trans with (inject_Z m * Double.pow2 e). }
    assert (Hr : Py.round_half_even (q / Double.pow2 (last_place q)) = (2 ^ 52)%Z).
    { apply round_half_even_integer. now apply Qle_antisym. }
    rewrite Hr. apply Qle_trans with q; [| assumption].
    apply pow2_scale_ge. exact Hsig.
Qed.

Lemma round_positive_nonneg (q : Q) : 0 < q -> 0 <= Double.round_positive q.
Proof.
  intros Hq. unfold Double.round_positive.
  apply Qmult_le_0_compat; [| apply Qlt_le_weak, pow2_pos].
  change 0 with (inject_Z 0). apply inject_Z_le, round_half_even_ge.
  apply Qlt_le_weak. apply Qlt_shift_div_l; [apply pow2_pos |]. now rewrite Qmult_0_l.
Qed.

Lemma sign_cases (q : Q) :
  (Qnum q = 0%Z /\ q == 0) \/
  ((exists p, Qnum q = Z.pos p) /\ 0 < q) \/
  ((exists p, Qnum q = Z.neg p) /\ q < 0 /\ 0 < - q).
Proof.
  destruct q as [[| p | p] d]; unfold Qeq, Qlt; cbn.
  - left. split; reflexivity.
  - right; left. split; [now exists p | lia].
  - right; right. split; [now exists p | lia].
Qed.

Lemma round_sign (q : Q) :
  (q == 0 /\ Double.round q = 0) \/
  (0 < Qred q /\ Double.round q == Double.round_positive (Qred q)) \/
  (0 < - Qred q /\ Double.round q == - Double.round_positive (- Qred q)).
Proof.
  unfold Double.round. cbv zeta.
  destruct (sign_cases (Qred q)) as [[E Hq] | [[[p E] Hq] | [[p E] [Hq Hq']]]]; rewrite E.
  - left. split; [now rewrite <- (Qred_correct q) | reflexivity].
  - right; left. split; [assumption | apply Qred_correct].
  - right; right. split; [assumption | apply Qred_correct].
Qed.

Lemma representable_opp (y : Q) : representable y -> representable (- y).
Proof.
  intros (m & e & Hm & He & Hy). exists (- m)%Z, e.
  split; [lia |]. split; [assumption |]. rewrite Hy, inject_Z_opp. ring.
Qed.

(** Rounding never crosses a float. *)
Lemma round_ge (q y : Q) : representable y -> y <= q -> y <= Double.round q.
Proof.
  intros (m & e & Hm & He & Hy) Hle. rewrite Hy in *. clear y Hy.
  rewrite <- (Qred_correct q) in Hle.
  destruct (round_sign q) as [[Hq E] | [[Hq E] | [Hq E]]]; rewrite E.
  - now rewrite <- Hq, <- (Qred_correct q).
  - apply round_positive_ge; try assumption; lia.
  - assert (Hneg : Double.round_positive (- Qred q) <= inject_Z (- m) * Double.pow2 e).
    { apply round_positive_le; try assumption; [lia |]. rewrite inject_Z_opp.
      setoid_replace (- inject_Z m * Double.pow2 e) with (- (inject_Z m * Double.pow2 e)) by ring.
      now apply Qopp_le_compat. }
    rewrite inject_Z_opp in Hneg.
    setoid_replace (- inject_Z m * Double.pow2 e) with (- (inject_Z m * Double.pow2 e)) in Hneg
      by ring.
    apply Qopp_le_compat in Hneg. now rewrite Qopp_involutive in Hneg.
Qed.

Lemma round_le (q y : Q) : representable y -> q <= y -> Double.round q <= y.
Proof.
  intros (m & e & Hm & He & Hy) Hle. rewrite Hy in *. clear y Hy.
  rewrite <- (Qred_correct q) in Hle.
  destruct (round_sign q) as [[Hq E] | [[Hq E] | [Hq E]]]; rewrite E.
  - now rewrite <- Hq, <- (Qred_correct q).
  - apply round_positive_le; try assumption; lia.
  - assert (Hneg : inject_Z (- m) * Double.pow2 e <= Double.round_positive (- Qred q)).
    { apply round_positive_ge; try assumption; [lia |]. rewrite inject_Z_opp.
      setoid_replace (- inject_Z m * Double.pow2 e) with (- (inject_Z m * Double.pow2 e)) by ring.
      now apply Qopp_le_compat. }
    rewrite inject_Z_opp in Hneg.
    setoid_replace (- inject_Z m * Double.pow2 e) with (- (inject_Z m * Double.pow2 e)) in Hneg
      by ring.
    apply Qopp_le_compat in Hneg. now rewrite Qopp_involutive in Hneg.
Qed.

(** A float is rounded to itself. *)
Lemma round_representable (q y : Q) : representable y -> q == y -> Double.round q == y.
Proof.
  intros Hy E. apply Qle_antisym.
  - apply round_le; [assumption |]. rewrite E. apply Qle_refl.
  - apply round_ge; [assumption |]. rewrite E. apply Qle_refl.
Qed.

Lemma round_canonical (q : Q) : Qred (Double.round q) = Double.round q.
Proof.
  unfold Double.round. cbv zeta. destruct (Qnum (Qred q)); [reflexivity | |];
    apply Qred_complete, Qred_correct.
Qed.

(** Equal rationals are rounded to the same float. *)
Lemma round_morphism (q q' : Q) : q == q' -> Double.round q = Double.round q'.
Proof. intros E. unfold Double.round. now rewrite (Qred_complete q q' E). Qed.

(** The result of [round] is in lowest terms, so that its value fixes it. *)
Lemma round_eq (q y : Q) : Double.round q == y -> Double.round q = Qred y.
Proof. intros E. rewrite <- round_canonical. now apply Qred_complete. Qed.

Lemma representable_integer (z : Z) : (Z.abs z <= 2 ^ 53)%Z -> representable (inject_Z z).
Proof.
  intros Hz. exists z, 0%Z. split; [assumption |]. split; [lia |].
  change (Double.pow2 0) with 1. ring.
Qed.

Lemma representable_pow2 (k : Z) : (-1074 <= k)%Z -> representable (Double.pow2 k).
Proof.
  intros Hk. exists 1%Z, k. split; [simpl; lia |]. split; [assumption |].
  change (inject_Z 1) with 1. ring.
Qed.

(** Rounding keeps a magnitude within a power of two. *)
Lemma round_abs_le (q : Q) (k : Z) :
  (-1074 <= k)%Z -> Qabs q <= Double.pow2 k -> Qabs (Double.round q) <= Double.pow2 k.
Proof.
  intros Hk Hq. apply Qabs_Qle_condition in Hq. destruct Hq as [Hlo Hhi].
  apply Qabs_Qle_condition. split.
  - apply round_ge; [| assumption]. apply representable_opp. now apply representable_pow2.
  - apply round_le; [| assumption]. now apply representable_pow2.
Qed.

Lemma overflows_false (q : Q) (k : Z) :
  (-1074 <= k < 1024)%Z -> Qabs q <= Double.pow2 k ->
  Double.overflows (Double.round q) = false.
Proof.
  intros Hk Hq. unfold Double.overflows.
  destruct (Qle_bool (Double.pow2 1024) (Qabs (Double.round q))) eqn:E; [| reflexivity].
  apply Qle_bool_iff in E. exfalso.
  pose proof (round_abs_le q k (proj1 Hk) Hq) as Hr.
  pose proof (pow2_lt k 1024 (proj2 Hk)) as Hlt.
  apply (Qlt_irrefl (Double.pow2 k)).
  eapply Qlt_le_trans; [exact Hlt |]. now apply Qle_trans with (Qabs (Double.round q)).
Qed.

End Rounding.

(** ** The total-ROA detector *)

(** Divisions of the RPKI detectors. *)

Lemma sum_within (bound : Z) (w : list Z) :
  Forall (fun x => Z.abs x <= bound) w -> Z.abs (Py.sum w) <= bound * Py.len w.
Proof.
  induction 1 as [| x w Hx _ IH]; [change (Py.len (@nil Z)) with 0; simpl; lia |].
  rewrite len_cons. cbn [Py.sum fold_right]. fold (Py.sum w). lia.
Qed.

Lemma quotient_abs_le (a b bound : Z) :
  b <> 0 -> Z.abs a <= bound * Z.abs b ->
  (Qabs (inject_Z a / inject_Z b) <= inject_Z bound)%Q.
Proof.
  intros Hb Ha. apply Qabs_Qle_condition.
  destruct b as [| p | p]; [congruence | |];
    unfold Qle, Qdiv, Qmult, Qinv, Qopp, inject_Z; cbn [Qnum Qden Z.opp];
    rewrite ?Pos.mul_1_l; split; nia.
Qed.

Lemma truediv_within (a b : Z) :
  b <> 0 -> Z.abs a <= huge * Z.abs b ->
  Double.truediv a b = Ok (Double.round (inject_Z a / inject_Z b)).
Proof.
  intros Hb Ha. unfold Double.truediv.
  destruct (Z.eqb_spec b 0) as [E | _]; [congruence |]. cbv zeta.
  rewrite (overflows_false _ 1023); [reflexivity | lia |].
  rewrite pow2_inject by lia. now apply quotient_abs_le.
Qed.

Lemma truediv_zero (a : Z) : Double.truediv a 0 = Raise ZeroDivisionError.
Proof. reflexivity. Qed.

Lemma truediv_window64 (window : list Z) :
  window <> [] -> Forall (fun x => Z.abs x <= huge) window ->
  Double.truediv (Py.sum window) (Py.len window) = Ok (rounded_mean window).
Proof.
  intros Hne Hin. pose proof (len_pos window Hne) as Hlen.
  apply truediv_within; [lia |]. rewrite (Z.abs_eq (Py.len window)) by lia.
  now apply sum_within.
Qed.

Lemma totals_reasons_window (repo : string) (latest : Z) (rest : list Z) :
  Forall (fun x => Z.abs x <= huge) (latest :: rest) ->
  totals_reasons repo (latest :: rest) =
  Ok (if totals_dropped (latest :: rest)
      then [RoaDecreased repo (totals_percentage (latest :: rest))
              (totals_avg (latest :: rest)) latest]
      else []).
Proof.
  intros Hin. unfold totals_reasons. rewrite truediv_window64 by (discriminate || assumption).
  unfold bind at 1. fold (totals_avg (latest :: rest)). rewrite item0_window. unfold bind at 1.
  unfold totals_dropped, totals_percentage. cbn [hd].
  destruct (Z.eqb_spec (totals_avg (latest :: rest)) 0) as [E | Hne].
  - rewrite E. reflexivity.
  - rewrite truediv_within; [reflexivity | assumption |].
    inversion Hin as [| x w Hlatest _]; subst. unfold huge in *. nia.
Qed.

Lemma recording_rpki_facts {V : Type} (value : V -> Z) (input : dict string V)
    (h : history string) :
  NoDup (keys h) -> windows_nonempty h ->
  NoDup (keys (recording record_rpki_sample value input h)) /\
  windows_nonempty (recording record_rpki_sample value input h) /\
  (NoDup (keys input) -> forall repo x, In (repo, x) input ->
     exists rest, get repo (recording record_rpki_sample value input h)
                  = Some (value x :: rest)).
Proof.
  intros Hnd Hne. split; [| split].
  - apply recording_NoDup; [| assumption]. intros k v h0. apply record_rpki_sample_NoDup.
  - apply (recording_Inv record_rpki_sample value windows_nonempty); [| assumption].
    intros k v h0. apply record_rpki_sample_nonempty.
  - intros Hndi repo x Hin.
    apply (recording_front record_rpki_sample value windows_nonempty); auto.
    + intros k v h0. apply record_rpki_sample_nonempty.
    + intros k v h0 Hh0.
      destruct (record_rpki_sample_front k v h0 Hh0) as (rest & E & _). eauto.
    + intros k k0 v h0. apply record_rpki_sample_other.
Qed.

Lemma record_rpki_sample_within (bound : Z) (k : string) (v : Z) (h : history string) :
  windows_nonempty h -> Z.abs v <= bound -> samples_within bound h ->
  samples_within bound (record_rpki_sample k v h).
Proof.
  intros Hne Hv Hin. unfold samples_within in *. rewrite Forall_forall in *.
  intros [k0 w0] Hentry. cbn [snd].
  destruct (record_rpki_sample_In _ _ _ _ _ Hentry) as [[-> E] | Hold];
    [| exact (Hin _ Hold)].
  destruct (record_rpki_sample_front k v h Hne) as (rest & E' & Hrest).
  rewrite E' in E. injection E as <-. constructor; [assumption |].
  rewrite Forall_forall. intros x Hx. destruct (Hrest x Hx) as (w & Hw & Hxw).
  pose proof (Hin _ (get_In _ _ _ Hw)) as Hwin. cbn [snd] in Hwin.
  rewrite Forall_forall in Hwin. now apply Hwin.
Qed.

Lemma recording_rpki_within (bound : Z) (input : dict string Z) (h : history string) :
  windows_nonempty h -> counts_within bound input -> samples_within bound h ->
  samples_within bound (recording record_rpki_sample (fun count => count) input h).
Proof.
  unfold recording. revert h.
  induction input as [| [k v] input IH]; intros h Hne Hinput Hh; [assumption |].
  inversion Hinput as [| entry input' Hv Hrest]; subst. cbn [fold_left fst snd] in *.
  apply IH; [now apply record_rpki_sample_nonempty | assumption |].
  now apply record_rpki_sample_within.
Qed.

(** Detection over a history on whose windows the body returns. *)
Lemma detection_reasons_on {K : Type} `{Hashable K}
    (body : K -> list Z -> result (list reason)) (h : history K) :
  NoDup (keys h) -> windows_nonempty h ->
  (forall k w, In (k, w) h -> exists here, body k w = Ok here) ->
  exists rs,
    for_items body h = Ok rs /\
    forall r, In r rs <->
      exists k latest rest here,
        get k h = Some (latest :: rest) /\ body k (latest :: rest) = Ok here /\ In r here.
Proof.
  intros Hnd Hne Hbody.
  unfold windows_nonempty in Hne. rewrite Forall_forall in Hne.
  destruct (for_items_Ok body h Hbody) as [rs Hrs].
  exists rs. split; [assumption |]. intros r.
  rewrite (for_items_In body h rs r Hrs). split.
  - intros (k & w & here & Hin & Hb & Hr).
    destruct w as [| latest rest]; [now destruct (Hne _ Hin) |].
    exists k, latest, rest, here. split; [now apply In_get | now split].
  - intros (k & latest & rest & here & Hget & Hb & Hr).
    exists k, (latest :: rest), here. split; [now apply get_In | now split].
Qed.

Lemma totals_reasons_In (repo k : string) (latest : Z) (p : Double.t) (a l : Z)
    (w : list Z) (rs : list reason) :
  Forall (fun x => Z.abs x <= huge) (latest :: w) ->
  totals_reasons k (latest :: w) = Ok rs ->
  In (RoaDecreased repo p a l) rs <->
  (k = repo /\ p = totals_percentage (latest :: w) /\ a = totals_avg (latest :: w) /\
   l = latest /\ totals_dropped (latest :: w) = true).
Proof.
  intros Hin. rewrite totals_reasons_window by assumption. intros [= <-].
  destruct (totals_dropped (latest :: w)); simpl.
  - split.
    + intros [[= -> <- <- <-] | []]. auto.
    + intros (-> & -> & -> & -> & _). now left.
  - split; [tauto | intros (_ & _ & _ & _ & C); discriminate].
Qed.

Lemma check_rpki_totals_detection (total_roa : dict string Z) (h : history string) :
  NoDup (keys h) -> windows_nonempty h ->
  counts_within huge total_roa -> samples_within huge h ->
  let h' := recording record_rpki_sample (fun count => count) total_roa h in
  exists rs,
    check_rpki_totals total_roa h = Ok (h', rs) /\
    forall repo latest rest, get repo h' = Some (latest :: rest) ->
      forall p a l, In (RoaDecreased repo p a l) rs <->
        (p = totals_percentage (latest :: rest) /\ a = totals_avg (latest :: rest) /\
         l = latest /\ totals_dropped (latest :: rest) = true).
Proof.
  intros Hnd Hne Hcounts Hsamples h'.
  destruct (recording_rpki_facts (fun count => count) total_roa h Hnd Hne)
    as (Hnd' & Hne' & _).
  pose proof (recording_rpki_within huge total_roa h Hne Hcounts Hsamples) as Hin'.
  fold h' in Hnd', Hne', Hin'.
  assert (Hwindow : forall k w, In (k, w) h' -> Forall (fun x => Z.abs x <= huge) w).
  { intros k w Hkw. unfold samples_within in Hin'. rewrite Forall_forall in Hin'.
    exact (Hin' _ Hkw). }
  destruct (detection_reasons_on totals_reasons h' Hnd' Hne') as (rs & Hrs & Hin).
  { intros k [| latest rest] Hkw.
    - unfold windows_nonempty in Hne'. rewrite Forall_forall in Hne'.
      now destruct (Hne' _ Hkw).
    - rewrite totals_reasons_window by exact (Hwindow _ _ Hkw). now eexists. }
  exists rs. split; [unfold check_rpki_totals; fold h'; now rewrite Hrs |].
  intros repo latest rest Hget p a l.
  pose proof (Hwindow _ _ (get_In _ _ _ Hget)) as Hw.
  rewrite Hin. split.
  - intros (k & l0 & w0 & here & Hk & Hb & Hr).
    pose proof (Hwindow _ _ (get_In _ _ _ Hk)) as Hw0.
    apply (totals_reasons_In repo k l0 p a l w0 here Hw0 Hb) in Hr.
    destruct Hr as (-> & -> & -> & -> & Hlt).
    rewrite Hget in Hk. injection Hk as <- <-. auto.
  - intros (-> & -> & -> & Hlt).
    exists repo, latest, rest. eexists. split; [exact Hget |].
    split; [now apply totals_reasons_window |].
    apply (totals_reasons_In repo repo latest _ _ _ rest _ Hw
             (totals_reasons_window _ _ _ Hw)).
    auto.
Qed.

(** ** Windows of moderate size: the rounded mean is as good as the exact one *)

Lemma inject_Z_pos (n : Z) : 0 < n -> (0 < inject_Z n)%Q.
Proof. intros Hn. change 0%Q with (inject_Z 0). now rewrite <- Zlt_Qlt. Qed.

Lemma int_between (x : Q) (k : Z) :
  0 <= k -> (inject_Z k <= x)%Q -> (x < inject_Z (k + 1))%Q -> Py.int x = k.
Proof.
  destruct x as [n d]. unfold Qle, Qlt, Py.int, inject_Z. cbn [Qnum Qden].
  intros Hk Hlo Hhi. rewrite Z.mul_1_r in *.
  rewrite Z.quot_div_nonneg by lia. symmetry. apply Z.div_unique with (n - k * Z.pos d); lia.
Qed.

Lemma moderate_facts (w : list Z) :
  moderate w -> w <> [] ->
  0 < Py.len w <= 2 ^ 12 /\ 0 <= Py.sum w <= 2 ^ 40 /\
  Forall (fun x => 0 <= x <= 2 ^ 40) w.
Proof.
  intros (Hpos & Hsum & Hlen) Hne. pose proof (len_pos w Hne) as Hn.
  split; [lia |].
  assert (Hin : forall l, Forall (fun x => 0 <= x) l ->
                  0 <= Py.sum l /\ Forall (fun x => 0 <= x <= Py.sum l) l).
  { induction 1 as [| x l Hx _ [IH1 IH2]]; [split; [reflexivity | constructor] |].
    cbn [Py.sum fold_right]. fold (Py.sum l). split; [lia |].
    constructor; [lia |]. eapply Forall_impl; [| exact IH2]. cbn. intros; lia. }
  destruct (Hin w Hpos) as [H0 Hall]. split; [lia |].
  eapply Forall_impl; [| exact Hall]. cbn. intros; lia.
Qed.

Section ModerateWindows.

Variable w : list Z.
Hypothesis Hmoderate : moderate w.
Hypothesis Hne : w <> [].

Lemma rounded_mean_ge (l : Z) :
  0 <= l -> l * Py.len w <= Py.sum w -> (inject_Z l <= rounded_mean w)%Q.
Proof.
  intros Hl Hle. destruct (moderate_facts w Hmoderate Hne) as ((Hn & _) & (_ & Hs) & _).
  unfold rounded_mean. apply round_ge.
  - apply representable_integer.
    assert (l * 1 <= l * Py.len w) by (apply Z.mul_le_mono_nonneg_l; lia). lia.
  - apply Qle_shift_div_l; [now apply inject_Z_pos |].
    rewrite <- inject_Z_mult. now apply inject_Z_le.
Qed.

Lemma rounded_mean_lt (l : Z) :
  l <= 2 ^ 40 + 1 -> Py.sum w < l * Py.len w ->
  (rounded_mean w <= inject_Z (l * 2 ^ 12 - 1) * Double.pow2 (-12))%Q /\
  (rounded_mean w < inject_Z l)%Q.
Proof.
  intros Hl Hlt. destruct (moderate_facts w Hmoderate Hne) as ((Hn & Hn') & (Hs0 & Hs) & _).
  assert (Hl0 : 0 < l) by nia.
  assert (Hbelow : (inject_Z (l * 2 ^ 12 - 1) * Double.pow2 (-12) < inject_Z l)%Q).
  { change (Double.pow2 (-12)) with (1 # 4096)%Q.
    unfold Qlt, Qmult, inject_Z. cbn [Qnum Qden]. lia. }
  assert (Hle : (rounded_mean w <= inject_Z (l * 2 ^ 12 - 1) * Double.pow2 (-12))%Q).
  { unfold rounded_mean. apply round_le.
    - exists (l * 2 ^ 12 - 1), (-12). split; [lia |]. split; [lia | reflexivity].
    - apply Qle_shift_div_r; [now apply inject_Z_pos |].
      change (Double.pow2 (-12)) with (1 # 4096)%Q.
      unfold Qle, Qmult, inject_Z. cbn [Qnum Qden]. nia. }
  split; [exact Hle |]. eapply Qle_lt_trans; eassumption.
Qed.

Lemma totals_avg_moderate : totals_avg w = Z.quot (Py.sum w) (Py.len w).
Proof.
  destruct (moderate_facts w Hmoderate Hne) as ((Hn & Hn') & (Hs0 & Hs) & _).
  rewrite Z.quot_div_nonneg by lia. unfold totals_avg.
  apply int_between.
  - now apply Z.div_pos.
  - apply rounded_mean_ge; [now apply Z.div_pos |].
    rewrite Z.mul_comm. now apply Z.mul_div_le.
  - apply rounded_mean_lt.
    + assert (Py.sum w / Py.len w <= Py.sum w) by (apply Z.div_le_upper_bound; nia). lia.
    + rewrite Z.mul_comm.
      pose proof (Z.mul_succ_div_gt (Py.sum w) (Py.len w) Hn). lia.
Qed.

Lemma rounded_mean_below (l : Z) :
  0 <= l <= 2 ^ 40 + 1 ->
  (rounded_mean w < inject_Z l)%Q <-> Py.sum w < l * Py.len w.
Proof.
  intros [Hl Hl']. split.
  - intros Hlt. destruct (Z.lt_ge_cases (Py.sum w) (l * Py.len w)) as [? | Hge]; [assumption |].
    exfalso. apply (Qlt_irrefl (inject_Z l)).
    eapply Qle_lt_trans; [| exact Hlt]. now apply rounded_mean_ge.
  - now apply rounded_mean_lt.
Qed.

End ModerateWindows.

(** ** The test of the total-ROA detector on a window of moderate size *)

Lemma of_exact_finite (q : Q) (k : Z) :
  -1074 <= k < 1024 -> (Qabs q <= Double.pow2 k)%Q ->
  Double.of_exact q = Double.Finite (Double.round q).
Proof. intros Hk Hq. unfold Double.of_exact. now rewrite (overflows_false q k). Qed.

Lemma of_exact_between (q : Q) (n : Z) :
  0 <= n <= 1023 -> (- inject_Z (2 ^ n) <= q)%Q -> (q <= inject_Z (2 ^ n))%Q ->
  Double.of_exact q = Double.Finite (Double.round q).
Proof.
  intros Hn Hlo Hhi. apply (of_exact_finite q n); [lia |].
  rewrite pow2_inject by lia. apply Qabs_Qle_condition. now split.
Qed.

Lemma float_constant (m e : Z) :
  Z.abs m <= 2 ^ 53 -> -1074 <= e -> representable (inject_Z m * Double.pow2 e).
Proof. intros Hm He. exists m, e. split; [assumption |]. split; [assumption | reflexivity]. Qed.

Lemma inject_Z_div_ge (c : Q) (a b : Z) :
  0 < b -> (c * inject_Z b <= inject_Z a)%Q -> (c <= inject_Z a / inject_Z b)%Q.
Proof. intros Hb Hle. apply Qle_shift_div_l; [now apply inject_Z_pos | assumption]. Qed.

Lemma inject_Z_div_le (c : Q) (a b : Z) :
  0 < b -> (inject_Z a <= c * inject_Z b)%Q -> (inject_Z a / inject_Z b <= c)%Q.
Proof. intros Hb Hle. apply Qle_shift_div_r; [now apply inject_Z_pos | assumption]. Qed.

(** The float computed for [latest / avg] when [avg] is ten times [latest]. *)
Lemma round_tenth : Double.round (1 # 10) = (3602879701896397 # 36028797018963968)%Q.
Proof. vm_compute. reflexivity. Qed.

Lemma drop_test (latest avg : Z) :
  0 <= latest <= 2 ^ 40 -> 0 < avg <= 2 ^ 40 ->
  Double.gt_int
    (Double.sub (Double.Finite 100)
       (Double.mul (Double.Finite (Double.round (inject_Z latest / inject_Z avg)))
          (Double.Finite 100)))
    total_roa_threshold = true
  <-> 10 * latest < avg.
Proof.
  intros Hl Ha.
  set (x := Double.round (inject_Z latest / inject_Z avg)).
  assert (Hx0 : (0 <= x)%Q).
  { apply (round_ge _ (inject_Z 0)); [apply representable_integer; simpl; lia |].
    apply inject_Z_div_ge; [lia |]. rewrite Qmult_0_l. apply (inject_Z_le 0). lia. }
  assert (Hx1 : (x <= inject_Z (2 ^ 40))%Q).
  { apply round_le; [apply representable_integer; simpl; lia |].
    apply inject_Z_div_le; [lia |]. rewrite <- inject_Z_mult. apply inject_Z_le. nia. }
  cbn [Double.mul].
  rewrite (of_exact_between (x * 100) 47);
    [| lia | change (inject_Z (2 ^ 47)) with (140737488355328 # 1)%Q;
             change (inject_Z (2 ^ 40)) with (1099511627776 # 1)%Q in Hx1; lra
          | change (inject_Z (2 ^ 47)) with (140737488355328 # 1)%Q;
            change (inject_Z (2 ^ 40)) with (1099511627776 # 1)%Q in Hx1; lra ].
  set (p := Double.round (x * 100)).
  assert (Hp0 : (0 <= p)%Q).
  { apply (round_ge _ (inject_Z 0)); [apply representable_integer; simpl; lia |].
    change (inject_Z 0) with 0%Q. lra. }
  assert (Hp1 : (p <= inject_Z (2 ^ 47))%Q).
  { apply round_le; [apply representable_integer; simpl; lia |].
    change (inject_Z (2 ^ 47)) with (140737488355328 # 1)%Q.
    change (inject_Z (2 ^ 40)) with (1099511627776 # 1)%Q in Hx1. lra. }
  cbn [Double.sub].
  rewrite (of_exact_between (100 - p) 48);
    [| lia | change (inject_Z (2 ^ 48)) with (281474976710656 # 1)%Q;
             change (inject_Z (2 ^ 47)) with (140737488355328 # 1)%Q in Hp1; lra
          | change (inject_Z (2 ^ 48)) with (281474976710656 # 1)%Q; lra ].
  cbn [Double.gt_int]. unfold total_roa_threshold.
  destruct (gtb_spec (Double.round (100 - p)) (inject_Z 90)) as [Hgt | Hle].
  - split; [intros _ | reflexivity].
    destruct (Z.lt_ge_cases (10 * latest) avg) as [? | Hge]; [assumption | exfalso].
    apply (Qlt_irrefl (inject_Z 90)). eapply Qlt_le_trans; [exact Hgt |].
    apply round_le; [apply representable_integer; simpl; lia |].
    assert (Hx : (inject_Z 3602879701896397 * Double.pow2 (-55) <= x)%Q).
    { destruct (Z.eq_dec (10 * latest) avg) as [E | Hne].
      - unfold x. rewrite (round_morphism _ (1 # 10)).
        + rewrite round_tenth. vm_compute. discriminate.
        + subst avg. rewrite inject_Z_mult. change (inject_Z 10) with 10%Q.
          field. intros C. apply (inject_Z_injective latest 0) in C. lia.
      - apply round_ge; [apply float_constant; simpl; lia |].
        apply inject_Z_div_ge; [lia |].
        change (Double.pow2 (-55)) with (1 # 36028797018963968)%Q.
        unfold Qle, Qmult, inject_Z. cbn [Qnum Qden]. lia. }
    assert (Hp : (inject_Z 10 <= p)%Q).
    { apply round_ge; [apply representable_integer; simpl; lia |].
      change (Double.pow2 (-55)) with (1 # 36028797018963968)%Q in Hx.
      unfold inject_Z in *. lra. }
    unfold inject_Z in *. lra.
  - split; [discriminate | intros Hlt; exfalso]. apply Hle.
    assert (Hx : (x <= inject_Z 7205759403788699 * Double.pow2 (-56))%Q).
    { apply round_le; [apply float_constant; simpl; lia |].
      apply inject_Z_div_le; [lia |].
      change (Double.pow2 (-56)) with (1 # 72057594037927936)%Q.
      unfold Qle, Qmult, inject_Z. cbn [Qnum Qden]. lia. }
    assert (Hp : (p <= inject_Z (10 * 2 ^ 38 - 1) * Double.pow2 (-38))%Q).
    { apply round_le; [apply float_constant; simpl; lia |].
      change (Double.pow2 (-56)) with (1 # 72057594037927936)%Q in Hx.
      change (Double.pow2 (-38)) with (1 # 274877906944)%Q.
      change (inject_Z (10 * 2 ^ 38 - 1)) with (2748779069439 # 1)%Q.
      unfold inject_Z in *. lra. }
    apply Qlt_le_trans with (inject_Z (90 * 2 ^ 38 + 1) * Double.pow2 (-38))%Q.
    + change (Double.pow2 (-38)) with (1 # 274877906944)%Q.
      change (inject_Z (90 * 2 ^ 38 + 1)) with (24739011624961 # 1)%Q.
      unfold inject_Z. lra.
    + apply round_ge; [apply float_constant; simpl; lia |].
      change (Double.pow2 (-38)) with (1 # 274877906944)%Q in *.
      change (inject_Z (90 * 2 ^ 38 + 1)) with (24739011624961 # 1)%Q.
      change (inject_Z (10 * 2 ^ 38 - 1)) with (2748779069439 # 1)%Q in Hp.
      lra.
Qed.

Lemma totals_dropped_zero (totals : list Z) :
  totals_avg totals = 0 ->
  totals_percentage totals = Double.Finite 100 /\ totals_dropped totals = false.
Proof.
  intros E. unfold totals_dropped, totals_percentage. rewrite E. split; reflexivity.
Qed.

Lemma totals_dropped_moderate (latest : Z) (rest : list Z) :
  moderate (latest :: rest) ->
  totals_avg (latest :: rest) = Z.quot (Py.sum (latest :: rest)) (Py.len (latest :: rest)) /\
  (totals_dropped (latest :: rest) = true <-> 10 * latest < totals_avg (latest :: rest)).
Proof.
  intros Hm. assert (Hne : latest :: rest <> []) by discriminate.
  pose proof (totals_avg_moderate _ Hm Hne) as Havg. split; [exact Havg |].
  destruct (moderate_facts _ Hm Hne) as ((Hn & Hn') & (Hs0 & Hs) & Hall).
  inversion Hall as [| x l Hlatest _]; subst.
  assert (Ha : 0 <= totals_avg (latest :: rest) <= 2 ^ 40).
  { rewrite Havg, Z.quot_div_nonneg by lia. split; [now apply Z.div_pos |].
    assert (Py.sum (latest :: rest) / Py.len (latest :: rest) <= Py.sum (latest :: rest))
      by (apply Z.div_le_upper_bound; nia). lia. }
  destruct (Z.eq_dec (totals_avg (latest :: rest)) 0) as [E | Hnz].
  - rewrite (proj2 (totals_dropped_zero _ E)), E. split; [discriminate | lia].
  - unfold totals_dropped, totals_percentage.
    rewrite (proj2 (Z.eqb_neq _ _) Hnz). cbn [hd]. apply drop_test; lia.
Qed.

(** C7.  As long as no total is beyond [huge] in magnitude,
    [check_rpki_totals] returns; the window of every repository of the input
    starts with this cycle's total;
    and for every tracked repository, with [avg] the float [sum / len] of the
    window truncated to an integer and [pct] the float [latest / avg * 100],
    or 100 when [avg] is zero, a reason is emitted exactly when the float
    [100 - pct] exceeds [total_roa_threshold].  The reason carries that
    [pct], [avg] and [latest], and none is emitted for a zero average.  On a
    window of moderate size [avg] is the truncated quotient of the exact sum
    and the test amounts to [10 * latest < avg]. *)
Theorem total_roa_detector_emits_exactly
    (total_roa : dict string Z) (h : history string) :
  NoDup (keys total_roa) -> NoDup (keys h) -> windows_nonempty h ->
  counts_within huge total_roa -> samples_within huge h ->
  exists h' rs,
    check_rpki_totals total_roa h = Ok (h', rs) /\
    (forall repo count, In (repo, count) total_roa ->
       exists rest, get repo h' = Some (count :: rest)) /\
    (forall repo latest rest, get repo h' = Some (latest :: rest) ->
       let totals := latest :: rest in
       let avg := totals_avg totals in
       let pct := totals_percentage totals in
       avg = Py.int (Double.round (inject_Z (Py.sum totals) / inject_Z (Py.len totals))) /\
       ((exists p a l, In (RoaDecreased repo p a l) rs) <->
        Double.gt_int (Double.sub (Double.Finite 100) pct) total_roa_threshold = true) /\
       (forall p a l, In (RoaDecreased repo p a l) rs -> p = pct /\ a = avg /\ l = latest) /\
       (avg <> 0 ->
          pct = Double.mul
                  (Double.Finite (Double.round (inject_Z latest / inject_Z avg)))
                  (Double.Finite 100)) /\
       (avg = 0 ->
          pct = Double.Finite 100 /\ ~ exists p a l, In (RoaDecreased repo p a l) rs) /\
       (moderate totals ->
          avg = Z.quot (Py.sum totals) (Py.len totals) /\
          ((exists p a l, In (RoaDecreased repo p a l) rs) <-> 10 * latest < avg))).
Proof.
  intros Hndi Hnd Hne Hcounts Hsamples.
  destruct (recording_rpki_facts (fun count => count) total_roa h Hnd Hne)
    as (_ & _ & Hfront).
  destruct (check_rpki_totals_detection total_roa h Hnd Hne Hcounts Hsamples)
    as (rs & Hcheck & Hin).
  exists (recording record_rpki_sample (fun count => count) total_roa h), rs.
  split; [exact Hcheck |]. split; [now apply Hfront |].
  intros repo latest rest Hget totals avg pct.
  pose proof (Hin repo latest rest Hget) as Hemit. fold totals in Hemit.
  assert (Hany : (exists p a l, In (RoaDecreased repo p a l) rs) <->
                 totals_dropped totals = true).
  { split.
    - intros (p & a & l & Hr). now apply Hemit in Hr.
    - intros Hd. exists pct, avg, latest. apply Hemit. auto. }
  split; [reflexivity |]. split; [exact Hany |]. split; [| split; [| split]].
  - intros p a l Hr. apply Hemit in Hr. tauto.
  - intros Havg. unfold pct, totals_percentage. fold avg.
    now rewrite (proj2 (Z.eqb_neq _ _) Havg).
  - intros Havg. destruct (totals_dropped_zero totals Havg) as [Hpct Hno].
    split; [exact Hpct |]. rewrite Hany, Hno. discriminate.
  - intros Hm. destruct (totals_dropped_moderate latest rest Hm) as [Havg Htest].
    split; [exact Havg |]. now rewrite Hany.
Qed.

(** ** The probe-connectivity check *)

Lemma len_app {A : Type} (l1 l2 : list A) : Py.len (l1 ++ l2) = Py.len l1 + Py.len l2.
Proof. unfold Py.len. rewrite length_app. lia. Qed.

Lemma percent_above (a b t : Z) :
  0 < b -> (inject_Z t < inject_Z a / inject_Z b * 100)%Q <-> t * b < 100 * a.
Proof.
  intros Hb. destruct b as [| p | p]; try lia.
  unfold Qlt, Qdiv, Qinv, Qmult, inject_Z. simpl Qnum. simpl Qden.
  rewrite Pos.mul_1_r. lia.
Qed.


(** ** The prefix-count detector *)

Lemma sum_ge_len (w : list Z) : Forall (fun x => 1 <= x) w -> Py.len w <= Py.sum w.
Proof.
  induction 1 as [| x w Hx _ IH]; [reflexivity |].
  rewrite len_cons. simpl. lia.
Qed.

Lemma mean_positive (w : list Z) :
  w <> [] -> Forall (fun x => 1 <= x) w -> (0 < mean w)%Q.
Proof.
  intros Hne Hpos. pose proof (len_pos w Hne) as Hlen.
  pose proof (sum_ge_len w Hpos) as Hsum. unfold mean.
  destruct (Py.len w) as [| p | p]; try lia.
  unfold Qlt, Qdiv, Qinv, Qmult, inject_Z. simpl. lia.
Qed.

Lemma truediv_float_positive (a : Z) (x : Q) :
  (0 < x)%Q -> Py.truediv_float a x = Ok (inject_Z a / x)%Q.
Proof.
  intros Hx. unfold Py.truediv_float.
  destruct (Qeq_bool x 0) eqn:E; [| reflexivity].
  apply Qeq_bool_iff in E. rewrite E in Hx. now apply Qlt_irrefl in Hx.
Qed.

Lemma prefixes_reasons_positive (asn latest : Z) (rest : list Z) :
  Forall (fun x => 1 <= x) (latest :: rest) ->
  exists rs, prefixes_reasons asn (latest :: rest) = Ok rs.
Proof.
  intros Hpos. unfold prefixes_reasons.
  rewrite truediv_window by discriminate. rewrite item0_window. unfold bind at 1 2.
  rewrite truediv_float_positive by (apply mean_positive; [discriminate | assumption]).
  simpl. now eexists.
Qed.

Lemma check_bgp_prefixes_positive (table_asn_key : dict Z (list row)) (h : history Z) :
  counts_positive table_asn_key -> windows_positive h ->
  exists h' rs,
    check_bgp_prefixes table_asn_key h = Ok (h', rs) /\ windows_positive h'.
Proof.
  intros Hcounts Hpos.
  assert (Hpos' : windows_positive (recording record_sample Py.len table_asn_key h)).
  { unfold recording. revert h Hpos.
    induction Hcounts as [| [asn rows] table Hrow _ IH]; intros h Hpos; [assumption |].
    simpl. apply IH. now apply record_sample_positive. }
  unfold check_bgp_prefixes.
  destruct (for_items_Ok prefixes_reasons
              (recording record_sample Py.len table_asn_key h)) as [rs Hrs].
  - intros asn w Hin.
    unfold windows_positive in Hpos'. rewrite Forall_forall in Hpos'.
    destruct (Hpos' _ Hin) as [Hne Hall]. simpl in Hne, Hall.
    destruct w as [| latest rest]; [congruence |].
    now apply prefixes_reasons_positive.
  - rewrite Hrs. simpl. eauto.
Qed.

Lemma cycles_bgp_prefixes_positive (tables : list (dict Z (list row))) (h : history Z) :
  Forall counts_positive tables -> windows_positive h ->
  exists h', cycles check_bgp_prefixes tables h = Ok h' /\ windows_positive h'.
Proof.
  intros Htables. revert h.
  induction Htables as [| table tables Htable _ IH]; intros h Hpos; simpl.
  - now exists h.
  - destruct (check_bgp_prefixes_positive table h Htable Hpos) as (h1 & rs & -> & Hpos1).
    simpl. now apply IH.
Qed.

(** The per-ASN lists that [fetch_bgp_table] builds are never empty. *)
Lemma fetch_bgp_table_counts_positive (table_list : list row) :
  counts_positive (fst (fetch_bgp_table table_list)).
Proof.
  unfold fetch_bgp_table.
  assert (Hgen : forall tables : dict Z (list row) * dict string (list row),
             counts_positive (fst tables) ->
             counts_positive
               (fst (fold_left
                       (fun tables x =>
                          (group_append (ASN x) x (fst tables),
                           group_append (CIDR x) x (snd tables)))
                       table_list tables))).
  { induction table_list as [| x rows IH]; intros tables Hpos; [assumption |].
    simpl. apply IH. simpl. unfold group_append, counts_positive in *.
    rewrite Forall_forall in *. intros [asn l] Hin.
    destruct (get (ASN x) (fst tables)) as [old |];
      apply In_set in Hin; destruct Hin as [[_ ->] | Hold]; simpl;
      try (now apply (Hpos (asn, l))).
    - rewrite len_app. pose proof (len_nonneg old). change (Py.len [x]) with 1. lia.
    - reflexivity. }
  apply Hgen. constructor.
Qed.

(** C9.  When every count of every cycle's per-ASN mapping is at least 1,
    the prefix-count detector returns in every cycle from the empty history
    on, and in the history it leaves every window has a strictly positive
    average, so that the division [latest / avg] has a result. *)
Theorem prefix_detector_never_divides_by_zero (tables : list (dict Z (list row))) :
  Forall counts_positive tables ->
  exists h,
    cycles check_bgp_prefixes tables [] = Ok h /\
    forall asn prefixes, In (asn, prefixes) h ->
      exists avg latest ratio,
        Py.truediv (Py.sum prefixes) (Py.len prefixes) = Ok avg /\
        (0 < avg)%Q /\
        Py.item0 prefixes = Ok latest /\
        Py.truediv_float latest avg = Ok ratio.
Proof.
  intros Htables.
  destruct (cycles_bgp_prefixes_positive tables [] Htables) as (h & Hrun & Hpos).
  { constructor. }
  exists h. split; [assumption |]. intros asn prefixes Hin.
  unfold windows_positive in Hpos. rewrite Forall_forall in Hpos.
  destruct (Hpos _ Hin) as [Hne Hall]. simpl in Hne, Hall.
  destruct prefixes as [| latest rest]; [congruence |].
  exists (mean (latest :: rest)), latest. eexists.
  split; [now apply truediv_window |].
  split; [now apply mean_positive |].
  split; [reflexivity |].
  apply truediv_float_positive. now apply mean_positive.
Qed.

(** ** The weighted score and the status ladder *)

Lemma weighted_reasons_sum (fr : Metric.t -> list reason) :
  weighted_reasons fr =
  (0 + inject_Z (Py.len (fr Metric.origins)) * 0.1
     + inject_Z (Py.len (fr Metric.prefixes)) * 0.2
     + inject_Z (Py.len (fr Metric.dns_root)) * 10
     + inject_Z (Py.len (fr Metric.atlas_connected)) * 1
     + inject_Z (Py.len (fr Metric.invalid_roa)) * 1
     + inject_Z (Py.len (fr Metric.total_roa)) * 5
     + inject_Z (Py.len (fr Metric.dfz)) * 1)%Q.
Proof. reflexivity. Qed.

Lemma weighted_reasons_monotone (fr fr' : Metric.t -> list reason) :
  (forall metric, Py.len (fr metric) <= Py.len (fr' metric)) ->
  (weighted_reasons fr <= weighted_reasons fr')%Q.
Proof.
  intros Hle. rewrite !weighted_reasons_sum.
  pose proof (inject_Z_le _ _ (Hle Metric.origins)).
  pose proof (inject_Z_le _ _ (Hle Metric.prefixes)).
  pose proof (inject_Z_le _ _ (Hle Metric.dns_root)).
  pose proof (inject_Z_le _ _ (Hle Metric.atlas_connected)).
  pose proof (inject_Z_le _ _ (Hle Metric.invalid_roa)).
  pose proof (inject_Z_le _ _ (Hle Metric.total_roa)).
  pose proof (inject_Z_le _ _ (Hle Metric.dfz)).
  lra.
Qed.

Ltac ladder_cases w :=
  unfold status, status_ladder;
  destruct (gtb_spec w (inject_Z 200));
  [| destruct (gtb_spec w (inject_Z 100));
  [| destruct (gtb_spec w (inject_Z 60));
  [| destruct (gtb_spec w (inject_Z 50));
  [| destruct (gtb_spec w (inject_Z 40));
  [| destruct (gtb_spec w (inject_Z 30));
  [| destruct (gtb_spec w (inject_Z 20));
  [| destruct (gtb_spec w (inject_Z 15));
  [| destruct (gtb_spec w (inject_Z 10));
  [| destruct (gtb_spec w (inject_Z 5));
  [| destruct (gtb_spec w (inject_Z 0)) ]]]]]]]]]].

Lemma status_monotone (w w' : Q) :
  (w <= w')%Q -> (tier (status w) <= tier (status w'))%nat.
Proof.
  intros Hle. unfold inject_Z in *.
  ladder_cases w; ladder_cases w';
    first [ exfalso; unfold inject_Z in *; lra
          | vm_compute; repeat constructor ].
Qed.

(** The ladder is total: every score gets one of the twelve labels, and the
    labels are pairwise distinct, so a label determines its tier. *)
Lemma status_in_ladder (w : Q) : In (status w) ladder.
Proof. ladder_cases w; simpl; tauto. Qed.

Lemma ladder_NoDup : NoDup ladder.
Proof. unfold ladder. repeat constructor; simpl; intuition discriminate. Qed.

Lemma metric_eq_dec (a b : Metric.t) : {a = b} + {a <> b}.
Proof. decide equality. Defined.

(** C6.  With the default weights, raising the number of reasons of one
    category and keeping the others never lowers the weighted score and
    never moves the status to a lower tier of the ladder. *)
Theorem more_reasons_never_lower (fr fr' : Metric.t -> list reason) (metric : Metric.t) :
  (forall other, other <> metric -> Py.len (fr' other) = Py.len (fr other)) ->
  Py.len (fr metric) <= Py.len (fr' metric) ->
  (weighted_reasons fr <= weighted_reasons fr')%Q /\
  (tier (status (weighted_reasons fr)) <= tier (status (weighted_reasons fr')))%nat.
Proof.
  intros Hsame Hmore.
  assert (Hle : (weighted_reasons fr <= weighted_reasons fr')%Q).
  { apply weighted_reasons_monotone. intros m.
    destruct (metric_eq_dec m metric) as [-> | Hne]; [assumption |].
    rewrite (Hsame m Hne). lia. }
  split; [assumption | now apply status_monotone].
Qed.

(** C2 (amended).  With the default weights, three reasons under [origins]
    and one under [dns_root], and none elsewhere, weigh 3 * 0.1 + 1 * 10 =
    10.3; the ladder tests [> 10] before [> 5], so the status is the label of
    the [> 10] tier and not that of the [> 5] tier. *)
Theorem weighting_scenario_status (fr : Metric.t -> list reason) :
  Py.len (fr Metric.origins) = 3 ->
  Py.len (fr Metric.dns_root) = 1 ->
  (forall metric, metric <> Metric.origins -> metric <> Metric.dns_root ->
     Py.len (fr metric) = 0) ->
  (weighted_reasons fr == 10.3)%Q /\
  status (weighted_reasons fr) = "The Internet is somewhat fucked"%string /\
  status (weighted_reasons fr) <> "The Internet is partially fucked"%string.
Proof.
  intros Ho Hd Hrest. rewrite weighted_reasons_sum, Ho, Hd.
  rewrite !Hrest by discriminate.
  split; [reflexivity |]. split; [reflexivity | discriminate].
Qed.

(** ** Closed instances *)

Ltac nodup_literal := repeat constructor; simpl; intuition discriminate.


Lemma total_roa_detector_emits_exactly_witness :
  exists h' rs rest,
    check_rpki_totals roa_outage_input roa_outage_history = Ok (h', rs) /\
    get "ripe"%string h' = Some (50 :: rest) /\
    exists p a l, In (RoaDecreased "ripe" p a l) rs.
Proof.
  destruct (total_roa_detector_emits_exactly roa_outage_input roa_outage_history)
    as (h' & rs & Hcheck & Hfront & Hemit).
  - nodup_literal.
  - nodup_literal.
  - repeat constructor. discriminate.
  - repeat constructor. vm_compute. discriminate.
  - repeat constructor; vm_compute; discriminate.
  - destruct (Hfront "ripe"%string 50) as [rest Hrest].
    + left. reflexivity.
    + exists h', rs, rest. split; [assumption |]. split; [assumption |].
      destruct (Hemit "ripe"%string 50 rest Hrest) as (_ & _ & _ & _ & _ & Hmoderate).
      assert (Hwindow : rest = [1000; 1000; 1000]).
      { vm_compute in Hcheck. injection Hcheck as <- _. vm_compute in Hrest. congruence. }
      subst rest. apply Hmoderate.
      * split; [repeat constructor; lia |]. split; vm_compute; discriminate.
      * rewrite (proj1 (Hmoderate ltac:(split; [repeat constructor; lia |];
                                          split; vm_compute; discriminate))).
        vm_compute. reflexivity.
Defined.

Lemma prefix_detector_never_divides_by_zero_witness :
  exists h,
    cycles check_bgp_prefixes
      [fst (fetch_bgp_table single_origin); fst (fetch_bgp_table three_origins)] []
    = Ok h.
Proof.
  destruct (prefix_detector_never_divides_by_zero
              [fst (fetch_bgp_table single_origin); fst (fetch_bgp_table three_origins)])
    as (h & Hrun & _).
  - repeat constructor; vm_compute; discriminate.
  - exists h. exact Hrun.
Defined.

Lemma more_reasons_never_lower_witness :
  (weighted_reasons no_reasons <= weighted_reasons one_dns_reason)%Q /\
  (tier (status (weighted_reasons no_reasons))
   <= tier (status (weighted_reasons one_dns_reason)))%nat.
Proof.
  apply (more_reasons_never_lower no_reasons one_dns_reason Metric.dns_root).
  - intros other Hne. destruct other; try reflexivity. now destruct Hne.
  - vm_compute. discriminate.
Defined.

Lemma weighting_scenario_status_witness :
  status (weighted_reasons scenario_reasons) = "The Internet is somewhat fucked"%string.
Proof.
  apply (weighting_scenario_status scenario_reasons).
  - reflexivity.
  - reflexivity.
  - intros metric Ho Hd. destruct metric; try reflexivity; congruence.
Defined.

(** C2, as stated, fails: the score of the scenario is 10.3, and the status is
    not the label of the [> 5] tier. *)
Lemma weighting_scenario_counterexample :
  (weighted_reasons scenario_reasons == 10.3)%Q /\
  ~ (status (weighted_reasons scenario_reasons) = "The Internet is partially fucked"%string
     /\ status (weighted_reasons scenario_reasons)
        <> "The Internet is somewhat fucked"%string).
Proof.
  split; [reflexivity |]. intros [Hpartial _]. vm_compute in Hpartial. discriminate.
Qed.

(** The same scenario in binary64 arithmetic: the score is the double nearest
    to 10.3 and the status is the label of the [> 10] tier. *)
Lemma weighting_scenario_binary64 :
  PrimFloat.eqb (Binary64.weighted_reasons scenario_reasons) 0x1.499999999999ap+3 = true /\
  Binary64.status (Binary64.weighted_reasons scenario_reasons)
  = "The Internet is somewhat fucked"%string.
Proof. split; vm_compute; reflexivity. Qed.

(** ** Detection on an empty input mapping *)

Lemma for_items_nil {K V : Type} (body : K -> V -> result (list reason))
    (d : dict K V) (rs : list reason) :
  for_items body d = Ok rs ->
  (rs = [] <-> forall k v, In (k, v) d -> body k v = Ok []).
Proof.
  revert rs. induction d as [| [k v] d IH]; intros rs; simpl.
  - intros [= <-]. split; [intros _ ? ? [] | reflexivity].
  - destruct (body k v) as [here |] eqn:Ehere; simpl; [| discriminate].
    destruct (for_items body d) as [later |] eqn:Elater; simpl; [| discriminate].
    intros [= <-]. specialize (IH later eq_refl). split.
    + intros Hnil. apply app_eq_nil in Hnil. destruct Hnil as [-> ->].
      intros k' v' [[= <- <-] | Hin]; [assumption | now apply IH].
    + intros Hall.
      assert (here = []) as ->.
      { specialize (Hall k v (or_introl eq_refl)). congruence. }
      assert (later = []) as ->; [| reflexivity].
      apply IH. intros k' v' Hin. apply Hall. now right.
Qed.

Lemma origins_reasons_nil (pfx : string) (latest : Z) (rest : list Z) :
  origins_reasons pfx (latest :: rest) = Ok [] <->
  ~ (mean (latest :: rest) < inject_Z latest /\ mean (latest :: rest) < 2)%Q /\
  ~ (latest < 2 /\ (5 < mean (latest :: rest))%Q).
Proof.
  rewrite origins_reasons_window.
  destruct (gtb_spec (inject_Z latest) (mean (latest :: rest)));
    destruct (ltb_spec (mean (latest :: rest)) 2);
    destruct (Z.ltb_spec latest 2);
    destruct (gtb_spec (mean (latest :: rest)) 5); simpl;
    (split;
     [ intros E; try discriminate E;
       split; intros [? ?]; solve [contradiction | lia]
     | intros [H1 H2]; try reflexivity; exfalso;
       first [apply H1; split; assumption | apply H2; split; assumption] ]).
Qed.

(** C3 (amended).  Called with an empty input mapping, [check_bgp_origins]
    and [check_bgp_prefixes] record nothing, return the history unchanged and
    do not raise (on a history with non-empty windows, of positive counts for
    the prefix detector); detection still runs over every tracked window: the
    origin reasons are empty exactly when no stored window meets one of the
    two conditions, and both detectors return no reason on the empty
    history. *)
Theorem detectors_on_empty_input (origins_history : history string)
    (prefixes_history : history Z) :
  windows_nonempty origins_history -> windows_positive prefixes_history ->
  (exists rs,
     check_bgp_origins [] origins_history = Ok (origins_history, rs) /\
     (rs = [] <->
      forall pfx latest rest, In (pfx, latest :: rest) origins_history ->
        ~ (mean (latest :: rest) < inject_Z latest /\ mean (latest :: rest) < 2)%Q /\
        ~ (latest < 2 /\ (5 < mean (latest :: rest))%Q))) /\
  (exists rs, check_bgp_prefixes [] prefixes_history = Ok (prefixes_history, rs)) /\
  check_bgp_origins [] [] = Ok ([], []) /\
  check_bgp_prefixes [] [] = Ok ([], []).
Proof.
  intros Hne Hpos. split; [| split; [| split; reflexivity]].
  - destruct (check_bgp_origins_Ok [] origins_history Hne) as (rs & Hcheck & Hrs).
    exists rs. split; [exact Hcheck |].
    change (recording record_sample Py.len [] origins_history)
      with origins_history in Hrs.
    rewrite (for_items_nil _ _ _ Hrs).
    unfold windows_nonempty in Hne. rewrite Forall_forall in Hne. split.
    + intros Hall pfx latest rest Hin.
      apply (proj1 (origins_reasons_nil pfx latest rest)). now apply Hall.
    + intros Hall pfx [| latest rest] Hin; [now destruct (Hne _ Hin) |].
      apply (proj2 (origins_reasons_nil pfx latest rest)). now apply (Hall pfx).
  - destruct (check_bgp_prefixes_positive [] prefixes_history) as (h' & rs & Hcheck & _);
      [constructor | assumption |].
    exists rs. unfold check_bgp_prefixes in *.
    change (recording record_sample Py.len [] prefixes_history)
      with prefixes_history in *.
    destruct (for_items prefixes_reasons prefixes_history); simpl in *; congruence.
Qed.

Lemma detectors_on_empty_input_witness :
  exists rs, check_bgp_origins [] stale_origins = Ok (stale_origins, rs).
Proof.
  destruct (detectors_on_empty_input stale_origins steady_prefixes)
    as ((rs & Hcheck & _) & _).
  - repeat constructor. discriminate.
  - repeat constructor; try discriminate; vm_compute; discriminate.
  - exists rs. exact Hcheck.
Defined.

(** C3, as stated, fails: the history [stale_origins] is what three cycles
    leave behind, and on it the detector called with an empty mapping emits a
    reason. *)
Lemma empty_input_counterexample :
  cycles check_bgp_origins
    [ snd (fetch_bgp_table single_origin); snd (fetch_bgp_table single_origin);
      snd (fetch_bgp_table three_origins) ] []
  = Ok stale_origins /\
  check_bgp_origins [] stale_origins
  = Ok (stale_origins, [OriginsAbove "192.0.2.0/24" 3 1]) /\
  ~ (exists h', check_bgp_origins [] stale_origins = Ok (h', [])).
Proof.
  split; [reflexivity |]. split; [reflexivity |].
  intros [h' Hh']. vm_compute in Hh'. discriminate.
Qed.

(** ** Window bounds *)

Lemma firstn_app_firstn {A : Type} (a b : list A) (n m : nat) :
  (n <= m + List.length a)%nat -> firstn n (a ++ firstn m b) = firstn n (a ++ b).
Proof.
  revert n. induction a as [| x a IH]; intros n Hn; simpl in *.
  - rewrite firstn_firstn. now replace (Nat.min n m) with n by lia.
  - destruct n as [| n]; [reflexivity |]. simpl. f_equal. apply IH. lia.
Qed.

(** The guarded update of [check_bgp_origins], [check_bgp_prefixes] and
    [check_dfz] keeps the [max_history] newest samples. *)
Lemma bounded_push (sample : Z) (window : list Z) :
  (List.length window <= Z.to_nat max_history)%nat ->
  (if Py.len (Py.insert0 sample window) >? max_history
   then Py.pop (Py.insert0 sample window)
   else Py.insert0 sample window)
  = firstn (Z.to_nat max_history) (sample :: window).
Proof.
  intros Hlen. unfold Py.insert0, Py.pop, Py.len.
  destruct (Z.gtb_spec (Z.of_nat (List.length (sample :: window))) max_history) as [Hgt | Hle].
  - rewrite removelast_firstn_len. f_equal.
    simpl List.length in *. unfold max_history in *. lia.
  - symmetry. apply firstn_all2. unfold max_history in *. lia.
Qed.

Lemma dfz_record_window (count : Z) (window : list Z) :
  (List.length window <= Z.to_nat max_history)%nat ->
  dfz_record count window = firstn (Z.to_nat max_history) (count :: window).
Proof. apply bounded_push. Qed.

Lemma record_sample_window {K : Type} `{Hashable K} (k : K) (sample : Z)
    (h : history K) (window : list Z) :
  get k h = Some window ->
  (List.length window <= Z.to_nat max_history)%nat ->
  get k (record_sample k sample h)
  = Some (firstn (Z.to_nat max_history) (sample :: window)).
Proof.
  intros Hget Hlen. unfold record_sample. rewrite Hget.
  rewrite <- (bounded_push sample window Hlen).
  destruct (Py.len (Py.insert0 sample window) >? max_history);
    now rewrite get_set_same.
Qed.

(** After [N >= 1] recordings into a key that was not tracked, the window of
    [record_sample] holds the [min N max_history] newest samples, newest
    first. *)
Lemma record_sample_iterated {K : Type} `{Hashable K} (k : K) (first : Z)
    (samples : list Z) (h : history K) :
  get k h = None ->
  get k (fold_left (fun h sample => record_sample k sample h) (first :: samples) h)
  = Some (firstn (Z.to_nat max_history) (rev (first :: samples))).
Proof.
  intros Hnone.
  assert (Hgen : forall samples h window,
             get k h = Some window ->
             (List.length window <= Z.to_nat max_history)%nat ->
             get k (fold_left (fun h sample => record_sample k sample h) samples h)
             = Some (firstn (Z.to_nat max_history) (rev samples ++ window))).
  { clear. induction samples as [| s samples IH]; intros h window Hget Hlen.
    - cbn [fold_left rev app]. now rewrite firstn_all2.
    - cbn [fold_left].
      rewrite (IH _ _ (record_sample_window k s h window Hget Hlen)).
      + cbn [rev]. rewrite <- app_assoc. change ([s] ++ window) with (s :: window).
        f_equal. apply firstn_app_firstn. lia.
      + rewrite length_firstn. lia. }
  cbn [fold_left].
  rewrite (Hgen samples (record_sample k first h) [first]).
  - cbn [rev]. reflexivity.
  - unfold record_sample. rewrite Hnone. apply get_set_same.
  - cbn [List.length]. unfold max_history. lia.
Qed.

Lemma record_sample_iterated_length {K : Type} `{Hashable K} (k : K) (first : Z)
    (samples : list Z) (h : history K) :
  get k h = None ->
  exists window,
    get k (fold_left (fun h sample => record_sample k sample h) (first :: samples) h)
    = Some window /\
    Py.len window = Z.min (Py.len (first :: samples)) max_history.
Proof.
  intros Hnone. eexists. split; [now apply record_sample_iterated |].
  unfold Py.len. rewrite length_firstn, length_rev. unfold max_history. lia.
Qed.

(** C1.  The bound fails for the two RPKI histories: their update compares
    the number of repositories, not the length of the window, with
    [max_history].  After 25 cycles with one repository that publishes
    [1], ..., [25] ROAs (or invalid ROAs) the window holds all 25 samples,
    the oldest included. *)
Theorem rpki_windows_outgrow_max_history :
  cycles check_rpki_totals rpki_cycles []
  = Ok [ ("ripe"%string, map Z.of_nat (rev (seq 1 25))) ] /\
  cycles check_rpki_invalids rpki_cycles []
  = Ok [ ("ripe"%string, map Z.of_nat (rev (seq 1 25))) ] /\
  Py.len (map Z.of_nat (rev (seq 1 25))) = 25 /\
  Z.min 25 max_history = 24.
Proof. repeat split; vm_compute; reflexivity. Qed.

(** ** The DFZ detector *)

Lemma counted_as_v6_spec (pfx : string) :
  counted_as_v6 pfx = true <-> exists n, String.index 0 "::/" pfx = Some (S n).
Proof.
  unfold counted_as_v6, Py.find.
  destruct (String.index 0 "::/" pfx) as [[| n] |]; simpl; split;
    try discriminate; try (intros [? [=]]); try reflexivity.
  - intros _. now exists n.
Qed.

(** C4.  The prefix ["::/0"] contains ["::/"], at index 0; the test
    [find('::/') > 0] rejects that index, and the prefix is counted as IPv4. *)
Theorem default_v6_route_counted_as_v4 :
  String.index 0 "::/" "::/0" = Some 0%nat /\
  Py.find "::/0" "::/" = 0 /\
  counted_as_v6 "::/0" = false /\
  counted_as_v6 "2001:db8::/32" = true /\
  dfz_count [ ("::/0"%string, [ {| ASN := 64500; CIDR := "::/0" |} ]) ] = (0, 1).
Proof. repeat split; vm_compute; reflexivity. Qed.

(** C10.  On the first cycle without prefixes both counts are 0, both
    windows become [[0]], the average of the IPv6 window is 0 and the
    division by it raises [ZeroDivisionError]: [check_dfz] has no result. *)
Theorem check_dfz_first_cycle_without_prefixes :
  dfz_count [] = (0, 0) /\
  dfz_record 0 [] = [0] /\
  (exists avg, Py.truediv (Py.sum [0]) (Py.len [0]) = Ok avg /\ (avg == 0)%Q /\
               Py.truediv_float 0 avg = Raise ZeroDivisionError) /\
  check_dfz [] {| v6 := []; v4 := [] |} = Raise ZeroDivisionError.
Proof.
  split; [reflexivity |]. split; [reflexivity |]. split; [| reflexivity].
  eexists. split; [reflexivity |]. split; reflexivity.
Qed.

(** ** Histories that [main] can reach

    From the empty history on, the origin detector returns in every cycle,
    whatever the inputs, and so does the total-ROA detector as long as no
    total is beyond [huge]; both leave a history with distinct keys and
    non-empty windows. *)

Lemma cycles_invariant {I H : Type} (check : I -> H -> result (H * list reason))
    (Inv : H -> Prop) :
  (forall input h, Inv h -> exists h' rs, check input h = Ok (h', rs) /\ Inv h') ->
  forall inputs h, Inv h -> exists h', cycles check inputs h = Ok h' /\ Inv h'.
Proof.
  intros Hstep. induction inputs as [| input inputs IH]; intros h Hh; simpl.
  - now exists h.
  - destruct (Hstep input h Hh) as (h1 & rs & -> & Hh1). simpl. now apply IH.
Qed.

Lemma cycles_bgp_origins_reachable (tables : list (dict string (list row))) :
  exists h,
    cycles check_bgp_origins tables [] = Ok h /\ NoDup (keys h) /\ windows_nonempty h.
Proof.
  apply (cycles_invariant check_bgp_origins
           (fun h => NoDup (keys h) /\ windows_nonempty h)).
  - intros table h [Hnd Hne].
    destruct (check_bgp_origins_Ok table h Hne) as (rs & Hcheck & _).
    eexists _, rs. split; [exact Hcheck |]. split.
    + apply recording_NoDup; [| assumption]. intros k v h0. apply record_sample_NoDup.
    + apply (recording_Inv record_sample Py.len windows_nonempty); [| assumption].
      intros k v h0. apply record_sample_nonempty.
  - split; constructor.
Qed.

Lemma cycles_invariant_on {I H : Type} (check : I -> H -> result (H * list reason))
    (accepted : I -> Prop) (Inv : H -> Prop) :
  (forall input h, accepted input -> Inv h ->
     exists h' rs, check input h = Ok (h', rs) /\ Inv h') ->
  forall inputs h, Forall accepted inputs -> Inv h ->
    exists h', cycles check inputs h = Ok h' /\ Inv h'.
Proof.
  intros Hstep. induction inputs as [| input inputs IH]; intros h Hin Hh; simpl.
  - now exists h.
  - inversion Hin as [| i l Hinput Hrest]; subst.
    destruct (Hstep input h Hinput Hh) as (h1 & rs & -> & Hh1). simpl. now apply IH.
Qed.

Lemma cycles_rpki_totals_reachable (inputs : list (dict string Z)) :
  Forall (counts_within huge) inputs ->
  exists h,
    cycles check_rpki_totals inputs [] = Ok h /\
    (NoDup (keys h) /\ windows_nonempty h /\ samples_within huge h).
Proof.
  intros Hin.
  apply (cycles_invariant_on check_rpki_totals (counts_within huge)
           (fun h => NoDup (keys h) /\ windows_nonempty h /\ samples_within huge h));
    [| assumption | repeat split; constructor].
  intros total_roa h Hcounts (Hnd & Hne & Hsamples).
  destruct (recording_rpki_facts (fun count => count) total_roa h Hnd Hne)
    as (Hnd' & Hne' & _).
  destruct (check_rpki_totals_detection total_roa h Hnd Hne Hcounts Hsamples)
    as (rs & Hcheck & _).
  eexists _, rs. split; [exact Hcheck |]. split; [assumption |]. split; [assumption |].
  now apply recording_rpki_within.
Qed.

(** ** The scenarios of the specification, evaluated *)

Example origin_hijack_scenario :
  check_bgp_origins
    (snd (fetch_bgp_table three_origins))
    [ ("192.0.2.0/24"%string, [1; 1; 1]); ("198.51.100.0/24"%string, [5; 5; 5]) ]
  = Ok ([ ("192.0.2.0/24"%string, [3; 1; 1; 1]); ("198.51.100.0/24"%string, [5; 5; 5]) ],
        [ OriginsAbove "192.0.2.0/24" 3 1 ]).
Proof. reflexivity. Qed.

Example anycast_scenario :
  check_bgp_origins
    [ ("198.51.100.0/24"%string, three_origins ++ three_origins) ]
    [ ("198.51.100.0/24"%string, [5; 5; 5]) ]
  = Ok ([ ("198.51.100.0/24"%string, [6; 5; 5; 5]) ], []).
Proof. reflexivity. Qed.

Example roa_outage_scenario :
  exists pct,
    check_rpki_totals roa_outage_input roa_outage_history
    = Ok ([ ("ripe"%string, [50; 1000; 1000; 1000]) ],
          [ RoaDecreased "ripe" (Double.Finite pct) 762 50 ]) /\
    (6561679790026246 # 1000000000000000 < pct < 6561679790026248 # 1000000000000000)%Q.
Proof. eexists. split; [vm_compute; reflexivity |]. split; reflexivity. Qed.

Example dfz_growth_scenario :
  check_dfz
    [ ("2001:db8::/32"%string, single_origin); ("192.0.2.0/24"%string, single_origin);
      ("198.51.100.0/24"%string, single_origin) ]
    {| v6 := [1; 1]; v4 := [1; 1] |}
  = Ok ({| v6 := [1; 1; 1]; v4 := [2; 1; 1] |},
        [ DfzV4Increased (Py.round1 (inject_Z 2 / mean [2; 1; 1] * 100) - 100) 1 2 ]).
Proof. reflexivity. Qed.

Example probes_scenario :
  check_ripe_atlas_status {| connected := []; disconnected := [] |} = Ok [] /\
  check_ripe_atlas_status {| connected := [1; 2; 3; 4; 5; 6; 7; 8; 9]; disconnected := [10] |}
  = Ok [] /\
  exists rate,
    check_ripe_atlas_status {| connected := [1; 2; 3; 4; 5; 6; 7; 8]; disconnected := [9] |}
    = Ok [ AtlasDisconnected rate ] /\ (rate == 100 # 9)%Q.
Proof. split; [reflexivity |]. split; [reflexivity |]. eexists. split; reflexivity. Qed.

Example prefix_drop_scenario :
  check_bgp_prefixes [ (64500, single_origin) ] [ (64500, [100; 100; 100]) ]
  = Ok ([ (64500, [1; 100; 100; 100]) ], [ PrefixesFewer 64500 1 99 76 ]).
Proof. reflexivity. Qed.

(** * Further properties of the script *)

(** ** The grouping of [fetch_bgp_table] *)

Section Grouping.
Context {K : Type} `{Hashable K}.
Variable key : row -> K.

Lemma grouped_NoDup (table_list : list row) (table : dict K (list row)) :
  NoDup (keys table) -> NoDup (keys (grouped key table_list table)).
Proof.
  unfold grouped. revert table.
  induction table_list as [| x rows IH]; intros table Hnd; [assumption |].
  simpl. apply IH. unfold group_append.
  destruct (get (key x) table); now apply NoDup_keys_set.
Qed.

Lemma grouped_get (table_list : list row) (table : dict K (list row)) (k : K) :
  get k (grouped key table_list table) =
  match get k table, filter (fun x => key_eqb (key x) k) table_list with
  | Some old, new => Some (old ++ new)
  | None, [] => None
  | None, new => Some new
  end.
Proof.
  unfold grouped. revert table.
  induction table_list as [| x rows IH]; intros table.
  - simpl. destruct (get k table); [now rewrite app_nil_r | reflexivity].
  - cbn [fold_left filter]. rewrite IH. unfold group_append.
    destruct (key_eqb_spec (key x) k) as [E | Hne].
    + rewrite E. destruct (get k table) as [old |]; rewrite get_set_same.
      * now rewrite <- app_assoc.
      * reflexivity.
    + assert (Hother : forall v, get k (set (key x) v table) = get k table).
      { intros v. apply get_set_other. congruence. }
      destruct (get (key x) table); now rewrite Hother.
Qed.

Lemma grouped_row (table_list : list row) (x : row) :
  In x table_list ->
  get (key x) (grouped key table_list [])
  = Some (filter (fun y => key_eqb (key y) (key x)) table_list).
Proof.
  intros Hx. rewrite grouped_get. cbn [get].
  destruct (filter (fun y => key_eqb (key y) (key x)) table_list) eqn:E; [| reflexivity].
  assert (Hin : In x (filter (fun y => key_eqb (key y) (key x)) table_list)).
  { apply filter_In. split; [assumption | apply key_eqb_refl]. }
  rewrite E in Hin. destruct Hin.
Qed.

End Grouping.

Lemma fetch_bgp_table_grouped (table_list : list row) :
  fetch_bgp_table table_list = (grouped ASN table_list [], grouped CIDR table_list []).
Proof.
  unfold fetch_bgp_table, grouped.
  generalize (@nil (Z * list row)) as by_asn, (@nil (string * list row)) as by_pfx.
  induction table_list as [| x rows IH]; intros by_asn by_pfx; [reflexivity |].
  simpl. apply IH.
Qed.

(** X1.  [fetch_bgp_table] files every row under its ASN and under its
    prefix, in the order of the table: the entry of a key is the list of the
    rows that carry the key, a key without a row has no entry, and no key
    occurs twice. *)
Theorem fetch_bgp_table_groups (table_list : list row) :
  NoDup (keys (fst (fetch_bgp_table table_list))) /\
  NoDup (keys (snd (fetch_bgp_table table_list))) /\
  (forall asn,
     get asn (fst (fetch_bgp_table table_list)) =
     match filter (fun x => ASN x =? asn) table_list with
     | [] => None
     | rows => Some rows
     end) /\
  (forall pfx,
     get pfx (snd (fetch_bgp_table table_list)) =
     match filter (fun x => String.eqb (CIDR x) pfx) table_list with
     | [] => None
     | rows => Some rows
     end).
Proof.
  rewrite fetch_bgp_table_grouped. cbn [fst snd]. repeat split.
  - apply grouped_NoDup. constructor.
  - apply grouped_NoDup. constructor.
  - intros asn. now rewrite grouped_get.
  - intros pfx. now rewrite grouped_get.
Qed.

(** ** What the BGP detectors count *)

Lemma record_sample_front_value {K : Type} `{Hashable K} (k : K) (v : Z) (h : history K) :
  True -> exists rest, get k (record_sample k v h) = Some (v :: rest).
Proof. intros _. destruct (record_sample_front k v h) as (rest & E & _). eauto. Qed.

Lemma recording_sample_front {K V : Type} `{Hashable K} (value : V -> Z)
    (input : dict K V) (h : history K) (k : K) (x : V) :
  NoDup (keys input) -> In (k, x) input ->
  exists rest, get k (recording record_sample value input h) = Some (value x :: rest).
Proof.
  intros Hnd Hin.
  apply (recording_front record_sample value (fun _ => True)); auto.
  - intros k0 v h0. apply record_sample_front_value.
  - intros k0 k1 v h0. apply record_sample_other.
Qed.

Lemma check_bgp_prefixes_recording (table_asn_key : dict Z (list row)) (h h' : history Z)
    (rs : list reason) :
  check_bgp_prefixes table_asn_key h = Ok (h', rs) ->
  h' = recording record_sample Py.len table_asn_key h /\
  for_items prefixes_reasons h' = Ok rs.
Proof.
  unfold check_bgp_prefixes.
  destruct (for_items prefixes_reasons (recording record_sample Py.len table_asn_key h))
    as [rs' |] eqn:E; simpl; [| discriminate].
  intros [= <- <-]. now split.
Qed.

(** X2.  The sample recorded for a prefix is the number of rows of the table
    that carry the prefix, and the sample recorded for an ASN the number of
    rows that carry the ASN: a row listed twice counts twice. *)
Theorem bgp_samples_count_rows (table_list : list row)
    (origins_history : history string) (prefixes_history : history Z) :
  windows_nonempty origins_history -> windows_positive prefixes_history ->
  (exists h' rs,
     check_bgp_origins (snd (fetch_bgp_table table_list)) origins_history = Ok (h', rs) /\
     forall x, In x table_list ->
       exists rest,
         get (CIDR x) h'
         = Some (Py.len (filter (fun y => String.eqb (CIDR y) (CIDR x)) table_list)
                 :: rest)) /\
  (exists h' rs,
     check_bgp_prefixes (fst (fetch_bgp_table table_list)) prefixes_history = Ok (h', rs) /\
     forall x, In x table_list ->
       exists rest,
         get (ASN x) h'
         = Some (Py.len (filter (fun y => ASN y =? ASN x) table_list) :: rest)).
Proof.
  intros Hne Hpos. rewrite fetch_bgp_table_grouped. cbn [fst snd]. split.
  - destruct (check_bgp_origins_Ok (grouped CIDR table_list []) origins_history Hne)
      as (rs & Hcheck & _).
    eexists _, rs. split; [exact Hcheck |]. intros x Hx.
    apply (recording_sample_front (@Py.len row)).
    + apply grouped_NoDup. constructor.
    + apply get_In. exact (grouped_row CIDR table_list x Hx).
  - destruct (check_bgp_prefixes_positive (grouped ASN table_list []) prefixes_history)
      as (h' & rs & Hcheck & _); [| assumption |].
    { pose proof (fetch_bgp_table_counts_positive table_list) as Hc.
      now rewrite fetch_bgp_table_grouped in Hc. }
    exists h', rs. split; [exact Hcheck |]. intros x Hx.
    apply check_bgp_prefixes_recording in Hcheck. destruct Hcheck as [-> _].
    apply (recording_sample_front (@Py.len row)).
    + apply grouped_NoDup. constructor.
    + apply get_In. exact (grouped_row ASN table_list x Hx).
Qed.

Lemma bgp_samples_count_rows_witness :
  exists h' rs rest,
    check_bgp_origins (snd (fetch_bgp_table (three_origins ++ three_origins))) stale_origins
    = Ok (h', rs) /\
    get "192.0.2.0/24"%string h' = Some (6 :: rest).
Proof.
  destruct (bgp_samples_count_rows (three_origins ++ three_origins)
              stale_origins steady_prefixes) as ((h' & rs & Hcheck & Hfront) & _).
  - repeat constructor. discriminate.
  - repeat constructor; try discriminate; vm_compute; discriminate.
  - destruct (Hfront {| ASN := 64500; CIDR := "192.0.2.0/24" |}) as [rest Hrest].
    + left. reflexivity.
    + exists h', rs, rest. split; assumption.
Defined.

(** ** Bounded windows and tracked keys *)

Lemma windows_bounded_nonempty {K : Type} (h : history K) :
  windows_bounded h -> windows_nonempty h.
Proof.
  unfold windows_bounded, windows_nonempty. rewrite !Forall_forall.
  intros Hb e He. specialize (Hb e He). destruct (snd e); [| discriminate].
  change (Py.len (@nil Z)) with 0 in Hb. lia.
Qed.

Section TrackedKeys.
Context {K : Type} `{Hashable K}.

Lemma In_keys_get {V : Type} (k : K) (d : dict K V) :
  In k (keys d) <-> exists v, get k d = Some v.
Proof.
  split.
  - intros Hin. destruct (get k d) as [v |] eqn:E; [now exists v |].
    now apply get_None in E.
  - intros [v Hv]. apply get_In in Hv. change k with (fst (k, v)). now apply in_map.
Qed.

Lemma record_sample_bounded (k : K) (v : Z) (h : history K) :
  windows_bounded h -> windows_bounded (record_sample k v h).
Proof.
  unfold windows_bounded. rewrite !Forall_forall. intros Hb [k0 w0] Hin.
  destruct (record_sample_In _ _ _ _ _ Hin) as [[_ E] | Hold]; [| now apply Hb].
  cbn [snd]. destruct (get k h) as [w |] eqn:Hget.
  - pose proof (Hb _ (get_In _ _ _ Hget)) as Hw. cbn [snd] in Hw.
    assert (Hlen : (List.length w <= Z.to_nat max_history)%nat).
    { unfold Py.len in Hw. lia. }
    rewrite (record_sample_window k v h w Hget Hlen) in E.
    assert (Hw0 : w0 = firstn (Z.to_nat max_history) (v :: w)) by congruence.
    rewrite Hw0. unfold Py.len. rewrite length_firstn. cbn [List.length].
    unfold max_history in *. lia.
  - unfold record_sample in E. rewrite Hget, get_set_same in E.
    assert (Hw0 : w0 = [v]) by congruence.
    rewrite Hw0. unfold max_history. now vm_compute.
Qed.

Lemma recording_sample_bounded {V : Type} (value : V -> Z) (input : dict K V)
    (h : history K) :
  windows_bounded h -> windows_bounded (recording record_sample value input h).
Proof.
  apply (recording_Inv record_sample value windows_bounded).
  intros k v h0. apply record_sample_bounded.
Qed.

Lemma recording_sample_keys {V : Type} (value : V -> Z) (input : dict K V)
    (h : history K) (k : K) :
  In k (keys h) \/ In k (keys input) ->
  In k (keys (recording record_sample value input h)).
Proof.
  unfold recording. revert h.
  induction input as [| [k0 x] input IH]; intros h; cbn [fold_left keys map fst].
  - intros [Hin | []]. exact Hin.
  - intros Hin. apply IH.
    destruct (key_eqb_spec k k0) as [-> | Hne].
    + left. apply In_keys_get.
      destruct (record_sample_front k0 (value x) h) as (rest & E & _). eauto.
    + destruct Hin as [Hin | [E | Hin]]; [| congruence | now right].
      left. apply In_keys_get. rewrite record_sample_other by assumption.
      now apply In_keys_get.
Qed.

Lemma recording_sample_untouched {V : Type} (value : V -> Z) (input : dict K V)
    (h : history K) (k : K) :
  ~ In k (keys input) -> get k (recording record_sample value input h) = get k h.
Proof.
  apply recording_other. intros k0 k1 v h0. apply record_sample_other.
Qed.

End TrackedKeys.

(** X3.  From the empty history on, whatever the tables of the cycles, the
    origin detector returns and every window of the history it leaves holds
    between 1 and [max_history] samples; the same holds for the prefix-count
    detector on tables whose counts are at least 1. *)
Theorem bgp_windows_stay_bounded (pfx_tables : list (dict string (list row)))
    (asn_tables : list (dict Z (list row))) :
  Forall counts_positive asn_tables ->
  (exists h, cycles check_bgp_origins pfx_tables [] = Ok h /\ windows_bounded h) /\
  (exists h, cycles check_bgp_prefixes asn_tables [] = Ok h /\ windows_bounded h).
Proof.
  intros Hcounts. split.
  - apply (cycles_invariant check_bgp_origins windows_bounded); [| constructor].
    intros table h Hb.
    destruct (check_bgp_origins_Ok table h (windows_bounded_nonempty h Hb))
      as (rs & Hcheck & _).
    eexists _, rs. split; [exact Hcheck |]. now apply recording_sample_bounded.
  - assert (Hgen : forall h, windows_positive h -> windows_bounded h ->
               exists h', cycles check_bgp_prefixes asn_tables h = Ok h' /\
                          windows_bounded h').
    { induction Hcounts as [| table tables Htable _ IH]; intros h Hpos Hb; simpl.
      - now exists h.
      - destruct (check_bgp_prefixes_positive table h Htable Hpos)
          as (h1 & rs & Hcheck & Hpos1).
        rewrite Hcheck. simpl.
        apply check_bgp_prefixes_recording in Hcheck. destruct Hcheck as [-> _].
        apply IH; [assumption | now apply recording_sample_bounded]. }
    apply Hgen; constructor.
Qed.

Lemma bgp_windows_stay_bounded_witness :
  exists h,
    cycles check_bgp_prefixes
      [fst (fetch_bgp_table single_origin); fst (fetch_bgp_table three_origins)] []
    = Ok h /\ windows_bounded h.
Proof.
  apply (bgp_windows_stay_bounded
           [] [fst (fetch_bgp_table single_origin); fst (fetch_bgp_table three_origins)]).
  repeat constructor; vm_compute; discriminate.
Defined.

(** X4.  [check_bgp_origins] never drops a key: a prefix tracked before the
    call is tracked after it, every prefix of the table is tracked after it,
    and a prefix that is absent from the table keeps its window as it was. *)
Theorem origins_keys_never_removed (table_pfx_key : dict string (list row))
    (h : history string) :
  windows_nonempty h ->
  exists h' rs,
    check_bgp_origins table_pfx_key h = Ok (h', rs) /\
    (forall pfx, In pfx (keys h) -> In pfx (keys h')) /\
    (forall pfx, In pfx (keys table_pfx_key) -> In pfx (keys h')) /\
    (forall pfx, ~ In pfx (keys table_pfx_key) -> get pfx h' = get pfx h).
Proof.
  intros Hne. destruct (check_bgp_origins_Ok table_pfx_key h Hne) as (rs & Hcheck & _).
  eexists _, rs. split; [exact Hcheck |]. repeat split.
  - intros pfx Hin. apply recording_sample_keys. now left.
  - intros pfx Hin. apply recording_sample_keys. now right.
  - intros pfx Hin. now apply recording_sample_untouched.
Qed.

Lemma origins_keys_never_removed_witness :
  exists h' rs,
    check_bgp_origins [] stale_origins = Ok (h', rs) /\
    get "192.0.2.0/24"%string h' = Some [3; 1; 1].
Proof.
  destruct (origins_keys_never_removed [] stale_origins) as (h' & rs & Hcheck & _ & _ & Hsame).
  - repeat constructor. discriminate.
  - exists h', rs. split; [exact Hcheck |].
    rewrite (Hsame "192.0.2.0/24"%string); [reflexivity | intros []].
Defined.

(** ** Rounding *)

(** [round(x, 1)] keeps [x] on its side of a multiple of one tenth. *)
Lemma round1_ge (tenths : Z) (x : Q) :
  (inject_Z tenths / 10 <= x)%Q -> (inject_Z tenths / 10 <= Py.round1 x)%Q.
Proof.
  intros Hle. unfold Py.round1, Qdiv in *. change (/ 10)%Q with (1 # 10)%Q in *.
  assert (Hn : tenths <= Py.round_half_even (x * 10)).
  { apply round_half_even_ge. lra. }
  apply inject_Z_le in Hn. lra.
Qed.

Lemma round1_le (tenths : Z) (x : Q) :
  (x <= inject_Z tenths / 10)%Q -> (Py.round1 x <= inject_Z tenths / 10)%Q.
Proof.
  intros Hle. unfold Py.round1, Qdiv in *. change (/ 10)%Q with (1 # 10)%Q in *.
  assert (Hn : Py.round_half_even (x * 10) <= tenths).
  { apply round_half_even_le. lra. }
  apply inject_Z_le in Hn. lra.
Qed.

(** ** Windows of one sample *)

Lemma mean_singleton (v : Z) : (mean [v] == inject_Z v)%Q.
Proof.
  unfold mean, Qeq, Qdiv, Qmult, Qinv, inject_Z. simpl. lia.
Qed.

Lemma origins_reasons_singleton (pfx : string) (v : Z) :
  origins_reasons pfx [v] = Ok [].
Proof.
  rewrite origins_reasons_window.
  destruct (gtb_spec (inject_Z v) (mean [v])) as [Hgt | _].
  { rewrite mean_singleton in Hgt. now apply Qlt_irrefl in Hgt. }
  cbn [andb app].
  destruct (Z.ltb_spec v 2) as [Hlt | _]; [| reflexivity].
  destruct (gtb_spec (mean [v]) 5) as [Hgt | _]; [| reflexivity].
  rewrite mean_singleton in Hgt. exfalso.
  assert (Hv : (inject_Z v <= inject_Z 2)%Q) by (apply inject_Z_le; lia).
  unfold inject_Z in *. lra.
Qed.

Lemma Qred_inject_Z (v : Z) : Qred (inject_Z v) = inject_Z v.
Proof.
  unfold Qred, inject_Z.
  pose proof (Z.ggcd_gcd v 1) as Hg. pose proof (Z.ggcd_correct_divisors v 1) as Hd.
  destruct (Z.ggcd v 1) as [g [a b]]. cbn [fst snd] in *.
  rewrite Z.gcd_1_r in Hg. subst g. destruct Hd as [Ha Hb].
  rewrite Z.mul_1_l in Ha, Hb. now subst a b.
Qed.

(** Up to [2^53] in magnitude an int is a float, and the mean of a window
    that holds only that sample is the sample. *)
Lemma rounded_mean_singleton (v : Z) :
  Z.abs v <= 2 ^ 53 -> rounded_mean [v] = inject_Z v.
Proof.
  intros Hv. unfold rounded_mean.
  rewrite (round_eq _ (inject_Z v)).
  - apply Qred_inject_Z.
  - apply round_representable; [now apply representable_integer |].
    change (Py.sum [v]) with (v + 0). change (Py.len [v]) with 1. rewrite Z.add_0_r.
    change (inject_Z 1) with 1%Q. field.
Qed.

Lemma within_huge (v : Z) : Z.abs v <= 2 ^ 53 -> Z.abs v <= huge.
Proof.
  intros Hv. assert (2 ^ 53 <= huge) by (vm_compute; discriminate). lia.
Qed.

Lemma invalids_reasons_singleton (repo : string) (v : Z) :
  Z.abs v <= 2 ^ 53 -> invalids_reasons repo [v] = Ok [].
Proof.
  intros Hv. unfold invalids_reasons.
  rewrite truediv_window64; [| discriminate | constructor; [now apply within_huge | constructor]].
  rewrite item0_window. unfold bind. rewrite rounded_mean_singleton by assumption.
  destruct (gtb_spec (inject_Z v) (inject_Z v)) as [Hgt | _]; [| reflexivity].
  now apply Qlt_irrefl in Hgt.
Qed.

Lemma totals_reasons_singleton (repo : string) (v : Z) :
  Z.abs v <= 2 ^ 53 -> totals_reasons repo [v] = Ok [].
Proof.
  intros Hv.
  rewrite totals_reasons_window by (constructor; [now apply within_huge | constructor]).
  assert (Havg : totals_avg [v] = v).
  { unfold totals_avg. rewrite rounded_mean_singleton by assumption. apply int_inject_Z. }
  assert (Hdropped : totals_dropped [v] = false); [| now rewrite Hdropped].
  destruct (Z.eq_dec v 0) as [E | Hne].
  - apply totals_dropped_zero. now rewrite Havg.
  - unfold totals_dropped, totals_percentage. rewrite Havg.
    rewrite (proj2 (Z.eqb_neq _ _) Hne). cbn [hd].
    rewrite (round_morphism _ 1).
    + vm_compute. reflexivity.
    + field. intros C. apply Hne. now apply (inject_Z_injective v 0).
Qed.

Lemma prefixes_reasons_singleton (asn v : Z) :
  v <> 0 -> prefixes_reasons asn [v] = Ok [].
Proof.
  intros Hne. unfold prefixes_reasons.
  rewrite truediv_window by discriminate. rewrite item0_window. unfold bind at 1 2.
  assert (Hmean : ~ (mean [v] == 0)%Q).
  { rewrite mean_singleton. intros C. apply Hne. now apply (inject_Z_injective v 0). }
  unfold Py.truediv_float.
  destruct (Qeq_bool (mean [v]) 0) eqn:E; [now apply Qeq_bool_iff in E |].
  unfold bind.
  assert (Hpct : (inject_Z v / mean [v] * 100 == inject_Z 100)%Q).
  { rewrite mean_singleton. unfold inject_Z at 3. field.
    intros C. apply Hne. now apply (inject_Z_injective v 0). }
  unfold Py.round0. rewrite (round_half_even_integer 100 _ Hpct). reflexivity.
Qed.

(** ** The invalid-ROA detector *)

Lemma invalids_reasons_window (repo : string) (latest : Z) (rest : list Z) :
  Forall (fun x => Z.abs x <= huge) (latest :: rest) ->
  invalids_reasons repo (latest :: rest) =
  Ok (if Py.gtb (inject_Z latest) (rounded_mean (latest :: rest))
      then [RoaInvalid latest repo (Py.floor (rounded_mean (latest :: rest)))] else []).
Proof.
  intros Hin. unfold invalids_reasons.
  now rewrite truediv_window64 by (discriminate || assumption).
Qed.

Lemma invalids_reasons_In (repo k : string) (latest l a : Z) (w : list Z)
    (rs : list reason) :
  Forall (fun x => Z.abs x <= huge) (latest :: w) ->
  invalids_reasons k (latest :: w) = Ok rs ->
  In (RoaInvalid l repo a) rs <->
  (k = repo /\ l = latest /\ a = Py.floor (rounded_mean (latest :: w)) /\
   (rounded_mean (latest :: w) < inject_Z latest)%Q).
Proof.
  intros Hin. rewrite invalids_reasons_window by assumption. intros [= <-].
  destruct (gtb_spec (inject_Z latest) (rounded_mean (latest :: w))); simpl.
  - split.
    + intros [[= <- -> <-] | []]. auto.
    + intros (-> & -> & -> & _). now left.
  - tauto.
Qed.

Lemma check_rpki_invalids_detection (invalid_roa : dict string Z) (h : history string) :
  NoDup (keys h) -> windows_nonempty h ->
  counts_within huge invalid_roa -> samples_within huge h ->
  let h' := recording record_rpki_sample (fun count => count) invalid_roa h in
  exists rs,
    check_rpki_invalids invalid_roa h = Ok (h', rs) /\
    forall repo latest rest, get repo h' = Some (latest :: rest) ->
      forall l a, In (RoaInvalid l repo a) rs <->
        (l = latest /\ a = Py.floor (rounded_mean (latest :: rest)) /\
         (rounded_mean (latest :: rest) < inject_Z latest)%Q).
Proof.
  intros Hnd Hne Hcounts Hsamples h'.
  destruct (recording_rpki_facts (fun count => count) invalid_roa h Hnd Hne)
    as (Hnd' & Hne' & _).
  pose proof (recording_rpki_within huge invalid_roa h Hne Hcounts Hsamples) as Hin'.
  fold h' in Hnd', Hne', Hin'.
  assert (Hwindow : forall k w, In (k, w) h' -> Forall (fun x => Z.abs x <= huge) w).
  { intros k w Hkw. unfold samples_within in Hin'. rewrite Forall_forall in Hin'.
    exact (Hin' _ Hkw). }
  destruct (detection_reasons_on invalids_reasons h' Hnd' Hne') as (rs & Hrs & Hin).
  { intros k [| latest rest] Hkw.
    - unfold windows_nonempty in Hne'. rewrite Forall_forall in Hne'.
      now destruct (Hne' _ Hkw).
    - rewrite invalids_reasons_window by exact (Hwindow _ _ Hkw). now eexists. }
  exists rs. split; [unfold check_rpki_invalids; fold h'; now rewrite Hrs |].
  intros repo latest rest Hget l a.
  pose proof (Hwindow _ _ (get_In _ _ _ Hget)) as Hw.
  rewrite Hin. split.
  - intros (k & l0 & w0 & here & Hk & Hb & Hr).
    pose proof (Hwindow _ _ (get_In _ _ _ Hk)) as Hw0.
    apply (invalids_reasons_In repo k l0 l a w0 here Hw0 Hb) in Hr.
    destruct Hr as (-> & -> & -> & Hlt).
    rewrite Hget in Hk. injection Hk as <- <-. auto.
  - intros (-> & -> & Hlt).
    exists repo, latest, rest. eexists. split; [exact Hget |].
    split; [now apply invalids_reasons_window |].
    apply (invalids_reasons_In repo repo latest _ _ rest _ Hw
             (invalids_reasons_window _ _ _ Hw)).
    auto.
Qed.

(** X5.  As long as no count is beyond [huge], [check_rpki_invalids] returns;
    the window of every repository of the input starts with this cycle's
    count; and a reason is emitted for a tracked repository exactly when its
    latest count exceeds the float [sum / len] of its window.  On a window
    of moderate size that is the case exactly when [sum < latest * len]; a
    repository with a single sample of at most [2^53] gets none. *)
Theorem invalid_roa_detector_emits_exactly
    (invalid_roa : dict string Z) (h : history string) :
  NoDup (keys invalid_roa) -> NoDup (keys h) -> windows_nonempty h ->
  counts_within huge invalid_roa -> samples_within huge h ->
  exists h' rs,
    check_rpki_invalids invalid_roa h = Ok (h', rs) /\
    (forall repo count, In (repo, count) invalid_roa ->
       exists rest, get repo h' = Some (count :: rest)) /\
    (forall repo latest rest, get repo h' = Some (latest :: rest) ->
       ((exists l a, In (RoaInvalid l repo a) rs) <->
        (Double.round (inject_Z (Py.sum (latest :: rest))
                       / inject_Z (Py.len (latest :: rest))) < inject_Z latest)%Q) /\
       (moderate (latest :: rest) ->
          ((exists l a, In (RoaInvalid l repo a) rs) <->
           Py.sum (latest :: rest) < latest * Py.len (latest :: rest))) /\
       (rest = [] -> Z.abs latest <= 2 ^ 53 ->
          ~ exists l a, In (RoaInvalid l repo a) rs)).
Proof.
  intros Hndi Hnd Hne Hcounts Hsamples.
  destruct (recording_rpki_facts (fun count => count) invalid_roa h Hnd Hne)
    as (_ & _ & Hfront).
  destruct (check_rpki_invalids_detection invalid_roa h Hnd Hne Hcounts Hsamples)
    as (rs & Hcheck & Hin).
  exists (recording record_rpki_sample (fun count => count) invalid_roa h), rs.
  split; [exact Hcheck |]. split; [now apply Hfront |].
  intros repo latest rest Hget.
  pose proof (Hin repo latest rest Hget) as Hemit.
  assert (Hany : (exists l a, In (RoaInvalid l repo a) rs) <->
                 (rounded_mean (latest :: rest) < inject_Z latest)%Q).
  { split.
    - intros (l & a & Hr). now apply Hemit in Hr.
    - intros Hlt. eexists _, _. apply Hemit. auto. }
  split; [exact Hany |]. split.
  - intros Hm. rewrite Hany.
    destruct (moderate_facts _ Hm ltac:(discriminate)) as (_ & _ & Hall).
    inversion Hall as [| x l Hlatest _]; subst.
    apply (rounded_mean_below _ Hm); [discriminate | lia].
  - intros -> Hlatest Hr. apply Hany in Hr.
    rewrite rounded_mean_singleton in Hr by assumption. now apply Qlt_irrefl in Hr.
Qed.

Lemma invalid_roa_detector_emits_exactly_witness :
  exists h' rs rest,
    check_rpki_invalids roa_outage_input roa_outage_history = Ok (h', rs) /\
    get "ripe"%string h' = Some (50 :: rest).
Proof.
  destruct (invalid_roa_detector_emits_exactly roa_outage_input roa_outage_history)
    as (h' & rs & Hcheck & Hfront & _).
  - nodup_literal.
  - nodup_literal.
  - repeat constructor. discriminate.
  - repeat constructor. vm_compute. discriminate.
  - repeat constructor; vm_compute; discriminate.
  - destruct (Hfront "ripe"%string 50) as [rest Hrest].
    + left. reflexivity.
    + exists h', rs, rest. split; assumption.
Defined.

(** Beyond [2^53] an int need not be a float: the quotient [v / 1] of a lone
    sample [2^53 + 1] is the float [2^53], the sample exceeds it, and the
    detector reports a repository that has been seen once.  In the same way
    the test of the total-ROA detector misses a drop to less than a tenth of
    the average when the difference from 90 is below the last place. *)
Example samples_beyond_the_exact_integers :
  invalids_reasons "ripe" [2 ^ 53 + 1] = Ok [RoaInvalid (2 ^ 53 + 1) "ripe" (2 ^ 53)] /\
  totals_avg [200000000000000; 3800000000000002] = 2000000000000001 /\
  10 * 200000000000000 < 2000000000000001 /\
  totals_reasons "ripe" [200000000000000; 3800000000000002] = Ok [].
Proof. repeat split; vm_compute; reflexivity. Qed.

(** A count of [2^1024] is beyond every float: the division raises
    [OverflowError], which neither detector catches. *)
Example samples_beyond_the_floats :
  invalids_reasons "ripe" [2 ^ 1024] = Raise OverflowError /\
  totals_reasons "ripe" [2 ^ 1024] = Raise OverflowError /\
  check_rpki_totals [ ("ripe"%string, 2 ^ 1024) ] [] = Raise OverflowError.
Proof. repeat split; vm_compute; reflexivity. Qed.

(** ** A first recording, and more than [max_history] repositories *)

Lemma set_fresh {K V : Type} `{Hashable K} (k : K) (v : V) (d : dict K V) :
  ~ In k (keys d) -> set k v d = d ++ [(k, v)].
Proof.
  induction d as [| [k' v'] d IH]; intros Hnotin; [reflexivity |].
  simpl in *. destruct (key_eqb_spec k k') as [-> | Hne]; [tauto |].
  rewrite IH by tauto. reflexivity.
Qed.

Lemma get_fresh {K V : Type} `{Hashable K} (k : K) (d : dict K V) :
  ~ In k (keys d) -> get k d = None.
Proof.
  intros Hnotin. destruct (get k d) as [v |] eqn:E; [| reflexivity].
  exfalso. apply Hnotin. apply In_keys_get. now exists v.
Qed.

(** Recording keys that are not tracked yet appends one window of one sample
    per key, in the order of the input. *)
Lemma recording_fresh {K V : Type} `{Hashable K}
    (update : K -> Z -> history K -> history K) (value : V -> Z)
    (input : dict K V) (h : history K) :
  (forall k v h, get k h = None -> update k v h = set k [v] h) ->
  NoDup (keys input) -> (forall k, In k (keys input) -> ~ In k (keys h)) ->
  recording update value input h
  = h ++ map (fun entry => (fst entry, [value (snd entry)])) input.
Proof.
  intros Hupdate. unfold recording. revert h.
  induction input as [| [k x] input IH]; intros h Hnd Hfresh.
  - simpl. now rewrite app_nil_r.
  - inversion Hnd as [| ? ? Hnotin Hnd']; subst.
    cbn [fold_left map fst snd].
    rewrite Hupdate by (apply get_fresh, Hfresh; now left).
    rewrite set_fresh by (apply Hfresh; now left).
    rewrite IH; [now rewrite <- app_assoc | assumption |].
    intros k0 Hk0. unfold keys. rewrite map_app, in_app_iff. cbn [map fst].
    intros [Hin | [<- | []]]; [| contradiction].
    apply (Hfresh k0); [now right | exact Hin].
Qed.

Lemma record_sample_fresh {K : Type} `{Hashable K} (k : K) (v : Z) (h : history K) :
  get k h = None -> record_sample k v h = set k [v] h.
Proof. intros E. unfold record_sample. now rewrite E. Qed.

Lemma record_rpki_sample_fresh {K : Type} `{Hashable K} (k : K) (v : Z) (h : history K) :
  get k h = None -> record_rpki_sample k v h = set k [v] h.
Proof. intros E. unfold record_rpki_sample. now rewrite E. Qed.

Lemma for_items_all_nil {K V : Type} (body : K -> V -> result (list reason))
    (d : dict K V) :
  (forall k v, In (k, v) d -> body k v = Ok []) -> for_items body d = Ok [].
Proof.
  induction d as [| [k v] d IH]; intros Hall; [reflexivity |].
  simpl. rewrite (Hall k v (or_introl eq_refl)). simpl.
  rewrite IH; [reflexivity |]. intros k' v' Hin. apply Hall. now right.
Qed.

Lemma record_rpki_sample_saturated (k : string) (v : Z) (h : history string) :
  max_history < Py.len h -> windows_single h ->
  record_rpki_sample k v h = set k [v] h.
Proof.
  intros Hmany Hsingle. rewrite record_rpki_sample_set. f_equal.
  destruct (Z.gtb_spec (Py.len h) max_history) as [_ | Hle]; [| lia].
  destruct (get k h) as [w |] eqn:E; [| reflexivity].
  unfold windows_single in Hsingle. rewrite Forall_forall in Hsingle.
  destruct (Hsingle _ (get_In _ _ _ E)) as [v0 Hv0]. cbn [snd] in Hv0.
  now rewrite Hv0.
Qed.

Lemma recording_rpki_saturated (input : dict string Z) (h : history string) :
  max_history < Py.len h -> windows_single h ->
  max_history < Py.len (recording record_rpki_sample (fun count => count) input h) /\
  windows_single (recording record_rpki_sample (fun count => count) input h).
Proof.
  unfold recording. revert h.
  induction input as [| [k x] input IH]; intros h Hmany Hsingle; [now split |].
  cbn [fold_left fst snd]. rewrite record_rpki_sample_saturated by assumption.
  apply IH.
  - pose proof (len_set_grows k [x] h). lia.
  - unfold windows_single in *. rewrite Forall_forall in *. intros [k0 w0] Hin.
    destruct (In_set _ _ _ _ _ Hin) as [[_ ->] | Hold]; [now exists x | now apply Hsingle].
Qed.

Lemma windows_single_nonempty {K : Type} (h : history K) :
  windows_single h -> windows_nonempty h.
Proof.
  unfold windows_single, windows_nonempty. apply Forall_impl.
  intros entry [v ->]. discriminate.
Qed.

Lemma rpki_detection_single (h : history string) :
  windows_single h -> samples_within (2 ^ 53) h ->
  for_items invalids_reasons h = Ok [] /\ for_items totals_reasons h = Ok [].
Proof.
  intros Hsingle Hwithin. unfold windows_single, samples_within in *.
  rewrite Forall_forall in Hsingle, Hwithin.
  split; apply for_items_all_nil; intros k w Hin;
    pose proof (Hwithin _ Hin) as Hw; cbn [snd] in Hw;
    destruct (Hsingle _ Hin) as [v Hv]; cbn [snd] in Hv; subst w;
    inversion Hw as [| x l Hx _]; subst.
  - now apply invalids_reasons_singleton.
  - now apply totals_reasons_singleton.
Qed.

Lemma rpki_cycles_saturated (check : dict string Z -> history string ->
                                     result (history string * list reason))
    (later : list (dict string Z)) (h : history string) :
  (forall input h0, counts_within (2 ^ 53) input ->
     max_history < Py.len h0 -> windows_single h0 -> samples_within (2 ^ 53) h0 ->
     check input h0
     = Ok (recording record_rpki_sample (fun count => count) input h0, [])) ->
  Forall (counts_within (2 ^ 53)) later ->
  max_history < Py.len h -> windows_single h -> samples_within (2 ^ 53) h ->
  exists h',
    cycles check later h = Ok h' /\ max_history < Py.len h' /\ windows_single h' /\
    samples_within (2 ^ 53) h'.
Proof.
  intros Hcheck. revert h.
  induction later as [| input later IH]; intros h Hlater Hmany Hsingle Hwithin; simpl.
  - now exists h.
  - inversion Hlater as [| i l Hinput Hrest]; subst.
    rewrite Hcheck by assumption. simpl.
    destruct (recording_rpki_saturated input h Hmany Hsingle). apply IH; try assumption.
    apply recording_rpki_within; [now apply windows_single_nonempty | assumption..].
Qed.

Lemma check_rpki_saturated (input : dict string Z) (h : history string) :
  counts_within (2 ^ 53) input ->
  max_history < Py.len h -> windows_single h -> samples_within (2 ^ 53) h ->
  check_rpki_invalids input h
  = Ok (recording record_rpki_sample (fun count => count) input h, []) /\
  check_rpki_totals input h
  = Ok (recording record_rpki_sample (fun count => count) input h, []).
Proof.
  intros Hinput Hmany Hsingle Hwithin.
  destruct (recording_rpki_saturated input h Hmany Hsingle) as [_ Hsingle'].
  assert (Hwithin' : samples_within (2 ^ 53)
                       (recording record_rpki_sample (fun count => count) input h)).
  { apply recording_rpki_within; [now apply windows_single_nonempty | assumption..]. }
  destruct (rpki_detection_single _ Hsingle' Hwithin') as [Hinv Htot].
  unfold check_rpki_invalids, check_rpki_totals. rewrite Hinv, Htot. now split.
Qed.

Lemma rpki_first_cycle (first : dict string Z) :
  NoDup (keys first) ->
  recording record_rpki_sample (fun count => count) first []
  = map (fun entry => (fst entry, [snd entry])) first /\
  windows_single (recording record_rpki_sample (fun count => count) first []) /\
  Py.len (recording record_rpki_sample (fun count => count) first []) = Py.len first /\
  (forall bound, counts_within bound first ->
     samples_within bound (recording record_rpki_sample (fun count => count) first [])).
Proof.
  intros Hnd.
  assert (E : recording record_rpki_sample (fun count => count) first []
              = map (fun entry => (fst entry, [snd entry])) first).
  { rewrite recording_fresh; [reflexivity | | assumption | intros k _ []].
    intros k v h. apply record_rpki_sample_fresh. }
  split; [exact E |]. split; [| split].
  - rewrite E. unfold windows_single. rewrite Forall_forall. intros e He.
    apply in_map_iff in He. destruct He as (e0 & <- & _). now exists (snd e0).
  - rewrite E. unfold Py.len. now rewrite length_map.
  - intros bound Hcounts. apply recording_rpki_within; [constructor | assumption | constructor].
Qed.

(** X6.  Once more than [max_history] repositories are tracked, the update
    of the two RPKI detectors pops after every insertion: from the first
    cycle on every window holds one sample, the latest, and as long as no
    count is beyond [2^53] neither [check_rpki_invalids] nor
    [check_rpki_totals] emits a reason in any later cycle. *)
Theorem rpki_silent_with_many_repositories (first : dict string Z)
    (later : list (dict string Z)) (input : dict string Z) :
  NoDup (keys first) -> max_history < Py.len first ->
  counts_within (2 ^ 53) first -> Forall (counts_within (2 ^ 53)) later ->
  counts_within (2 ^ 53) input ->
  (exists h h',
     cycles check_rpki_invalids (first :: later) [] = Ok h /\
     windows_single h /\ check_rpki_invalids input h = Ok (h', [])) /\
  (exists h h',
     cycles check_rpki_totals (first :: later) [] = Ok h /\
     windows_single h /\ check_rpki_totals input h = Ok (h', [])).
Proof.
  intros Hnd Hmany Hfirst Hlater Hinput.
  destruct (rpki_first_cycle first Hnd) as (_ & Hsingle1 & Hlen1 & Hwithin1).
  specialize (Hwithin1 _ Hfirst).
  destruct (rpki_detection_single _ Hsingle1 Hwithin1) as [Hinv1 Htot1].
  split.
  - destruct (rpki_cycles_saturated check_rpki_invalids later
                (recording record_rpki_sample (fun count => count) first []))
      as (h & Hrun & Hmany' & Hsingle' & Hwithin'); [| assumption | lia | assumption..|].
    { intros i h0 H0 H1 H2 H3. apply (check_rpki_saturated i h0 H0 H1 H2 H3). }
    exists h. eexists. split; [| split; [assumption |]].
    + cbn [cycles]. unfold check_rpki_invalids at 1. rewrite Hinv1. exact Hrun.
    + apply (check_rpki_saturated input h Hinput Hmany' Hsingle' Hwithin').
  - destruct (rpki_cycles_saturated check_rpki_totals later
                (recording record_rpki_sample (fun count => count) first []))
      as (h & Hrun & Hmany' & Hsingle' & Hwithin'); [| assumption | lia | assumption..|].
    { intros i h0 H0 H1 H2 H3. apply (check_rpki_saturated i h0 H0 H1 H2 H3). }
    exists h. eexists. split; [| split; [assumption |]].
    + cbn [cycles]. unfold check_rpki_totals at 1. rewrite Htot1. exact Hrun.
    + apply (check_rpki_saturated input h Hinput Hmany' Hsingle' Hwithin').
Qed.

Lemma rpki_silent_with_many_repositories_witness :
  exists h h',
    cycles check_rpki_totals [many_repositories; many_repositories] [] = Ok h /\
    windows_single h /\ check_rpki_totals roa_outage_input h = Ok (h', []).
Proof.
  destruct (rpki_silent_with_many_repositories many_repositories [many_repositories]
              roa_outage_input) as [_ Htotals].
  - vm_compute. nodup_literal.
  - vm_compute. reflexivity.
  - apply Forall_forall. intros entry Hin. apply in_map_iff in Hin.
    destruct Hin as (n & <- & _). vm_compute. discriminate.
  - constructor; [| constructor].
    apply Forall_forall. intros entry Hin. apply in_map_iff in Hin.
    destruct Hin as (n & <- & _). vm_compute. discriminate.
  - repeat constructor. vm_compute. discriminate.
  - exact Htotals.
Defined.

(** ** The DFZ detector, beyond the first cycle *)

Lemma dfz_record_front (count : Z) (window : list Z) :
  exists rest, dfz_record count window = count :: rest.
Proof.
  unfold dfz_record. destruct window as [| x w].
  - exists []. reflexivity.
  - destruct (Py.len (Py.insert0 count (x :: w)) >? max_history).
    + rewrite pop_insert0. now eexists.
    + now eexists.
Qed.

Lemma mean_zero (window : list Z) :
  window <> [] -> (mean window == 0)%Q <-> Py.sum window = 0.
Proof.
  intros Hne. pose proof (len_pos window Hne) as Hlen. unfold mean.
  destruct (Py.len window) as [| p | p]; try lia.
  unfold Qeq, Qdiv, Qinv, Qmult, inject_Z. simpl Qnum. simpl Qden. lia.
Qed.

Lemma truediv_float_mean (latest : Z) (window : list Z) :
  window <> [] ->
  Py.truediv_float latest (mean window) =
  if Py.sum window =? 0 then Raise ZeroDivisionError
  else Ok (inject_Z latest / mean window)%Q.
Proof.
  intros Hne. unfold Py.truediv_float.
  destruct (Qeq_bool (mean window) 0) eqn:E.
  - apply Qeq_bool_iff, (mean_zero window Hne) in E. now rewrite E.
  - destruct (Z.eqb_spec (Py.sum window) 0) as [E0 | _]; [| reflexivity].
    apply (mean_zero window Hne), Qeq_bool_iff in E0. congruence.
Qed.

Lemma check_dfz_cases (table_pfx_key : dict string (list row)) (h : dfz_history) :
  let h6 := dfz_record (fst (dfz_count table_pfx_key)) (v6 h) in
  let h4 := dfz_record (snd (dfz_count table_pfx_key)) (v4 h) in
  check_dfz table_pfx_key h =
  if (Py.sum h6 =? 0) || (Py.sum h4 =? 0) then Raise ZeroDivisionError
  else Ok ({| v6 := h6; v4 := h4 |}, dfz_v6_reasons h6 ++ dfz_v4_reasons h4).
Proof.
  intros h6 h4. unfold check_dfz. fold h6 h4.
  destruct (dfz_record_front (fst (dfz_count table_pfx_key)) (v6 h)) as [rest6 E6].
  destruct (dfz_record_front (snd (dfz_count table_pfx_key)) (v4 h)) as [rest4 E4].
  fold h6 in E6. fold h4 in E4. clearbody h6 h4. subst h6 h4.
  rewrite !truediv_window by discriminate. rewrite !item0_window.
  unfold bind at 1 2. rewrite truediv_float_mean by discriminate.
  destruct (Py.sum (fst (dfz_count table_pfx_key) :: rest6) =? 0); [reflexivity |].
  unfold bind at 1 2 3. rewrite truediv_float_mean by discriminate.
  destruct (Py.sum (snd (dfz_count table_pfx_key) :: rest4) =? 0); reflexivity.
Qed.

Lemma dfz_reasons_length (window : list Z) :
  (List.length (dfz_v6_reasons window) <= 1)%nat /\
  (List.length (dfz_v4_reasons window) <= 1)%nat.
Proof.
  unfold dfz_v6_reasons, dfz_v4_reasons. cbv zeta.
  split;
    destruct (Py.gtb (Py.round1 (inject_Z (hd 0 window) / mean window * 100) - 100)
                (inject_Z dfz_threshold));
    try destruct (Py.gtb (100 - Py.round1 (inject_Z (hd 0 window) / mean window * 100))
                    (inject_Z dfz_threshold));
    simpl; lia.
Qed.

(** X7.  [check_dfz] records both counts first and has a result exactly when
    neither window, the new count included, sums to zero: then the history
    it returns holds the two new windows and it emits at most two reasons;
    otherwise it raises [ZeroDivisionError]. *)
Theorem check_dfz_returns_or_raises (table_pfx_key : dict string (list row))
    (h : dfz_history) :
  let h6 := dfz_record (fst (dfz_count table_pfx_key)) (v6 h) in
  let h4 := dfz_record (snd (dfz_count table_pfx_key)) (v4 h) in
  (check_dfz table_pfx_key h = Raise ZeroDivisionError /\
   (Py.sum h6 = 0 \/ Py.sum h4 = 0)) \/
  (Py.sum h6 <> 0 /\ Py.sum h4 <> 0 /\
   exists rs,
     check_dfz table_pfx_key h = Ok ({| v6 := h6; v4 := h4 |}, rs) /\
     (List.length rs <= 2)%nat).
Proof.
  intros h6 h4. pose proof (check_dfz_cases table_pfx_key h) as Hcases.
  cbv zeta in Hcases. fold h6 h4 in Hcases. rewrite Hcases.
  destruct (Z.eqb_spec (Py.sum h6) 0) as [E6 | N6]; cbn [orb].
  - left. auto.
  - destruct (Z.eqb_spec (Py.sum h4) 0) as [E4 | N4].
    + left. auto.
    + right. split; [assumption |]. split; [assumption |].
      eexists. split; [reflexivity |]. rewrite length_app.
      destruct (dfz_reasons_length h6) as [H6 _].
      destruct (dfz_reasons_length h4) as [_ H4]. lia.
Qed.

Lemma dfz_count_filter (table_pfx_key : dict string (list row)) :
  dfz_count table_pfx_key =
  (Py.len (filter counted_as_v6 (keys table_pfx_key)),
   Py.len (filter (fun pfx => negb (counted_as_v6 pfx)) (keys table_pfx_key))).
Proof.
  unfold dfz_count.
  assert (Hgen : forall counts : Z * Z,
             fold_left
               (fun counts entry =>
                  if counted_as_v6 (fst entry)
                  then (fst counts + 1, snd counts)
                  else (fst counts, snd counts + 1))
               table_pfx_key counts
             = (fst counts + Py.len (filter counted_as_v6 (keys table_pfx_key)),
                snd counts
                + Py.len (filter (fun pfx => negb (counted_as_v6 pfx))
                            (keys table_pfx_key)))).
  { unfold keys. induction table_pfx_key as [| [pfx rows] table IH]; intros [c6 c4].
    - cbn. apply f_equal2; lia.
    - cbn [fold_left map filter fst snd]. rewrite IH.
      destruct (counted_as_v6 pfx); cbn [negb fst snd]; rewrite len_cons;
        apply f_equal2; lia. }
  rewrite Hgen. reflexivity.
Qed.

Lemma len_filter_partition {A : Type} (f : A -> bool) (l : list A) :
  Py.len (filter f l) + Py.len (filter (fun x => negb (f x)) l) = Py.len l.
Proof.
  induction l as [| x l IH]; [reflexivity |].
  cbn [filter]. destruct (f x); cbn [negb]; rewrite !len_cons; lia.
Qed.

(** X8.  The two counts of [check_dfz] split the prefixes of the table: the
    IPv6 count is the number of keys on which the test [find('::/') > 0]
    holds, the IPv4 count the number of the others, and they add up to the
    size of the table.  When [check_dfz] returns on windows of at most
    [max_history] samples, each new window is the count followed by the old
    window, cut to [max_history] samples. *)
Theorem check_dfz_counts_and_windows (table_pfx_key : dict string (list row))
    (h h' : dfz_history) (rs : list reason) :
  (List.length (v6 h) <= Z.to_nat max_history)%nat ->
  (List.length (v4 h) <= Z.to_nat max_history)%nat ->
  check_dfz table_pfx_key h = Ok (h', rs) ->
  let counts := dfz_count table_pfx_key in
  fst counts = Py.len (filter counted_as_v6 (keys table_pfx_key)) /\
  fst counts + snd counts = Py.len table_pfx_key /\
  v6 h' = firstn (Z.to_nat max_history) (fst counts :: v6 h) /\
  v4 h' = firstn (Z.to_nat max_history) (snd counts :: v4 h) /\
  (List.length (v6 h') <= Z.to_nat max_history)%nat /\
  (List.length (v4 h') <= Z.to_nat max_history)%nat.
Proof.
  intros H6 H4 Hcheck counts.
  pose proof (check_dfz_cases table_pfx_key h) as Hcases. cbv zeta in Hcases.
  rewrite Hcases in Hcheck.
  destruct ((Py.sum (dfz_record (fst (dfz_count table_pfx_key)) (v6 h)) =? 0)
            || (Py.sum (dfz_record (snd (dfz_count table_pfx_key)) (v4 h)) =? 0));
    [discriminate |].
  subst counts.
  assert (Hh' : h' = {| v6 := dfz_record (fst (dfz_count table_pfx_key)) (v6 h);
                        v4 := dfz_record (snd (dfz_count table_pfx_key)) (v4 h) |})
    by congruence.
  rewrite Hh'. cbn [v6 v4]. rewrite !dfz_record_window by assumption.
  rewrite dfz_count_filter. cbn [fst snd].
  split; [reflexivity |]. split.
  - rewrite len_filter_partition. unfold keys, Py.len. now rewrite length_map.
  - repeat split; try reflexivity; rewrite length_firstn; lia.
Qed.

Lemma check_dfz_counts_and_windows_witness :
  fst (dfz_count small_table) + snd (dfz_count small_table) = Py.len small_table.
Proof.
  assert (H6 : (List.length [1] <= Z.to_nat max_history)%nat) by (vm_compute; lia).
  assert (H4 : (List.length [2] <= Z.to_nat max_history)%nat) by (vm_compute; lia).
  assert (Hcheck : check_dfz small_table {| v6 := [1]; v4 := [2] |}
                   = Ok ({| v6 := [1; 1]; v4 := [2; 2] |}, [])) by reflexivity.
  exact (proj1 (proj2 (check_dfz_counts_and_windows small_table
                         {| v6 := [1]; v4 := [2] |} {| v6 := [1; 1]; v4 := [2; 2] |} []
                         H6 H4 Hcheck))).
Defined.

(** ** The tolerance of the DFZ detector *)

Lemma window_percentage (window : list Z) :
  0 < Py.sum window -> 0 < Py.len window ->
  (inject_Z (hd 0%Z window) / mean window * 100
   == inject_Z (100 * hd 0%Z window * Py.len window) / inject_Z (Py.sum window))%Q.
Proof.
  intros Hsum Hlen. unfold mean. rewrite !inject_Z_mult.
  change (inject_Z 100) with 100%Q. field. split.
  - intros C. apply (proj1 (inject_Z_injective (Py.sum window) 0)) in C. lia.
  - intros C. apply (proj1 (inject_Z_injective (Py.len window) 0)) in C. lia.
Qed.

Lemma quotient_ge (a b t : Z) :
  0 < b -> t * b <= 10 * a -> (inject_Z t / 10 <= inject_Z a / inject_Z b)%Q.
Proof.
  intros Hb Hle. destruct b as [| p | p]; try lia.
  unfold Qle, Qdiv, Qinv, Qmult, inject_Z. simpl Qnum. simpl Qden.
  lia.
Qed.

Lemma quotient_le (a b t : Z) :
  0 < b -> 10 * a <= t * b -> (inject_Z a / inject_Z b <= inject_Z t / 10)%Q.
Proof.
  intros Hb Hle. destruct b as [| p | p]; try lia.
  unfold Qle, Qdiv, Qinv, Qmult, inject_Z. simpl Qnum. simpl Qden.
  lia.
Qed.

(** The rounded percentage of a window stays on the side of a multiple of
    one tenth on which the exact percentage [100 * latest * len / sum] lies. *)
Lemma rounded_percentage_ge (window : list Z) (tenths : Z) :
  0 < Py.sum window -> 0 < Py.len window ->
  tenths * Py.sum window <= 1000 * hd 0%Z window * Py.len window ->
  (inject_Z tenths / 10
   <= Py.round1 (inject_Z (hd 0%Z window) / mean window * 100))%Q.
Proof.
  intros Hsum Hlen Hle. apply round1_ge. rewrite window_percentage by assumption.
  apply quotient_ge; [assumption | lia].
Qed.

Lemma rounded_percentage_le (window : list Z) (tenths : Z) :
  0 < Py.sum window -> 0 < Py.len window ->
  1000 * hd 0%Z window * Py.len window <= tenths * Py.sum window ->
  (Py.round1 (inject_Z (hd 0%Z window) / mean window * 100)
   <= inject_Z tenths / 10)%Q.
Proof.
  intros Hsum Hlen Hle. apply round1_le. rewrite window_percentage by assumption.
  apply quotient_le; [assumption | lia].
Qed.

Ltac tenths_to_lra :=
  unfold inject_Z, Qdiv, dfz_threshold in *; change (/ 10)%Q with (1 # 10)%Q in *.

Lemma dfz_reasons_quiet (window : list Z) :
  0 < Py.sum window -> 0 < Py.len window ->
  percent_at_least 990 window -> percent_at_most 1010 window ->
  dfz_v6_reasons window = [] /\ dfz_v4_reasons window = [].
Proof.
  intros Hsum Hlen Hlow Hhigh.
  pose proof (rounded_percentage_ge window 990 Hsum Hlen Hlow) as Hge.
  pose proof (rounded_percentage_le window 1010 Hsum Hlen Hhigh) as Hle.
  unfold dfz_v6_reasons, dfz_v4_reasons. cbv zeta.
  set (pc := Py.round1 (inject_Z (hd 0 window) / mean window * 100)) in *.
  destruct (gtb_spec (pc - 100) (inject_Z dfz_threshold)) as [Hup | _].
  { exfalso. tenths_to_lra. lra. }
  destruct (gtb_spec (100 - pc) (inject_Z dfz_threshold)) as [Hdown | _].
  { exfalso. tenths_to_lra. lra. }
  now split.
Qed.

Lemma dfz_reasons_increase (window : list Z) :
  0 < Py.sum window -> 0 < Py.len window -> percent_at_least 1011 window ->
  (exists pc a l, dfz_v6_reasons window = [DfzV6Increased pc a l]) /\
  (exists pc a l, dfz_v4_reasons window = [DfzV4Increased pc a l]).
Proof.
  intros Hsum Hlen Hlow.
  pose proof (rounded_percentage_ge window 1011 Hsum Hlen Hlow) as Hge.
  unfold dfz_v6_reasons, dfz_v4_reasons. cbv zeta.
  set (pc := Py.round1 (inject_Z (hd 0 window) / mean window * 100)) in *.
  destruct (gtb_spec (pc - 100) (inject_Z dfz_threshold)) as [_ | Hup].
  - split; eauto.
  - exfalso. apply Hup. tenths_to_lra. lra.
Qed.

Lemma dfz_reasons_decrease (window : list Z) :
  0 < Py.sum window -> 0 < Py.len window -> percent_at_most 989 window ->
  (exists pc a l, dfz_v6_reasons window = [DfzV6Decreased pc a l]) /\
  (exists pc a l, dfz_v4_reasons window = [DfzV4Decreased pc a l]).
Proof.
  intros Hsum Hlen Hhigh.
  pose proof (rounded_percentage_le window 989 Hsum Hlen Hhigh) as Hle.
  unfold dfz_v6_reasons, dfz_v4_reasons. cbv zeta.
  set (pc := Py.round1 (inject_Z (hd 0 window) / mean window * 100)) in *.
  destruct (gtb_spec (pc - 100) (inject_Z dfz_threshold)) as [Hup | _].
  { exfalso. tenths_to_lra. lra. }
  destruct (gtb_spec (100 - pc) (inject_Z dfz_threshold)) as [_ | Hdown].
  - split; eauto.
  - exfalso. apply Hdown. tenths_to_lra. lra.
Qed.

Lemma dfz_record_len_pos (count : Z) (window : list Z) :
  0 < Py.len (dfz_record count window).
Proof.
  destruct (dfz_record_front count window) as [rest ->]. now apply len_pos.
Qed.

Lemma check_dfz_positive (table_pfx_key : dict string (list row)) (h : dfz_history) :
  let h6 := dfz_record (fst (dfz_count table_pfx_key)) (v6 h) in
  let h4 := dfz_record (snd (dfz_count table_pfx_key)) (v4 h) in
  0 < Py.sum h6 -> 0 < Py.sum h4 ->
  check_dfz table_pfx_key h
  = Ok ({| v6 := h6; v4 := h4 |}, dfz_v6_reasons h6 ++ dfz_v4_reasons h4).
Proof.
  intros h6 h4 H6 H4. pose proof (check_dfz_cases table_pfx_key h) as Hcases.
  cbv zeta in Hcases. fold h6 h4 in Hcases. rewrite Hcases.
  destruct (Z.eqb_spec (Py.sum h6) 0); [lia |].
  destruct (Z.eqb_spec (Py.sum h4) 0); [lia | reflexivity].
Qed.

(** X9.  When neither new window sums to zero and, in both families, the
    new count is within one percent of the mean of its window, [check_dfz]
    returns without a reason. *)
Theorem check_dfz_quiet_within_one_percent (table_pfx_key : dict string (list row))
    (h : dfz_history) :
  let h6 := dfz_record (fst (dfz_count table_pfx_key)) (v6 h) in
  let h4 := dfz_record (snd (dfz_count table_pfx_key)) (v4 h) in
  0 < Py.sum h6 -> 0 < Py.sum h4 ->
  percent_at_least 990 h6 -> percent_at_most 1010 h6 ->
  percent_at_least 990 h4 -> percent_at_most 1010 h4 ->
  check_dfz table_pfx_key h = Ok ({| v6 := h6; v4 := h4 |}, []).
Proof.
  intros h6 h4 H6 H4 L6 U6 L4 U4.
  rewrite (check_dfz_positive table_pfx_key h H6 H4). fold h6 h4.
  destruct (dfz_reasons_quiet h6 H6 (dfz_record_len_pos _ _) L6 U6) as [-> _].
  destruct (dfz_reasons_quiet h4 H4 (dfz_record_len_pos _ _) L4 U4) as [_ ->].
  reflexivity.
Qed.

(** X10.  When neither new window sums to zero, [check_dfz] emits the
    increase reason of a family whose new count is at least 101.1 percent of
    the mean of its window, and the decrease reason of a family whose new
    count is at most 98.9 percent of it. *)
Theorem check_dfz_alerts_beyond_tolerance (table_pfx_key : dict string (list row))
    (h : dfz_history) :
  let h6 := dfz_record (fst (dfz_count table_pfx_key)) (v6 h) in
  let h4 := dfz_record (snd (dfz_count table_pfx_key)) (v4 h) in
  0 < Py.sum h6 -> 0 < Py.sum h4 ->
  exists rs,
    check_dfz table_pfx_key h = Ok ({| v6 := h6; v4 := h4 |}, rs) /\
    (percent_at_least 1011 h6 -> exists pc a l, In (DfzV6Increased pc a l) rs) /\
    (percent_at_most 989 h6 -> exists pc a l, In (DfzV6Decreased pc a l) rs) /\
    (percent_at_least 1011 h4 -> exists pc a l, In (DfzV4Increased pc a l) rs) /\
    (percent_at_most 989 h4 -> exists pc a l, In (DfzV4Decreased pc a l) rs).
Proof.
  intros h6 h4 H6 H4. eexists. split; [apply (check_dfz_positive _ _ H6 H4) |].
  fold h6 h4. repeat split; intros Hp.
  - destruct (dfz_reasons_increase h6 H6 (dfz_record_len_pos _ _) Hp)
      as [(pc & a & l & ->) _].
    exists pc, a, l. apply in_or_app. left. now left.
  - destruct (dfz_reasons_decrease h6 H6 (dfz_record_len_pos _ _) Hp)
      as [(pc & a & l & ->) _].
    exists pc, a, l. apply in_or_app. left. now left.
  - destruct (dfz_reasons_increase h4 H4 (dfz_record_len_pos _ _) Hp)
      as [_ (pc & a & l & ->)].
    exists pc, a, l. apply in_or_app. right. now left.
  - destruct (dfz_reasons_decrease h4 H4 (dfz_record_len_pos _ _) Hp)
      as [_ (pc & a & l & ->)].
    exists pc, a, l. apply in_or_app. right. now left.
Qed.

Lemma check_dfz_quiet_within_one_percent_witness :
  check_dfz small_table {| v6 := [1; 1]; v4 := [2; 2] |}
  = Ok ({| v6 := [1; 1; 1]; v4 := [2; 2; 2] |}, []).
Proof.
  apply (check_dfz_quiet_within_one_percent small_table {| v6 := [1; 1]; v4 := [2; 2] |});
    vm_compute; try reflexivity; discriminate.
Defined.

Lemma check_dfz_alerts_beyond_tolerance_witness :
  exists rs pc a l,
    check_dfz small_table {| v6 := [1; 1]; v4 := [1; 1] |}
    = Ok ({| v6 := [1; 1; 1]; v4 := [2; 1; 1] |}, rs) /\
    In (DfzV4Increased pc a l) rs.
Proof.
  destruct (check_dfz_alerts_beyond_tolerance small_table {| v6 := [1; 1]; v4 := [1; 1] |})
    as (rs & Hcheck & _ & _ & Hup & _).
  - reflexivity.
  - reflexivity.
  - destruct Hup as (pc & a & l & Hin).
    + vm_compute. discriminate.
    + exists rs, pc, a, l. split; assumption.
Defined.

(** ** [check_dns_roots] *)

Lemma for_items_Ok_inv {K V : Type} (body : K -> V -> result (list reason))
    (d : dict K V) (rs : list reason) :
  for_items body d = Ok rs ->
  forall k v, In (k, v) d -> exists here, body k v = Ok here.
Proof.
  revert rs. induction d as [| [k v] d IH]; intros rs Hrs k' v' Hin; [destruct Hin |].
  simpl in Hrs. destruct (body k v) as [here |] eqn:Ehere; simpl in Hrs; [| discriminate].
  destruct (for_items body d) as [later |] eqn:Elater; simpl in Hrs; [| discriminate].
  destruct Hin as [[= <- <-] | Hin]; [now exists here | now apply (IH later)].
Qed.

Lemma for_items_raises {K V : Type} (body : K -> V -> result (list reason))
    (d : dict K V) (e : exn) :
  for_items body d = Raise e -> exists k v, In (k, v) d /\ body k v = Raise e.
Proof.
  induction d as [| [k v] d IH]; simpl; [discriminate |].
  destruct (body k v) as [here |] eqn:Ehere; simpl.
  - destruct (for_items body d) as [later |]; simpl; [discriminate |].
    intros [= <-]. destruct (IH eq_refl) as (k' & v' & Hin & Hb).
    exists k', v'. split; [now right | assumption].
  - intros [= <-]. exists k, v. split; [now left | assumption].
Qed.

Lemma dns_root_reasons_cases (over_v6 : bool) (dns_root : string) (st : root_status) :
  dns_root_reasons over_v6 dns_root st =
  if total st =? 0 then Raise ZeroDivisionError
  else
    let percent_failed :=
      Py.round1 (inject_Z (Py.len (failed st)) / inject_Z (total st) * 100) in
    Ok (if Py.gtb percent_failed (inject_Z dns_root_fail_threshold)
        then [DnsRootFailed percent_failed dns_root over_v6] else []).
Proof.
  unfold dns_root_reasons, Py.truediv. now destruct (total st =? 0).
Qed.

Lemma check_dns_roots_Ok_iff
    (v6_roots_failed v4_roots_failed : dict string root_status) :
  (exists rs, check_dns_roots v6_roots_failed v4_roots_failed = Ok rs) <->
  (forall dns_root st,
     In (dns_root, st) (v6_roots_failed ++ v4_roots_failed) -> total st <> 0).
Proof.
  assert (Hbody : forall flag dns_root st,
             total st <> 0 -> exists here, dns_root_reasons flag dns_root st = Ok here).
  { intros flag dns_root st Hne. rewrite dns_root_reasons_cases.
    destruct (Z.eqb_spec (total st) 0); [contradiction | now eexists]. }
  assert (Hzero : forall flag dns_root st here,
             dns_root_reasons flag dns_root st = Ok here -> total st <> 0).
  { intros flag dns_root st here. rewrite dns_root_reasons_cases.
    destruct (Z.eqb_spec (total st) 0); [discriminate | auto]. }
  unfold check_dns_roots. split.
  - intros [rs Hrs] dns_root st Hin.
    destruct (for_items (dns_root_reasons true) v6_roots_failed) as [r6 |] eqn:E6;
      simpl in Hrs; [| discriminate].
    destruct (for_items (dns_root_reasons false) v4_roots_failed) as [r4 |] eqn:E4;
      simpl in Hrs; [| discriminate].
    apply in_app_or in Hin. destruct Hin as [Hin | Hin].
    + destruct (for_items_Ok_inv _ _ _ E6 _ _ Hin) as [here Hhere]. eauto.
    + destruct (for_items_Ok_inv _ _ _ E4 _ _ Hin) as [here Hhere]. eauto.
  - intros Hall.
    destruct (for_items_Ok (dns_root_reasons true) v6_roots_failed) as [r6 ->].
    { intros k v Hin. apply Hbody, (Hall k). apply in_or_app. now left. }
    destruct (for_items_Ok (dns_root_reasons false) v4_roots_failed) as [r4 ->].
    { intros k v Hin. apply Hbody, (Hall k). apply in_or_app. now right. }
    simpl. now eexists.
Qed.

(** X11.  [check_dns_roots] has a result exactly when no entry of its two
    inputs has a total of zero probes; the only exception it raises is
    [ZeroDivisionError]. *)
Theorem check_dns_roots_returns_or_raises
    (v6_roots_failed v4_roots_failed : dict string root_status) :
  ((exists rs, check_dns_roots v6_roots_failed v4_roots_failed = Ok rs) <->
   (forall dns_root st,
      In (dns_root, st) (v6_roots_failed ++ v4_roots_failed) -> total st <> 0)) /\
  (forall e, check_dns_roots v6_roots_failed v4_roots_failed = Raise e ->
             e = ZeroDivisionError).
Proof.
  assert (Hexn : forall flag dns_root st e,
             dns_root_reasons flag dns_root st = Raise e -> e = ZeroDivisionError).
  { intros flag dns_root st e. rewrite dns_root_reasons_cases.
    destruct (total st =? 0); [congruence | discriminate]. }
  split; [apply check_dns_roots_Ok_iff |].
  unfold check_dns_roots. intros e.
  destruct (for_items (dns_root_reasons true) v6_roots_failed) as [r6 |] eqn:E6; simpl.
  - destruct (for_items (dns_root_reasons false) v4_roots_failed) as [r4 |] eqn:E4;
      simpl; [discriminate |].
    intros [= <-]. destruct (for_items_raises _ _ _ E4) as (k & v & _ & Hb). eauto.
  - intros [= <-]. destruct (for_items_raises _ _ _ E6) as (k & v & _ & Hb). eauto.
Qed.

Lemma ratio_percent_ge (a b tenths : Z) :
  0 < b -> tenths * b <= 1000 * a ->
  (inject_Z tenths / 10 <= inject_Z a / inject_Z b * 100)%Q.
Proof.
  intros Hb Hle. destruct b as [| p | p]; try lia.
  unfold Qle, Qdiv, Qinv, Qmult, inject_Z. simpl Qnum. simpl Qden. lia.
Qed.

Lemma ratio_percent_le (a b tenths : Z) :
  0 < b -> 1000 * a <= tenths * b ->
  (inject_Z a / inject_Z b * 100 <= inject_Z tenths / 10)%Q.
Proof.
  intros Hb Hle. destruct b as [| p | p]; try lia.
  unfold Qle, Qdiv, Qinv, Qmult, inject_Z. simpl Qnum. simpl Qden. lia.
Qed.

Lemma dns_family_In (flag : bool) (d : dict string root_status) (rs : list reason)
    (p : Q) (dns_root : string) (flag' : bool) :
  for_items (dns_root_reasons flag) d = Ok rs ->
  In (DnsRootFailed p dns_root flag') rs <->
  (flag' = flag /\
   exists st, In (dns_root, st) d /\ total st <> 0 /\ p = percent_failed_of st /\
              (inject_Z dns_root_fail_threshold < percent_failed_of st)%Q).
Proof.
  intros Hrs. rewrite (for_items_In _ _ _ _ Hrs). split.
  - intros (k & st & here & Hin & Hb & Hr). rewrite dns_root_reasons_cases in Hb.
    destruct (Z.eqb_spec (total st) 0) as [| Hne]; [discriminate |].
    cbv zeta in Hb. fold (percent_failed_of st) in Hb. injection Hb as <-.
    destruct (gtb_spec (percent_failed_of st) (inject_Z dns_root_fail_threshold))
      as [Hgt | _]; [| destruct Hr].
    destruct Hr as [[= <- <- <-] | []]. split; [reflexivity |]. now exists st.
  - intros (-> & st & Hin & Hne & -> & Hgt).
    exists dns_root, st. eexists. split; [exact Hin |].
    rewrite dns_root_reasons_cases.
    destruct (Z.eqb_spec (total st) 0) as [| _]; [contradiction |].
    cbv zeta. fold (percent_failed_of st).
    destruct (gtb_spec (percent_failed_of st) (inject_Z dns_root_fail_threshold));
      [| contradiction].
    split; [reflexivity | now left].
Qed.

Lemma percent_failed_low (st : root_status) :
  0 < total st -> 5 * Py.len (failed st) <= total st ->
  ~ (inject_Z dns_root_fail_threshold < percent_failed_of st)%Q.
Proof.
  intros Ht Hlow Hgt.
  assert (Hle : (percent_failed_of st <= inject_Z 200 / 10)%Q).
  { apply round1_le, ratio_percent_le; [assumption | lia]. }
  unfold dns_root_fail_threshold, inject_Z, Qdiv in *.
  change (/ 10)%Q with (1 # 10)%Q in *. lra.
Qed.

Lemma percent_failed_high (st : root_status) :
  0 < total st -> 201 * total st <= 1000 * Py.len (failed st) ->
  (inject_Z dns_root_fail_threshold < percent_failed_of st)%Q.
Proof.
  intros Ht Hhigh.
  assert (Hge : (inject_Z 201 / 10 <= percent_failed_of st)%Q).
  { apply round1_ge, ratio_percent_ge; [assumption | lia]. }
  unfold dns_root_fail_threshold, inject_Z, Qdiv in *.
  change (/ 10)%Q with (1 # 10)%Q in *. lra.
Qed.

Lemma check_dns_roots_Ok (v6_roots_failed v4_roots_failed : dict string root_status)
    (rs : list reason) :
  check_dns_roots v6_roots_failed v4_roots_failed = Ok rs ->
  exists over_v6 over_v4,
    for_items (dns_root_reasons true) v6_roots_failed = Ok over_v6 /\
    for_items (dns_root_reasons false) v4_roots_failed = Ok over_v4 /\
    rs = over_v6 ++ over_v4.
Proof.
  unfold check_dns_roots.
  destruct (for_items (dns_root_reasons true) v6_roots_failed) as [r6 |]; simpl;
    [| discriminate].
  destruct (for_items (dns_root_reasons false) v4_roots_failed) as [r4 |]; simpl;
    [| discriminate].
  intros [= <-]. now exists r6, r4.
Qed.

(** X12.  For a root server with a positive total, over either family:
    [check_dns_roots] emits no reason when at most 20 percent of the probes
    failed, and emits one when at least 20.1 percent failed. *)
Theorem dns_root_failure_thresholds
    (v6_roots_failed v4_roots_failed : dict string root_status) (rs : list reason) :
  NoDup (keys v6_roots_failed) -> NoDup (keys v4_roots_failed) ->
  check_dns_roots v6_roots_failed v4_roots_failed = Ok rs ->
  (forall dns_root st, In (dns_root, st) v6_roots_failed -> 0 < total st ->
     (5 * Py.len (failed st) <= total st ->
      ~ exists p, In (DnsRootFailed p dns_root true) rs) /\
     (201 * total st <= 1000 * Py.len (failed st) ->
      exists p, In (DnsRootFailed p dns_root true) rs)) /\
  (forall dns_root st, In (dns_root, st) v4_roots_failed -> 0 < total st ->
     (5 * Py.len (failed st) <= total st ->
      ~ exists p, In (DnsRootFailed p dns_root false) rs) /\
     (201 * total st <= 1000 * Py.len (failed st) ->
      exists p, In (DnsRootFailed p dns_root false) rs)).
Proof.
  intros Hnd6 Hnd4 Hcheck.
  destruct (check_dns_roots_Ok _ _ _ Hcheck) as (r6 & r4 & H6 & H4 & ->).
  split; intros dns_root st Hin Ht; split.
  - intros Hlow [p Hp]. apply in_app_or in Hp. destruct Hp as [Hp | Hp].
    + apply (dns_family_In true _ _ _ _ _ H6) in Hp.
      destruct Hp as (_ & st' & Hin' & _ & _ & Hgt).
      assert (st' = st) as ->.
      { apply (In_get _ _ _ Hnd6) in Hin, Hin'. congruence. }
      now apply (percent_failed_low st Ht Hlow).
    + apply (dns_family_In false _ _ _ _ _ H4) in Hp. destruct Hp as [C _]. discriminate.
  - intros Hhigh. exists (percent_failed_of st). apply in_or_app. left.
    apply (dns_family_In true _ _ _ _ _ H6). split; [reflexivity |].
    exists st. repeat split; try assumption; [lia | now apply percent_failed_high].
  - intros Hlow [p Hp]. apply in_app_or in Hp. destruct Hp as [Hp | Hp].
    + apply (dns_family_In true _ _ _ _ _ H6) in Hp. destruct Hp as [C _]. discriminate.
    + apply (dns_family_In false _ _ _ _ _ H4) in Hp.
      destruct Hp as (_ & st' & Hin' & _ & _ & Hgt).
      assert (st' = st) as ->.
      { apply (In_get _ _ _ Hnd4) in Hin, Hin'. congruence. }
      now apply (percent_failed_low st Ht Hlow).
  - intros Hhigh. exists (percent_failed_of st). apply in_or_app. right.
    apply (dns_family_In false _ _ _ _ _ H4). split; [reflexivity |].
    exists st. repeat split; try assumption; [lia | now apply percent_failed_high].
Qed.

Lemma dns_root_failure_thresholds_witness :
  exists p,
    In (DnsRootFailed p "a.root-servers.net" true)
      [DnsRootFailed (300 # 10) "a.root-servers.net" true].
Proof.
  destruct (dns_root_failure_thresholds
              [ ("a.root-servers.net"%string, {| total := 10; failed := [1; 2; 3] |}) ]
              [ ("a.root-servers.net"%string, {| total := 10; failed := [1] |}) ]
              [DnsRootFailed (300 # 10) "a.root-servers.net" true]) as [H6 _].
  - nodup_literal.
  - nodup_literal.
  - reflexivity.
  - destruct (H6 "a.root-servers.net"%string {| total := 10; failed := [1; 2; 3] |})
      as [_ Hhigh].
    + left. reflexivity.
    + reflexivity.
    + apply Hhigh. vm_compute. discriminate.
Defined.

(** ** [fetch_root_dns] *)

Lemma roots_failed_entries (roots : list (Z * string))
    (latest : Z -> option (list dns_reply)) :
  NoDup (map snd roots) ->
  roots_failed roots latest = flat_map (entries_of latest) roots.
Proof.
  intros Hnd. unfold roots_failed.
  assert (Hgen : forall acc : dict string root_status,
             (forall name, In name (map snd roots) -> ~ In name (keys acc)) ->
             fold_left
               (fun failures measurement =>
                  match latest (fst measurement) with
                  | Some results =>
                      set (snd measurement)
                        {| total := Py.len results;
                           failed := map dns_prb_id (filter is_failed results) |}
                        failures
                  | None => failures
                  end)
               roots acc
             = acc ++ flat_map (entries_of latest) roots).
  { induction roots as [| [id name] roots IH]; intros acc Hfresh.
    - simpl. now rewrite app_nil_r.
    - inversion Hnd as [| ? ? Hnotin Hnd']; subst.
      cbn [fold_left flat_map fst snd].
      change (entries_of latest (id, name))
        with (match latest id with
              | Some results => [(name, status_of results)]
              | None => []
              end).
      destruct (latest id) as [results |].
      + rewrite set_fresh by (apply Hfresh; now left).
        rewrite IH; [now rewrite <- app_assoc | assumption |].
        intros name' Hname'. unfold keys. rewrite map_app, in_app_iff. cbn [map fst].
        intros [Hin | [<- | []]]; [| contradiction].
        apply (Hfresh name'); [now right | exact Hin].
      + rewrite IH; [reflexivity | assumption |].
        intros name' Hname'. apply Hfresh. now right. }
  apply (Hgen []). intros name _ [].
Qed.

Lemma root_names_NoDup : NoDup (map snd v6_roots) /\ NoDup (map snd v4_roots).
Proof. split; vm_compute; nodup_literal. Qed.

Lemma entries_In (roots : list (Z * string)) (latest : Z -> option (list dns_reply))
    (name : string) (st : root_status) :
  In (name, st) (flat_map (entries_of latest) roots) <->
  exists id results,
    In (id, name) roots /\ latest id = Some results /\ st = status_of results.
Proof.
  rewrite in_flat_map. unfold entries_of. split.
  - intros ([id name'] & Hin & Hentry). cbn [fst snd] in Hentry.
    destruct (latest id) as [results |] eqn:E; [| destruct Hentry].
    destruct Hentry as [[= <- <-] | []]. now exists id, results.
  - intros (id & results & Hin & E & ->). exists (id, name). split; [assumption |].
    cbn [fst snd]. rewrite E. now left.
Qed.

Lemma status_of_bounds (results : list dns_reply) :
  0 <= Py.len (failed (status_of results)) <= total (status_of results) /\
  (total (status_of results) = 0 <-> results = []).
Proof.
  unfold status_of. cbn [failed total]. unfold Py.len. rewrite length_map.
  pose proof (filter_length_le is_failed results). split; [lia |].
  destruct results; cbn [List.length]; split; intros; try reflexivity; try discriminate; lia.
Qed.

Lemma dns_check_after_fetch (latest : Z -> option (list dns_reply)) :
  (exists rs,
     check_dns_roots (fst (fetch_root_dns latest)) (snd (fetch_root_dns latest)) = Ok rs)
  <-> (forall id name, In (id, name) (v6_roots ++ v4_roots) -> latest id <> Some []).
Proof.
  unfold fetch_root_dns. cbn [fst snd].
  destruct root_names_NoDup as [Hnd6 Hnd4].
  rewrite (roots_failed_entries v6_roots latest Hnd6).
  rewrite (roots_failed_entries v4_roots latest Hnd4).
  rewrite check_dns_roots_Ok_iff. split.
  - intros Hall id name Hin E. apply in_app_or in Hin.
    apply (Hall name (status_of [])); [| reflexivity].
    apply in_or_app.
    destruct Hin as [Hin | Hin]; [left | right]; apply entries_In; now exists id, [].
  - intros Hall name st Hin Htotal. apply in_app_or in Hin.
    destruct Hin as [Hin | Hin]; apply entries_In in Hin;
      destruct Hin as (id & results & Hroot & E & ->);
      apply status_of_bounds in Htotal; subst results;
      apply (Hall id name); try assumption; apply in_or_app; auto.
Qed.

(** X13.  [fetch_root_dns] gives a root server an entry exactly when the
    request for one of its measurements returned; in every entry the failed
    probes are at most the total; and [check_dns_roots], run on what
    [fetch_root_dns] returns, has a result exactly when no request returned
    an empty list of replies. *)
Theorem fetch_root_dns_then_check (latest : Z -> option (list dns_reply)) :
  let fetched := fetch_root_dns latest in
  (forall name st, In (name, st) (fst fetched) <->
     exists id results,
       In (id, name) v6_roots /\ latest id = Some results /\ st = status_of results) /\
  (forall name st, In (name, st) (snd fetched) <->
     exists id results,
       In (id, name) v4_roots /\ latest id = Some results /\ st = status_of results) /\
  (forall name st, In (name, st) (fst fetched ++ snd fetched) ->
     0 <= Py.len (failed st) <= total st) /\
  ((exists rs, check_dns_roots (fst fetched) (snd fetched) = Ok rs) <->
   (forall id name, In (id, name) (v6_roots ++ v4_roots) -> latest id <> Some [])).
Proof.
  intros fetched. subst fetched. unfold fetch_root_dns. cbn [fst snd].
  destruct root_names_NoDup as [Hnd6 Hnd4].
  rewrite (roots_failed_entries v6_roots latest Hnd6).
  rewrite (roots_failed_entries v4_roots latest Hnd4).
  split; [intros name st; apply entries_In |].
  split; [intros name st; apply entries_In |].
  split.
  - intros name st Hin. apply in_app_or in Hin.
    destruct Hin as [Hin | Hin]; apply entries_In in Hin;
      destruct Hin as (id & results & _ & _ & ->); apply status_of_bounds.
  - pose proof (dns_check_after_fetch latest) as Hiff.
    unfold fetch_root_dns in Hiff. cbn [fst snd] in Hiff.
    rewrite (roots_failed_entries v6_roots latest Hnd6) in Hiff.
    rewrite (roots_failed_entries v4_roots latest Hnd4) in Hiff. exact Hiff.
Qed.

(** ** [fetch_ripe_atlas_status] *)

Lemma event_is_exclusive (probe : probe_event) :
  event_is "disconnect" probe = true -> event_is "connect" probe = false.
Proof.
  unfold event_is. destruct (event probe) as [e |]; [| discriminate].
  destruct (String.eqb_spec e "disconnect") as [-> | _]; [reflexivity | discriminate].
Qed.

Lemma fetch_ripe_atlas_status_filter (results : list probe_event) :
  fetch_ripe_atlas_status (Some results) =
  {| connected := map prb_id (filter (event_is "connect") results);
     disconnected := map prb_id (filter (event_is "disconnect") results) |}.
Proof.
  unfold fetch_ripe_atlas_status.
  assert (Hgen : forall acc : probes,
             fold_left
               (fun probe_status probe =>
                  let probe_status :=
                    if event_is "disconnect" probe
                    then {| connected := connected probe_status;
                            disconnected := disconnected probe_status ++ [prb_id probe] |}
                    else probe_status in
                  if event_is "connect" probe
                  then {| connected := connected probe_status ++ [prb_id probe];
                          disconnected := disconnected probe_status |}
                  else probe_status)
               results acc
             = {| connected :=
                    connected acc ++ map prb_id (filter (event_is "connect") results);
                  disconnected :=
                    disconnected acc
                    ++ map prb_id (filter (event_is "disconnect") results) |}).
  { induction results as [| probe results IH]; intros [c d].
    - cbn. now rewrite !app_nil_r.
    - cbn [fold_left filter]. rewrite IH. cbv zeta.
      destruct (event_is "disconnect" probe) eqn:Ed.
      + rewrite (event_is_exclusive probe Ed). cbn [connected disconnected map].
        now rewrite <- app_assoc.
      + destruct (event_is "connect" probe); cbn [connected disconnected map];
          [now rewrite <- app_assoc | reflexivity]. }
  apply (Hgen {| connected := []; disconnected := [] |}).
Qed.

Lemma check_ripe_atlas_status_cases (probe_status : probes) :
  exists rs,
    check_ripe_atlas_status probe_status = Ok rs /\
    (List.length rs <= 1)%nat /\
    (rs <> [] <->
     atlas_probe_threshold
     * (Py.len (connected probe_status) + Py.len (disconnected probe_status))
     < 100 * Py.len (disconnected probe_status)).
Proof.
  unfold check_ripe_atlas_status. rewrite len_app. unfold Py.truediv.
  pose proof (len_nonneg (connected probe_status)) as Hc.
  pose proof (len_nonneg (disconnected probe_status)) as Hd.
  set (c := Py.len (connected probe_status)) in *.
  set (d := Py.len (disconnected probe_status)) in *.
  destruct (Z.eqb_spec (c + d) 0) as [E | Hne]; cbn [bind try_zero_division].
  - exists []. split; [reflexivity |]. split; [cbn [List.length]; lia |].
    unfold atlas_probe_threshold. split; [congruence | lia].
  - destruct (gtb_spec (inject_Z d / inject_Z (c + d) * 100)
                (inject_Z atlas_probe_threshold)) as [Hgt | Hngt];
      eexists; (split; [reflexivity |]); (split; [cbn [List.length]; lia |]).
    + split; [intros _ | intros _; discriminate].
      apply percent_above in Hgt; [exact Hgt | lia].
    + split; [congruence |]. intros Hlt. exfalso. apply Hngt.
      apply percent_above; lia.
Qed.

(** X14.  [fetch_ripe_atlas_status] keeps, in the order of the reply, the
    ids of the entries whose event is [connect] and of those whose event is
    [disconnect], and ignores every other entry.  The check that follows
    emits a reason exactly when the disconnect events are more than
    [atlas_probe_threshold] percent of the two kinds together; after a failed
    request it emits none. *)
Theorem atlas_fetch_then_check (results : list probe_event) :
  let c := Py.len (filter (event_is "connect") results) in
  let d := Py.len (filter (event_is "disconnect") results) in
  fetch_ripe_atlas_status (Some results) =
  {| connected := map prb_id (filter (event_is "connect") results);
     disconnected := map prb_id (filter (event_is "disconnect") results) |} /\
  (exists rs,
     check_ripe_atlas_status (fetch_ripe_atlas_status (Some results)) = Ok rs /\
     (rs <> [] <-> atlas_probe_threshold * (c + d) < 100 * d)) /\
  check_ripe_atlas_status (fetch_ripe_atlas_status None) = Ok [].
Proof.
  intros c d. split; [apply fetch_ripe_atlas_status_filter |]. split; [| reflexivity].
  destruct (check_ripe_atlas_status_cases (fetch_ripe_atlas_status (Some results)))
    as (rs & Hcheck & _ & Hiff).
  exists rs. split; [exact Hcheck |].
  rewrite fetch_ripe_atlas_status_filter in Hiff. cbn [connected disconnected] in Hiff.
  unfold Py.len in Hiff. rewrite !length_map in Hiff. exact Hiff.
Qed.

(** ** [fetch_rpki_roa] *)

(** X15.  For the repositories of a status reply, [fetch_rpki_roa] returns
    two dicts with the keys of the reply, in its order: the first maps a
    repository to its invalid ROAs, the second to the sum of its valid and
    invalid ROAs. *)
Theorem fetch_rpki_roa_entries (repositories : dict string repository) :
  NoDup (keys repositories) ->
  fetch_rpki_roa repositories =
  (map (fun entry => (fst entry, invalidROAs (snd entry))) repositories,
   map (fun entry => (fst entry, validROAs (snd entry) + invalidROAs (snd entry)))
     repositories).
Proof.
  intros Hnd. unfold fetch_rpki_roa.
  assert (Hgen : forall roas : dict string Z * dict string Z,
             (forall repo, In repo (keys repositories) ->
                ~ In repo (keys (fst roas)) /\ ~ In repo (keys (snd roas))) ->
             fold_left
               (fun roas entry =>
                  let invalid := invalidROAs (snd entry) in
                  let valid_roa := validROAs (snd entry) in
                  (set (fst entry) invalid (fst roas),
                   set (fst entry) (valid_roa + invalid) (snd roas)))
               repositories roas
             = (fst roas
                ++ map (fun entry => (fst entry, invalidROAs (snd entry))) repositories,
                snd roas
                ++ map (fun entry =>
                          (fst entry, validROAs (snd entry) + invalidROAs (snd entry)))
                     repositories)).
  { induction repositories as [| [repo r] repositories IH]; intros [inv tot] Hfresh.
    - cbn. now rewrite !app_nil_r.
    - inversion Hnd as [| ? ? Hnotin Hnd']; subst.
      cbn [fold_left map fst snd]. cbv zeta.
      destruct (Hfresh repo (or_introl eq_refl)) as [Hi Ht]. cbn [fst snd] in Hi, Ht.
      rewrite !set_fresh by assumption.
      rewrite IH; [cbn [fst snd]; now rewrite <- !app_assoc | assumption |].
      intros repo' Hrepo'. cbn [fst snd]. unfold keys. rewrite !map_app, !in_app_iff.
      cbn [map fst].
      destruct (Hfresh repo' (or_intror Hrepo')) as [Hi' Ht']. cbn [fst snd] in Hi', Ht'.
      split; intros [Hin | [<- | []]]; contradiction. }
  apply (Hgen ([], [])). intros repo _. split; intros [].
Qed.

Lemma fetch_rpki_roa_entries_witness :
  fetch_rpki_roa
    [ ("ripe"%string, {| validROAs := 40; invalidROAs := 10 |});
      ("arin"%string, {| validROAs := 7; invalidROAs := 0 |}) ]
  = ([ ("ripe"%string, 10); ("arin"%string, 0) ],
     [ ("ripe"%string, 50); ("arin"%string, 7) ]).
Proof.
  apply (fetch_rpki_roa_entries
           [ ("ripe"%string, {| validROAs := 40; invalidROAs := 10 |});
             ("arin"%string, {| validROAs := 7; invalidROAs := 0 |}) ]).
  nodup_literal.
Defined.

(** ** The score and the ladder, continued *)

Ltac ladder_test w t :=
  destruct (gtb_spec w (inject_Z t)); try (exfalso; unfold inject_Z in *; lra).

(** X16.  The tier of the status is the number of thresholds that the score
    strictly exceeds: a score equal to a threshold stays in the tier below. *)
Theorem tier_counts_thresholds (w : Q) :
  tier (status w)
  = List.length (filter (fun t => Py.gtb w (inject_Z t)) thresholds) /\
  In (status w) ladder.
Proof.
  split; [| apply status_in_ladder].
  unfold status, status_ladder, thresholds. cbn [filter].
  ladder_test w 0; ladder_test w 5; ladder_test w 10; ladder_test w 15;
    ladder_test w 20; ladder_test w 30; ladder_test w 40; ladder_test w 50;
    ladder_test w 60; ladder_test w 100; ladder_test w 200; reflexivity.
Qed.

Lemma status_baseline (w : Q) :
  status w = "The Internet is fucked no more than usual"%string <-> (w <= 0)%Q.
Proof.
  unfold status, status_ladder.
  ladder_test w 0; ladder_test w 5; ladder_test w 10; ladder_test w 15;
    ladder_test w 20; ladder_test w 30; ladder_test w 40; ladder_test w 50;
    ladder_test w 60; ladder_test w 100; ladder_test w 200;
    (split; [intros E; try discriminate E | intros Hle; try reflexivity]);
    unfold inject_Z in *; try lra.
Qed.

Lemma unweighted_reasons_sum (fr : Metric.t -> list reason) :
  unweighted_reasons fr =
  Py.len (fr Metric.origins) + Py.len (fr Metric.prefixes) + Py.len (fr Metric.dns_root)
  + Py.len (fr Metric.atlas_connected) + Py.len (fr Metric.invalid_roa)
  + Py.len (fr Metric.total_roa) + Py.len (fr Metric.dfz).
Proof. unfold unweighted_reasons, metrics. cbn [map Py.sum fold_right]. lia. Qed.

Lemma score_bounds (fr : Metric.t -> list reason) :
  (inject_Z (unweighted_reasons fr) * 0.1 <= weighted_reasons fr)%Q /\
  (weighted_reasons fr <= inject_Z (unweighted_reasons fr) * 10)%Q.
Proof.
  rewrite weighted_reasons_sum, unweighted_reasons_sum, !inject_Z_plus.
  pose proof (inject_Z_le _ _ (len_nonneg (fr Metric.origins))).
  pose proof (inject_Z_le _ _ (len_nonneg (fr Metric.prefixes))).
  pose proof (inject_Z_le _ _ (len_nonneg (fr Metric.dns_root))).
  pose proof (inject_Z_le _ _ (len_nonneg (fr Metric.atlas_connected))).
  pose proof (inject_Z_le _ _ (len_nonneg (fr Metric.invalid_roa))).
  pose proof (inject_Z_le _ _ (len_nonneg (fr Metric.total_roa))).
  pose proof (inject_Z_le _ _ (len_nonneg (fr Metric.dfz))).
  change (inject_Z 0) with 0%Q in *. split; lra.
Qed.

Lemma len_zero {A : Type} (l : list A) : Py.len l = 0 <-> l = [].
Proof.
  destruct l; [tauto |]. rewrite len_cons. pose proof (len_nonneg l).
  split; [lia | discriminate].
Qed.

(** X17.  The status is the baseline label exactly when the cycle found no
    reason at all, in any category. *)
Theorem baseline_exactly_without_reasons (fr : Metric.t -> list reason) :
  (status (weighted_reasons fr) = "The Internet is fucked no more than usual"%string
   <-> unweighted_reasons fr = 0) /\
  (unweighted_reasons fr = 0 <-> forall metric, fr metric = []).
Proof.
  destruct (score_bounds fr) as [Hlow Hhigh]. split.
  - rewrite status_baseline.
    assert (Hnonneg : 0 <= unweighted_reasons fr).
    { rewrite unweighted_reasons_sum.
      pose proof (len_nonneg (fr Metric.origins)).
      pose proof (len_nonneg (fr Metric.prefixes)).
      pose proof (len_nonneg (fr Metric.dns_root)).
      pose proof (len_nonneg (fr Metric.atlas_connected)).
      pose proof (len_nonneg (fr Metric.invalid_roa)).
      pose proof (len_nonneg (fr Metric.total_roa)).
      pose proof (len_nonneg (fr Metric.dfz)). lia. }
    split.
    + intros Hle. destruct (Z.eq_dec (unweighted_reasons fr) 0) as [E | Hne]; [exact E |].
      exfalso. assert (Hone : 1 <= unweighted_reasons fr) by lia.
      apply inject_Z_le in Hone. change (inject_Z 1) with 1%Q in Hone. lra.
    + intros E. rewrite E in Hhigh. change (inject_Z 0) with 0%Q in Hhigh. lra.
  - rewrite unweighted_reasons_sum.
    pose proof (len_nonneg (fr Metric.origins)).
    pose proof (len_nonneg (fr Metric.prefixes)).
    pose proof (len_nonneg (fr Metric.dns_root)).
    pose proof (len_nonneg (fr Metric.atlas_connected)).
    pose proof (len_nonneg (fr Metric.invalid_roa)).
    pose proof (len_nonneg (fr Metric.total_roa)).
    pose proof (len_nonneg (fr Metric.dfz)).
    split.
    + intros Hsum metric. apply len_zero. destruct metric; lia.
    + intros Hall. rewrite !Hall. reflexivity.
Qed.

(** ** The loop of [main] *)

Ltac iteration_step H :=
  match type of H with
  | and_then ?o _ = Done _ =>
      let a := fresh "a" in
      let E := fresh "E" in
      destruct o as [a |] eqn:E; cbn [and_then] in H; [| discriminate H]
  | match ?r with Some _ => _ | None => _ end = Done _ =>
      let a := fresh "a" in
      destruct r as [a |]; [| discriminate H]
  end.

Lemma iteration_Done_unbinds (input : cycle_input) (l l1 : locals) (w : written) :
  iteration input l = Done (l1, w) -> results l1 = None /\ results l <> None.
Proof.
  unfold iteration. intros H. cbv zeta in H.
  iteration_step H. iteration_step H. iteration_step H. iteration_step H.
  iteration_step H. iteration_step H. iteration_step H. iteration_step H.
  iteration_step H. iteration_step H. iteration_step H. iteration_step H.
  iteration_step H.
  injection H as <- _. split; [reflexivity |].
  intros C. rewrite C in E2. discriminate E2.
Qed.

Lemma iteration_unbound (input : cycle_input) (l : locals) :
  results l = None ->
  iteration input l =
  and_then (call (check_bgp_origins (snd (fetch_bgp_table (bgp_table input)))
                    (num_origins_history l))) (fun _ =>
  and_then (call (check_bgp_prefixes (fst (fetch_bgp_table (bgp_table input)))
                    (num_prefixes_history l))) (fun _ =>
  and_then (call (check_dfz (snd (fetch_bgp_table (bgp_table input)))
                    (num_dfz_routes_history l))) (fun _ =>
  Abort UnboundLocalError))).
Proof.
  intros Hnone. unfold iteration. cbv zeta. rewrite Hnone.
  destruct (call (check_bgp_origins _ _)); [| reflexivity]. cbn [and_then].
  destruct (call (check_bgp_prefixes _ _)); [| reflexivity]. cbn [and_then].
  destruct (call (check_dfz _ _)); reflexivity.
Qed.

(** X18.  An iteration that completes ends with [del results], and the next
    one assigns to [results['bgp']] without binding the name again: after a
    completed iteration no further iteration completes.  The next iteration
    runs the three BGP detectors and then raises [UnboundLocalError], unless
    one of the detectors raised before. *)
Theorem no_iteration_after_a_completed_one (first next : cycle_input)
    (l l1 : locals) (w : written) :
  iteration first l = Done (l1, w) ->
  results l1 = None /\
  (exists e, iteration next l1 = Abort e) /\
  (forall o p d,
     check_bgp_origins (snd (fetch_bgp_table (bgp_table next)))
       (num_origins_history l1) = Ok o ->
     check_bgp_prefixes (fst (fetch_bgp_table (bgp_table next)))
       (num_prefixes_history l1) = Ok p ->
     check_dfz (snd (fetch_bgp_table (bgp_table next)))
       (num_dfz_routes_history l1) = Ok d ->
     iteration next l1 = Abort UnboundLocalError) /\
  (forall later, exists e, iterations (first :: next :: later) l = Abort e).
Proof.
  intros Hfirst. destruct (iteration_Done_unbinds _ _ _ _ Hfirst) as [Hnone _].
  assert (Hnext : exists e, iteration next l1 = Abort e).
  { rewrite (iteration_unbound next l1 Hnone).
    destruct (call (check_bgp_origins _ _)); [| now eexists]. cbn [and_then].
    destruct (call (check_bgp_prefixes _ _)); [| now eexists]. cbn [and_then].
    destruct (call (check_dfz _ _)); now eexists. }
  split; [assumption |]. split; [assumption |]. split.
  - intros o p d Ho Hp Hd. rewrite (iteration_unbound next l1 Hnone).
    rewrite Ho, Hp, Hd. reflexivity.
  - intros later. destruct Hnext as [e He]. exists e.
    cbn [iterations]. rewrite Hfirst. cbn [and_then fst]. rewrite He. reflexivity.
Qed.

(** ** The first iteration *)

Lemma fetch_rpki_roa_NoDup (repositories : dict string repository) :
  NoDup (keys (fst (fetch_rpki_roa repositories))) /\
  NoDup (keys (snd (fetch_rpki_roa repositories))).
Proof.
  unfold fetch_rpki_roa.
  assert (Hgen : forall roas : dict string Z * dict string Z,
             NoDup (keys (fst roas)) /\ NoDup (keys (snd roas)) ->
             NoDup (keys (fst (fold_left
                      (fun roas entry =>
                         let invalid := invalidROAs (snd entry) in
                         let valid_roa := validROAs (snd entry) in
                         (set (fst entry) invalid (fst roas),
                          set (fst entry) (valid_roa + invalid) (snd roas)))
                      repositories roas))) /\
             NoDup (keys (snd (fold_left
                      (fun roas entry =>
                         let invalid := invalidROAs (snd entry) in
                         let valid_roa := validROAs (snd entry) in
                         (set (fst entry) invalid (fst roas),
                          set (fst entry) (valid_roa + invalid) (snd roas)))
                      repositories roas)))).
  { induction repositories as [| entry repositories IH]; intros roas Hnd; [exact Hnd |].
    cbn [fold_left]. apply IH. cbv zeta. cbn [fst snd].
    destruct Hnd. split; now apply NoDup_keys_set. }
  apply Hgen. split; constructor.
Qed.

Lemma first_detection {K V : Type} `{Hashable K}
    (update : K -> Z -> history K -> history K) (value : V -> Z)
    (body : K -> list Z -> result (list reason)) (input : dict K V) :
  (forall k v h, get k h = None -> update k v h = set k [v] h) ->
  NoDup (keys input) ->
  (forall k x, In (k, x) input -> body k [value x] = Ok []) ->
  for_items body (recording update value input []) = Ok [].
Proof.
  intros Hupdate Hnd Hbody.
  rewrite (recording_fresh update value input [] Hupdate Hnd) by (intros k _ []).
  cbn [app]. apply for_items_all_nil. intros k w Hin.
  apply in_map_iff in Hin. destruct Hin as ([k0 x] & [= <- <-] & Hin).
  now apply (Hbody k0 x).
Qed.

Lemma first_origins (table_list : list row) :
  exists h, check_bgp_origins (snd (fetch_bgp_table table_list)) [] = Ok (h, []).
Proof.
  rewrite fetch_bgp_table_grouped. cbn [snd]. unfold check_bgp_origins.
  rewrite (first_detection record_sample (@Py.len row) origins_reasons).
  - now eexists.
  - intros k v h. apply record_sample_fresh.
  - apply grouped_NoDup. constructor.
  - intros k x _. apply origins_reasons_singleton.
Qed.

Lemma first_prefixes (table_list : list row) :
  exists h, check_bgp_prefixes (fst (fetch_bgp_table table_list)) [] = Ok (h, []).
Proof.
  pose proof (fetch_bgp_table_counts_positive table_list) as Hcounts.
  rewrite fetch_bgp_table_grouped in *. cbn [fst] in *. unfold check_bgp_prefixes.
  rewrite (first_detection record_sample (@Py.len row) prefixes_reasons).
  - now eexists.
  - intros k v h. apply record_sample_fresh.
  - apply grouped_NoDup. constructor.
  - intros k x Hin. apply prefixes_reasons_singleton.
    unfold counts_positive in Hcounts. rewrite Forall_forall in Hcounts.
    specialize (Hcounts _ Hin). cbn [snd] in Hcounts. lia.
Qed.

Lemma set_within {K : Type} `{Hashable K} (bound : Z) (k : K) (v : Z) (d : dict K Z) :
  Z.abs v <= bound -> counts_within bound d -> counts_within bound (set k v d).
Proof.
  intros Hv Hd. unfold counts_within in *. rewrite Forall_forall in *.
  intros [k0 v0] Hin. cbn [snd].
  destruct (In_set _ _ _ _ _ Hin) as [[_ ->] | Hold]; [assumption |].
  exact (Hd _ Hold).
Qed.

Lemma fetch_rpki_roa_within (repositories : dict string repository) :
  rpki_counts_exact repositories ->
  counts_within (2 ^ 53) (fst (fetch_rpki_roa repositories)) /\
  counts_within (2 ^ 53) (snd (fetch_rpki_roa repositories)).
Proof.
  unfold fetch_rpki_roa. intros Hexact.
  assert (Hgen : forall roas : dict string Z * dict string Z,
             counts_within (2 ^ 53) (fst roas) /\ counts_within (2 ^ 53) (snd roas) ->
             counts_within (2 ^ 53) (fst (fold_left
                      (fun roas entry =>
                         let invalid := invalidROAs (snd entry) in
                         let valid_roa := validROAs (snd entry) in
                         (set (fst entry) invalid (fst roas),
                          set (fst entry) (valid_roa + invalid) (snd roas)))
                      repositories roas)) /\
             counts_within (2 ^ 53) (snd (fold_left
                      (fun roas entry =>
                         let invalid := invalidROAs (snd entry) in
                         let valid_roa := validROAs (snd entry) in
                         (set (fst entry) invalid (fst roas),
                          set (fst entry) (valid_roa + invalid) (snd roas)))
                      repositories roas))).
  { induction Hexact as [| entry repositories [Hinvalid Htotal] _ IH];
      intros roas Hroas; [exact Hroas |].
    cbn [fold_left]. apply IH. cbv zeta. cbn [fst snd].
    destruct Hroas. split; now apply set_within. }
  apply Hgen. split; constructor.
Qed.

Lemma first_rpki (repositories : dict string repository) :
  rpki_counts_exact repositories ->
  (exists h, check_rpki_invalids (fst (fetch_rpki_roa repositories)) [] = Ok (h, [])) /\
  (exists h, check_rpki_totals (snd (fetch_rpki_roa repositories)) [] = Ok (h, [])).
Proof.
  intros Hexact.
  destruct (fetch_rpki_roa_NoDup repositories) as [Hi Ht].
  destruct (fetch_rpki_roa_within repositories Hexact) as [Hwi Hwt].
  unfold check_rpki_invalids, check_rpki_totals. split.
  - destruct (rpki_first_cycle _ Hi) as (_ & Hsingle & _ & Hwithin).
    destruct (rpki_detection_single _ Hsingle (Hwithin _ Hwi)) as [-> _]. now eexists.
  - destruct (rpki_first_cycle _ Ht) as (_ & Hsingle & _ & Hwithin).
    destruct (rpki_detection_single _ Hsingle (Hwithin _ Hwt)) as [_ ->]. now eexists.
Qed.

Lemma dfz_count_nonneg (table_pfx_key : dict string (list row)) :
  0 <= fst (dfz_count table_pfx_key) /\ 0 <= snd (dfz_count table_pfx_key).
Proof. rewrite dfz_count_filter. cbn [fst snd]. split; apply len_nonneg. Qed.

Lemma first_dfz (table_pfx_key : dict string (list row)) :
  check_dfz table_pfx_key {| v6 := []; v4 := [] |} =
  if (fst (dfz_count table_pfx_key) =? 0) || (snd (dfz_count table_pfx_key) =? 0)
  then Raise ZeroDivisionError
  else Ok ({| v6 := [fst (dfz_count table_pfx_key)];
              v4 := [snd (dfz_count table_pfx_key)] |}, []).
Proof.
  pose proof (check_dfz_cases table_pfx_key {| v6 := []; v4 := [] |}) as Hcases.
  cbv zeta in Hcases. cbn [v6 v4] in Hcases.
  destruct (dfz_count_nonneg table_pfx_key) as [H6 H4].
  set (c6 := fst (dfz_count table_pfx_key)) in *.
  set (c4 := snd (dfz_count table_pfx_key)) in *.
  change (dfz_record c6 []) with [c6] in Hcases.
  change (dfz_record c4 []) with [c4] in Hcases.
  change (Py.sum [c6]) with (c6 + 0) in Hcases.
  change (Py.sum [c4]) with (c4 + 0) in Hcases.
  rewrite !Z.add_0_r in Hcases. rewrite Hcases.
  destruct (Z.eqb_spec c6 0) as [| N6]; [reflexivity |].
  destruct (Z.eqb_spec c4 0) as [| N4]; [reflexivity |]. cbn [orb].
  assert (Hquiet : forall c, 0 < c ->
            dfz_v6_reasons [c] = [] /\ dfz_v4_reasons [c] = []).
  { intros c Hc. apply dfz_reasons_quiet.
    - change (Py.sum [c]) with (c + 0). lia.
    - reflexivity.
    - unfold percent_at_least. change (Py.sum [c]) with (c + 0).
      change (Py.len [c]) with 1. cbn [hd]. lia.
    - unfold percent_at_most. change (Py.sum [c]) with (c + 0).
      change (Py.len [c]) with 1. cbn [hd]. lia. }
  destruct (Hquiet c6 ltac:(lia)) as [-> _].
  destruct (Hquiet c4 ltac:(lia)) as [_ ->]. reflexivity.
Qed.

Lemma first_iteration_cases (input : cycle_input) :
  rpki_counts_exact (rpki_repositories input) ->
  ((exists e, iteration input initial_locals = Abort e) /\
   ~ first_iteration_completes input) \/
  (exists l w,
     iteration input initial_locals = Done (l, w) /\
     first_iteration_completes input /\
     forall metric, metric <> Metric.dns_root -> metric <> Metric.atlas_connected ->
       written_reasons w metric = []).
Proof.
  intros Hexact. unfold first_iteration_completes, iteration. cbv zeta.
  cbn [initial_locals num_origins_history num_prefixes_history num_dfz_routes_history
       rpki_invalid_roa_history rpki_total_roa_history results].
  destruct (first_origins (bgp_table input)) as [ho ->].
  destruct (first_prefixes (bgp_table input)) as [hp ->].
  cbn [call and_then]. rewrite first_dfz.
  destruct (dfz_count_nonneg (snd (fetch_bgp_table (bgp_table input)))) as [H6 H4].
  destruct (Z.eqb_spec (fst (dfz_count (snd (fetch_bgp_table (bgp_table input))))) 0)
    as [E6 | N6]; cbn [orb].
  { left. split; [now eexists | lia]. }
  destruct (Z.eqb_spec (snd (dfz_count (snd (fetch_bgp_table (bgp_table input))))) 0)
    as [E4 | N4].
  { left. split; [now eexists | lia]. }
  cbn [call and_then setitem].
  destruct (first_rpki (rpki_repositories input) Hexact) as [[hi ->] [ht ->]].
  cbn [call and_then setitem].
  pose proof (dns_check_after_fetch (dns_latest input)) as Hdns.
  destruct (check_dns_roots (fst (fetch_root_dns (dns_latest input)))
              (snd (fetch_root_dns (dns_latest input)))) as [dns | e].
  - cbn [call and_then].
    destruct (check_ripe_atlas_status_cases
                (fetch_ripe_atlas_status (atlas_latest input))) as (atlas & -> & _).
    cbn [call and_then setitem]. right. eexists _, _. split; [reflexivity |].
    split.
    + split; [lia |]. split; [lia |]. apply Hdns. now exists dns.
    + intros metric Hd Ha. cbn [written_reasons snd].
      destruct metric; try reflexivity; congruence.
  - cbn [call and_then]. left. split; [now eexists |].
    intros (_ & _ & Hall). apply Hdns in Hall. destruct Hall as [rs C]. discriminate C.
Qed.

(** X19.  From the locals [main] starts with, and on a status reply whose
    counts are at most [2^53], the first iteration completes exactly when the
    table holds a prefix counted as IPv6 and one counted as IPv4 and no
    root-server request returned an empty list of replies.  When it
    completes, only the categories [dns_root] and [atlas_connected] can hold
    a reason: every history detector sees windows of one sample. *)
Theorem first_iteration_of_main (input : cycle_input) :
  rpki_counts_exact (rpki_repositories input) ->
  ((exists l w, iteration input initial_locals = Done (l, w)) <->
   first_iteration_completes input) /\
  (forall l w, iteration input initial_locals = Done (l, w) ->
     forall metric, metric <> Metric.dns_root -> metric <> Metric.atlas_connected ->
       written_reasons w metric = []).
Proof.
  intros Hexact.
  destruct (first_iteration_cases input Hexact)
    as [[[e He] Hnot] | (l & w & Hdone & Hcompletes & Hreasons)].
  - split.
    + split; [| contradiction]. intros (l & w & Hdone). congruence.
    + intros l w Hdone. congruence.
  - split.
    + split; [intros _; assumption | intros _; now exists l, w].
    + intros l' w' Hdone'. rewrite Hdone in Hdone'. injection Hdone' as _ <-.
      exact Hreasons.
Qed.

Lemma first_iteration_of_main_witness :
  (exists l w, iteration sample_input initial_locals = Done (l, w)) <->
  first_iteration_completes sample_input.
Proof.
  apply (first_iteration_of_main sample_input).
  repeat constructor; vm_compute; discriminate.
Defined.

(** A status reply with a count that no float holds: the first iteration
    files a reason under [invalid_roa], for a repository seen once. *)
Example first_iteration_beyond_the_exact_integers :
  exists l w,
    iteration
      {| bgp_table := bgp_table sample_input;
         rpki_repositories :=
           [ ("ripe"%string, {| validROAs := 0; invalidROAs := 2 ^ 53 + 1 |}) ];
         dns_latest := dns_latest sample_input;
         atlas_latest := atlas_latest sample_input |}
      initial_locals
    = Done (l, w) /\
    written_reasons w Metric.invalid_roa = [RoaInvalid (2 ^ 53 + 1) "ripe" (2 ^ 53)].
Proof. eexists _, _. split; vm_compute; reflexivity. Qed.

Lemma no_iteration_after_a_completed_one_witness :
  exists l1 w,
    iteration sample_input initial_locals = Done (l1, w) /\
    exists e, iteration sample_input l1 = Abort e.
Proof.
  destruct (iteration sample_input initial_locals) as [[l1 w] | e] eqn:E.
  - exists l1, w. split; [reflexivity |].
    apply (no_iteration_after_a_completed_one sample_input sample_input
             initial_locals l1 w E).
  - vm_compute in E. discriminate E.
Defined.

(** ** Everything [main] writes *)

Lemma run_unbound (cycle_inputs : list cycle_input) (l : locals) :
  results l = None ->
  fst (run cycle_inputs l) = [] /\ (cycle_inputs <> [] -> snd (run cycle_inputs l) <> None).
Proof.
  intros Hnone. destruct cycle_inputs as [| input later]; [now split |].
  cbn [run]. rewrite (iteration_unbound input l Hnone).
  destruct (call (check_bgp_origins _ _)); [| split; [reflexivity | discriminate]].
  cbn [and_then].
  destruct (call (check_bgp_prefixes _ _)); [| split; [reflexivity | discriminate]].
  cbn [and_then].
  destruct (call (check_dfz _ _)); split; try reflexivity; discriminate.
Qed.

(** X20.  Started as [main] starts, the program writes at most once, however
    many cycles it is given: it ends with an exception in its first or its
    second iteration.  When the counts of the first status reply are at most
    [2^53], the one status it may have written counts reasons of the
    categories [dns_root] and [atlas_connected] only. *)
Theorem main_writes_at_most_once (first second : cycle_input) (later : list cycle_input) :
  let program := run (first :: second :: later) initial_locals in
  (List.length (fst program) <= 1)%nat /\
  snd program <> None /\
  (rpki_counts_exact (rpki_repositories first) ->
   forall w metric, In w (fst program) ->
     metric <> Metric.dns_root -> metric <> Metric.atlas_connected ->
     written_reasons w metric = []).
Proof.
  cbv zeta. cbn [run].
  destruct (iteration first initial_locals) as [[l w] | e] eqn:Hdone.
  - destruct (iteration_Done_unbinds _ _ _ _ Hdone) as [Hnone _].
    destruct (run_unbound (second :: later) l Hnone) as [Hws Hexn].
    cbv zeta. cbn [fst snd]. cbn [run] in Hws, Hexn. rewrite Hws.
    split; [cbn [List.length]; lia |]. split; [apply Hexn; discriminate |].
    intros Hexact w' metric [<- | []].
    destruct (first_iteration_cases first Hexact)
      as [[[e He] _] | (l' & w' & Hdone' & _ & Hreasons)]; [congruence |].
    rewrite Hdone in Hdone'. injection Hdone' as _ <-. apply Hreasons.
  - cbn [fst snd List.length]. split; [lia |]. split; [discriminate |].
    intros _ w metric [].
Qed.

Lemma main_writes_at_most_once_witness :
  exists w,
    fst (run [sample_input; sample_input] initial_locals) = [w] /\
    forall metric, metric <> Metric.dns_root -> metric <> Metric.atlas_connected ->
      written_reasons w metric = [].
Proof.
  destruct (run [sample_input; sample_input] initial_locals) as [ws e] eqn:Hrun.
  pose proof (main_writes_at_most_once sample_input sample_input []) as Hmain.
  cbv zeta in Hmain. rewrite Hrun in Hmain. cbn [fst snd] in Hmain.
  destruct Hmain as (_ & _ & Hreasons).
  destruct ws as [| w [| w' ws]]; [vm_compute in Hrun; discriminate Hrun | |
                                   vm_compute in Hrun; discriminate Hrun].
  exists w. split; [reflexivity |].
  intros metric Hd Ha. apply Hreasons; [| now left | assumption..].
  repeat constructor; vm_compute; discriminate.
Defined.

(** ** The tolerance of the prefix-count detector *)

Lemma integer_quotient_ge (a b t : Z) :
  0 < b -> t * b <= a -> (inject_Z t <= inject_Z a / inject_Z b)%Q.
Proof.
  intros Hb Hle. destruct b as [| p | p]; try lia.
  unfold Qle, Qdiv, Qinv, Qmult, inject_Z. simpl Qnum. simpl Qden. lia.
Qed.

Lemma integer_quotient_le (a b t : Z) :
  0 < b -> a <= t * b -> (inject_Z a / inject_Z b <= inject_Z t)%Q.
Proof.
  intros Hb Hle. destruct b as [| p | p]; try lia.
  unfold Qle, Qdiv, Qinv, Qmult, inject_Z. simpl Qnum. simpl Qden. lia.
Qed.

Lemma prefixes_reasons_window (asn latest : Z) (rest : list Z) :
  0 < Py.sum (latest :: rest) ->
  prefixes_reasons asn (latest :: rest) =
  Ok (if prefixes_percentage (latest :: rest) >? bgp_prefix_threshold
      then [PrefixesFewer asn latest (prefixes_percentage (latest :: rest))
              (Py.ceil (mean (latest :: rest)))]
      else []).
Proof.
  intros Hsum. unfold prefixes_reasons.
  rewrite truediv_window by discriminate. rewrite item0_window. unfold bind at 1 2.
  rewrite truediv_float_mean by discriminate.
  destruct (Z.eqb_spec (Py.sum (latest :: rest)) 0); [lia | reflexivity].
Qed.

Lemma prefixes_percentage_high (window : list Z) :
  0 < Py.sum window -> 0 < Py.len window ->
  100 * hd 0 window * Py.len window <= 14 * Py.sum window ->
  bgp_prefix_threshold < prefixes_percentage window.
Proof.
  intros Hsum Hlen Hle. unfold prefixes_percentage, Py.round0. rewrite int_inject_Z.
  assert (Hround : Py.round_half_even (inject_Z (hd 0 window) / mean window * 100) <= 14).
  { apply round_half_even_le. rewrite window_percentage by assumption.
    apply integer_quotient_le; [assumption | lia]. }
  unfold bgp_prefix_threshold. lia.
Qed.

Lemma prefixes_percentage_low (window : list Z) :
  0 < Py.sum window -> 0 < Py.len window ->
  15 * Py.sum window <= 100 * hd 0 window * Py.len window ->
  prefixes_percentage window <= bgp_prefix_threshold.
Proof.
  intros Hsum Hlen Hle. unfold prefixes_percentage, Py.round0. rewrite int_inject_Z.
  assert (Hround : 15 <= Py.round_half_even (inject_Z (hd 0 window) / mean window * 100)).
  { apply round_half_even_ge. rewrite window_percentage by assumption.
    apply integer_quotient_ge; [assumption | lia]. }
  unfold bgp_prefix_threshold. lia.
Qed.

Lemma positive_window_sum (window : list Z) :
  window <> [] -> Forall (fun x => 1 <= x) window -> 0 < Py.sum window.
Proof.
  intros Hne Hall. pose proof (sum_ge_len window Hall). pose proof (len_pos window Hne). lia.
Qed.

(** X21.  On tables and windows of counts of at least 1,
    [check_bgp_prefixes] reports an ASN whose latest count is at most 14
    percent of the mean of its window, and does not report an ASN whose
    latest count is at least 15 percent of it. *)
Theorem prefix_drop_thresholds (table_asn_key : dict Z (list row)) (h : history Z) :
  NoDup (keys h) -> counts_positive table_asn_key -> windows_positive h ->
  exists h' rs,
    check_bgp_prefixes table_asn_key h = Ok (h', rs) /\
    forall asn latest rest, get asn h' = Some (latest :: rest) ->
      (100 * latest * Py.len (latest :: rest) <= 14 * Py.sum (latest :: rest) ->
       exists p c, In (PrefixesFewer asn latest p c) rs) /\
      (15 * Py.sum (latest :: rest) <= 100 * latest * Py.len (latest :: rest) ->
       ~ exists l p c, In (PrefixesFewer asn l p c) rs).
Proof.
  intros Hnd Hcounts Hpos.
  destruct (check_bgp_prefixes_positive table_asn_key h Hcounts Hpos)
    as (h' & rs & Hcheck & Hpos').
  exists h', rs. split; [exact Hcheck |].
  apply check_bgp_prefixes_recording in Hcheck. destruct Hcheck as [Hh' Hrs].
  assert (Hnd' : NoDup (keys h')).
  { rewrite Hh'. apply recording_NoDup; [| assumption].
    intros k v h0. apply record_sample_NoDup. }
  unfold windows_positive in Hpos'. rewrite Forall_forall in Hpos'.
  intros asn latest rest Hget.
  pose proof (Hpos' _ (get_In _ _ _ Hget)) as [_ Hall]. cbn [snd] in Hall.
  assert (Hsum : 0 < Py.sum (latest :: rest)).
  { apply positive_window_sum; [discriminate | assumption]. }
  assert (Hlen : 0 < Py.len (latest :: rest)) by (apply len_pos; discriminate).
  split.
  - intros Hdrop. eexists _, _. apply (for_items_In _ _ _ _ Hrs).
    exists asn, (latest :: rest). eexists. split; [now apply get_In |].
    split; [now apply prefixes_reasons_window |].
    pose proof (prefixes_percentage_high (latest :: rest) Hsum Hlen Hdrop) as Hp.
    destruct (Z.gtb_spec (prefixes_percentage (latest :: rest)) bgp_prefix_threshold);
      [now left | lia].
  - intros Hkeep (l & p & c & Hr). apply (for_items_In _ _ _ _ Hrs) in Hr.
    destruct Hr as (k & w & here & Hkw & Hb & Hr).
    pose proof (Hpos' _ Hkw) as [Hne Hallw]. cbn [snd] in Hne, Hallw.
    destruct w as [| l0 w0]; [congruence |].
    rewrite prefixes_reasons_window in Hb
      by (apply positive_window_sum; [discriminate | assumption]).
    injection Hb as <-.
    destruct (Z.gtb_spec (prefixes_percentage (l0 :: w0)) bgp_prefix_threshold)
      as [Hgt | _]; [| destruct Hr].
    destruct Hr as [[= -> -> _ _] | []].
    apply (In_get _ _ _ Hnd') in Hkw. rewrite Hget in Hkw. injection Hkw as <- <-.
    pose proof (prefixes_percentage_low (latest :: rest) Hsum Hlen Hkeep). lia.
Qed.

Lemma prefix_drop_thresholds_witness :
  exists h' rs p c,
    check_bgp_prefixes [ (64500, single_origin) ] [ (64500, [100; 100; 100]) ] = Ok (h', rs) /\
    In (PrefixesFewer 64500 1 p c) rs.
Proof.
  destruct (prefix_drop_thresholds [ (64500, single_origin) ] [ (64500, [100; 100; 100]) ])
    as (h' & rs & Hcheck & Hrs).
  - nodup_literal.
  - repeat constructor. vm_compute. discriminate.
  - repeat constructor; try discriminate; vm_compute; discriminate.
  - assert (Hget : get 64500 h' = Some [1; 100; 100; 100]).
    { vm_compute in Hcheck. injection Hcheck as <- _. reflexivity. }
    destruct (Hrs 64500 1 [100; 100; 100] Hget) as [Hdrop _].
    destruct Hdrop as (p & c & Hin).
    + vm_compute. discriminate.
    + exists h', rs, p, c. split; assumption.
Defined.
